(** * pdf_color_inverter: the page model, the enhancement pipeline, page-range
      parsing, export and the compact-layout composer

    Embedding of [PDF_converter_V6.py] (the current program) and, in
    [Module V4], of the functions of [PDF_converter_V4.py] that differ.

    Conventions.
    - Python [int] is [Z]; Python [float] is the kernel's binary64 [float]
      where a value is truncated to an integer ([mm_to_px]); progress
      fractions, of which only the order is observed, are exact rationals [Q].
    - Python [str] is a list of code points below 256 ([list ascii]).
    - A raised exception is a value of [exn] carried by [result].
    - A PIL image value is the term of PIL calls that built it ([Image]);
      image objects that are mutated in place while shared live in a store
      ([Heap]). *)

From Stdlib Require Import ZArith QArith Ascii String PrimFloat SpecFloat FloatOps.
From stdpp Require Import base option list gmap strings.

Set Warnings "-inexact-float".
Local Open Scope Z_scope.

(** ** Exceptions *)

Inductive exn : Type :=
| IndexError
| ValueError
| KeyError (key : string)
| OverflowError
| FileNotFoundError
| Exception (msg : string).

Inductive result (A : Type) : Type :=
| Ok (a : A)
| Raise (e : exn).
Arguments Ok {A} a.
Arguments Raise {A} e.

Definition bind {A B : Type} (r : result A) (k : A -> result B) : result B :=
  match r with
  | Ok a => k a
  | Raise e => Raise e
  end.

Notation "x <-! r ; k" := (bind r (fun x => k))
  (at level 100, r at next level, right associativity).

Definition of_option {A : Type} (e : exn) (o : option A) : result A :=
  match o with
  | Some a => Ok a
  | None => Raise e
  end.

(** ** Python lists *)

(** The largest [Py_ssize_t] of a 64-bit build: the largest list index and
    list length. *)
Definition PY_SSIZE_T_MAX : Z := 2 ^ 63 - 1.

(** The integer converts to a [Py_ssize_t]. *)
Definition fits_ssize_t (i : Z) : bool :=
  (- PY_SSIZE_T_MAX - 1 <=? i) && (i <=? PY_SSIZE_T_MAX).

(** A list of this many indices takes a few megabytes, less than one rendered
    page.  Whether a longer list can be built depends on the memory of the
    machine, which is not modelled: the properties that say a range is
    converted are stated up to this length. *)
Definition SHORT_LIST : Z := 2 ^ 20.

Section PyList.
Context {A : Type}.

(** [len(l)] *)
Definition len (l : list A) : Z := Z.of_nat (length l).

(** The position [l[i]] denotes: a negative index counts from the end. *)
Definition py_pos (l : list A) (i : Z) : option nat :=
  if 0 <=? i
  then (if i <? len l then Some (Z.to_nat i) else None)
  else (if 0 <=? len l + i then Some (Z.to_nat (len l + i)) else None).

(** [l[i]], raising IndexError out of range. *)
Definition py_get (l : list A) (i : Z) : result A :=
  match py_pos l i with
  | Some n => of_option IndexError (l !! n)
  | None => Raise IndexError
  end.

(** [l[i] = x] *)
Definition py_set (l : list A) (i : Z) (x : A) : result (list A) :=
  match py_pos l i with
  | Some n => Ok (<[n := x]> l)
  | None => Raise IndexError
  end.

(** [l.insert(i, x)] once the index is a machine index: it is clamped to
    the ends of the list. *)
Definition ins1 (l : list A) (i : Z) (x : A) : list A :=
  let j := if i <? 0 then Z.max 0 (len l + i) else Z.min i (len l) in
  take (Z.to_nat j) l ++ x :: drop (Z.to_nat j) l.

(** The index of [l.insert(i, x)] converts to a machine index.  A list holds
    at most [PY_SSIZE_T_MAX] items, so an index from [- len l] to [len l]
    always does. *)
Definition insertable (l : list A) (i : Z) : bool :=
  fits_ssize_t i || ((- len l <=? i) && (i <=? len l)).

(** [l.insert(i, x)]: an index that does not convert raises OverflowError. *)
Definition py_insert (l : list A) (i : Z) (x : A) : result (list A) :=
  if insertable l i then Ok (ins1 l i x) else Raise OverflowError.

(** [l[i], l[j] = l[j], l[i]]: the right-hand side is read first. *)
Definition py_swap (l : list A) (i j : Z) : result (list A) :=
  a <-! py_get l j;
  b <-! py_get l i;
  l1 <-! py_set l i a;
  py_set l1 j b.
End PyList.

(** [n] consecutive integers from [a]. *)
Fixpoint count_from (a : Z) (n : nat) : list Z :=
  match n with
  | O => []
  | S n' => a :: count_from (a + 1) n'
  end.

(** [range(a, b)] *)
Definition py_range (a b : Z) : list Z := count_from a (Z.to_nat (b - a)).

(** ** Python strings *)

Definition str : Type := list ascii.

Definition code (c : ascii) : Z := Z.of_nat (nat_of_ascii c).

(** [c.isspace()] for a code point below 256. *)
Definition is_space (c : ascii) : bool :=
  let n := code c in
  ((9 <=? n) && (n <=? 13)) || ((28 <=? n) && (n <=? 32))
  || (n =? 133) || (n =? 160).

Definition is_digit (c : ascii) : bool :=
  let n := code c in (48 <=? n) && (n <=? 57).

Definition digit_val (c : ascii) : Z := code c - 48.

Fixpoint lstrip (s : str) : str :=
  match s with
  | [] => []
  | c :: s' => if is_space c then lstrip s' else s
  end.

(** [s.strip()] *)
Definition strip (s : str) : str := rev (lstrip (rev (lstrip s))).

(** [s.split(sep)] for a one-character separator: always at least one piece. *)
Fixpoint split (sep : ascii) (s : str) : list str :=
  match s with
  | [] => [[]]
  | c :: s' =>
      if Ascii.eqb c sep then [] :: split sep s'
      else match split sep s' with
           | p :: ps => (c :: p) :: ps
           | [] => [[c]]
           end
  end.

(** [sep in s] *)
Definition contains (sep : ascii) (s : str) : bool :=
  existsb (Ascii.eqb sep) s.

(** The digits of a decimal literal after the first: single underscores may
    separate digits. *)
Fixpoint int_digits (acc : Z) (after_underscore : bool) (s : str) : option Z :=
  match s with
  | [] => if after_underscore then None else Some acc
  | c :: s' =>
      if is_digit c then int_digits (10 * acc + digit_val c) false s'
      else if Ascii.eqb c "_"%char
           then (if after_underscore then None else int_digits acc true s')
           else None
  end.

Definition int_unsigned (s : str) : option Z :=
  match s with
  | c :: s' => if is_digit c then int_digits (digit_val c) false s' else None
  | [] => None
  end.

(** The whitespace [int()] skips at both ends of its argument: tab to
    carriage return and the space, and of the code points from 128 on the
    next-line and the no-break space.  The separators 28 to 31, which
    [str.strip] removes, are no whitespace for [int()]. *)
Definition is_int_space (c : ascii) : bool :=
  let n := code c in
  ((9 <=? n) && (n <=? 13)) || (n =? 32) || (n =? 133) || (n =? 160).

Fixpoint int_lstrip (s : str) : str :=
  match s with
  | [] => []
  | c :: s' => if is_int_space c then int_lstrip s' else s
  end.

Definition int_strip (s : str) : str :=
  rev (int_lstrip (rev (int_lstrip s))).

(** [int(s)]: surrounding whitespace, an optional sign, decimal digits. *)
Definition py_int (s : str) : result Z :=
  of_option ValueError
    match int_strip s with
    | c :: s' =>
        if Ascii.eqb c "-"%char then Z.opp <$> int_unsigned s'
        else if Ascii.eqb c "+"%char then int_unsigned s'
        else int_unsigned (c :: s')
    | [] => None
    end.

(** ** Python floats *)

(** [float(n)] for an [int]: the nearest binary64 value. *)
Definition float_of_int (n : Z) : float :=
  SF2Prim (binary_normalize prec emax n 0 false).

(** Truncation toward zero of the value [m * 2^e]. *)
Definition trunc_mag (m : positive) (e : Z) : Z :=
  if 0 <=? e then Z.pos m * 2 ^ e else Z.pos m / 2 ^ (- e).

(** [int(x)] for a [float]: truncation toward zero; infinities and NaN raise. *)
Definition int_of_float (x : float) : result Z :=
  match Prim2SF x with
  | S754_zero _ => Ok 0
  | S754_finite s m e => Ok (if s then - trunc_mag m e else trunc_mag m e)
  | S754_infinity _ => Raise OverflowError
  | S754_nan => Raise ValueError
  end.

(** [round(x)] for a [float]: the nearest integer, a tie going to the even
    one. *)
Definition round_mag (m : positive) (e : Z) : Z :=
  if 0 <=? e then Z.pos m * 2 ^ e
  else
    let d := 2 ^ (- e) in
    let q := Z.pos m / d in
    let r := Z.pos m mod d in
    if 2 * r <? d then q
    else if d <? 2 * r then q + 1
    else if Z.even q then q else q + 1.

Definition py_round (x : float) : result Z :=
  match Prim2SF x with
  | S754_zero _ => Ok 0
  | S754_finite s m e => Ok (if s then - round_mag m e else round_mag m e)
  | S754_infinity _ => Raise OverflowError
  | S754_nan => Raise ValueError
  end.

(** ** Constants and utilities (PDF_converter_V6.py, lines 27-38) *)

Definition DEFAULT_DPI : Z := 200.
Definition ESTIMATE_SAMPLE_COUNT : Z := 3.

(** [PAPER_SIZES_MM.get(paper, PAPER_SIZES_MM["A4"])] *)
Definition PAPER_SIZES_MM (paper : string) : float * float :=
  if String.eqb paper "Letter" then (216.0, 279.0)%float
  else (210.0, 297.0)%float.

(** [mm * dpi / 25.4] with [mm] a float and [dpi] an int. *)
Definition mm_quotient (mm : float) (dpi : Z) : float :=
  (mm * float_of_int dpi / 25.4)%float.

Definition mm_to_px (mm : float) (dpi : Z) : result Z :=
  int_of_float (mm_quotient mm dpi).

(** The conversion as section 4.1 of the specification words it:
    [px = round(mm * dpi / 25.4)]. *)
Definition spec_mm_to_px (mm : float) (dpi : Z) : result Z :=
  py_round (mm_quotient mm dpi).

(** ** PIL images *)

Definition rgb : Type := Z * Z * Z.

(** An RGB image, given by the PIL calls that produce it. *)
Inductive Image : Type :=
| Raster (w h : Z) (samples : list rgb)
    (* Image.frombytes("RGB", [w, h], samples) *)
| Blank (w h : Z)
    (* Image.new("RGB", (w, h), "white") *)
| Text (base : Image) (x y : Z) (text : str)
    (* ImageDraw.Draw(base).text((x, y), text, fill="black", font=default) *)
| Invert (im : Image)
    (* ImageOps.invert(im) *)
| Luminance (im : Image)
    (* im.convert("L").convert("RGB") *)
| Contrast (im : Image) (factor : float)
    (* ImageEnhance.Contrast(im).enhance(factor) *)
| Brightness (im : Image) (factor : float)
| Sharpness (im : Image) (factor : float)
| Thumbnail (im : Image) (w h : Z)
    (* im after im.thumbnail(box, Image.LANCZOS), its new size being (w, h) *)
| Paste (base im : Image) (x y : Z)
    (* base after base.paste(im, (x, y)) *)
| Rectangle (base : Image) (x0 y0 x1 y1 : Z)
    (* base after draw.rectangle([x0, y0, x1, y1], outline="black", width=1) *)
| Rotate270 (im : Image)
    (* im.transpose(Image.Transpose.ROTATE_270) *)
| Jpeg (im : Image) (quality : Z).
    (* im saved as JPEG at [quality], reopened and converted to RGB *)

(** [im.size] *)
Fixpoint size (im : Image) : Z * Z :=
  match im with
  | Raster w h _ => (w, h)
  | Blank w h => (w, h)
  | Text base _ _ _ => size base
  | Invert im => size im
  | Luminance im => size im
  | Contrast im _ => size im
  | Brightness im _ => size im
  | Sharpness im _ => size im
  | Thumbnail _ w h => (w, h)
  | Paste base _ _ _ => size base
  | Rectangle base _ _ _ _ => size base
  | Rotate270 im => let '(w, h) := size im in (h, w)
  | Jpeg im _ => size im
  end.

Definition width (im : Image) : Z := fst (size im).
Definition height (im : Image) : Z := snd (size im).

(** [ImageOps.invert] looks every channel up in the table [255 - v]. *)
Definition invert_rgb (p : rgb) : rgb :=
  let '(r, g, b) := p in (255 - r, 255 - g, 255 - b).

(** ITU-R 601-2 luma as PIL computes it, copied to the three channels. *)
Definition luminance_rgb (p : rgb) : rgb :=
  let '(r, g, b) := p in
  let l := Z.shiftr (r * 19595 + g * 38470 + b * 7471 + 32768) 16 in
  (l, l, l).

(** [ImageEnhance...enhance(factor)] is [Image.blend(degenerate, im, factor)]:
    at the factor 1.0 the blend is the image itself, whatever the degenerate
    image is. *)
Definition neutral (factor : float) : bool := PrimFloat.eqb factor 1.0%float.

(** The pixel data of an image built by exact integer operations; the
    resampling, text and codec stages, and the blend of an enhancement at a
    factor other than 1.0, have none in this model. *)
Fixpoint pixels (im : Image) : option (list rgb) :=
  match im with
  | Raster _ _ samples => Some samples
  | Blank w h => Some (replicate (Z.to_nat (w * h)) (255, 255, 255))
  | Invert im => map invert_rgb <$> pixels im
  | Luminance im => map luminance_rgb <$> pixels im
  | Contrast im factor => if neutral factor then pixels im else None
  | Brightness im factor => if neutral factor then pixels im else None
  | Sharpness im factor => if neutral factor then pixels im else None
  | _ => None
  end.

(** How many times a finished image was turned by [ROTATE_270]. *)
Fixpoint rotations (im : Image) : nat :=
  match im with
  | Rotate270 im => S (rotations im)
  | Paste base _ _ _ => rotations base
  | Rectangle base _ _ _ _ => rotations base
  | Jpeg im _ => rotations im
  | _ => 0%nat
  end.

(** How many page images were pasted onto a sheet. *)
Fixpoint pastes (im : Image) : nat :=
  match im with
  | Rotate270 im => pastes im
  | Paste base _ _ _ => S (pastes base)
  | Rectangle base _ _ _ _ => pastes base
  | Jpeg im _ => pastes im
  | _ => 0%nat
  end.

(** The outermost operation of a sheet is the turn: nothing was placed on it
    afterwards. *)
Definition rotated_last (im : Image) : bool :=
  match im with
  | Rotate270 _ => true
  | _ => false
  end.

(** [im.copy()] and, every image here being RGB, [im.convert("RGB")]: a new
    object with the same contents. *)
Definition copy (im : Image) : Image := im.
Definition convert_RGB (im : Image) : Image := copy im.

(** ** Settings *)

(** The settings dict: a key may be absent. *)
Record Settings : Type := mkSettings {
  contrast : option float;
  brightness : option float;
  sharpness : option float;
  grayscale : option bool
}.

(** ** PDFManager (PDF_converter_V6.py, lines 52-164) *)

Record PDFManager : Type := mkManager {
  original_pages : list Image;
  pages : list Image;
  selected : list bool
}.

(** A progress value [(i + 1) / total]. *)
Definition fraction (i total : Z) : Q := Qmake (i + 1) (Z.to_pos total).

(** [if progress_callback: progress_callback(v)]: the values the callback has
    been called with, oldest first. *)
Definition report (progress_callback : bool) (log : list Q) (v : Q) : list Q :=
  if progress_callback then log ++ [v] else log.

Definition process_image (self : PDFManager) (img : Image) (settings : Settings)
  : Image :=
  let inverted := Invert img in
  let processed :=
    if default true (grayscale settings) then Luminance inverted else inverted in
  let processed := Contrast processed (default 1.2%float (contrast settings)) in
  let processed := Brightness processed (default 1.0%float (brightness settings)) in
  let processed := Sharpness processed (default 1.0%float (sharpness settings)) in
  processed.

(** One rendered page of the source document: [p.get_pixmap(dpi=DEFAULT_DPI)]. *)
Record Pixmap : Type := mkPixmap {
  pix_width : Z;
  pix_height : Z;
  pix_samples : list rgb
}.

Definition with_pages (self : PDFManager) (ps : list Image) : PDFManager :=
  mkManager (original_pages self) ps (selected self).

(** The loop of [load_pdf] from page [idx] on. *)
Fixpoint load_loop (self : PDFManager) (settings : Settings)
    (progress_callback : bool) (total idx : Z) (doc : list Pixmap)
    (log : list Q) : PDFManager * list Q :=
  match doc with
  | [] => (self, log)
  | pix :: rest =>
      let img := Raster (pix_width pix) (pix_height pix) (pix_samples pix) in
      let self1 :=
        mkManager (original_pages self ++ [img])
                  (pages self ++ [process_image self img settings])
                  (selected self) in
      load_loop self1 settings progress_callback total (idx + 1) rest
                (report progress_callback log (fraction idx total))
  end.

Definition load_pdf (self : PDFManager) (doc : list Pixmap) (settings : Settings)
    (progress_callback : bool) : PDFManager * list Q :=
  let self0 := mkManager [] [] (selected self) in
  let '(self1, log) :=
    load_loop self0 settings progress_callback (len doc) 0 doc [] in
  (mkManager (original_pages self1) (pages self1)
             (replicate (length (pages self1)) true), log).

Definition reprocess_current_page (self : PDFManager) (index : Z)
    (settings : Settings) : PDFManager * result unit :=
  if (0 <=? index) && (index <? len (original_pages self)) then
    match py_get (original_pages self) index with
    | Raise e => (self, Raise e)
    | Ok img =>
        match py_set (pages self) index (process_image self img settings) with
        | Raise e => (self, Raise e)
        | Ok ps => (with_pages self ps, Ok tt)
        end
    end
  else (self, Ok tt).

(** The loop of [reprocess_all_pages] over the originals from [idx] on. *)
Fixpoint reprocess_loop (self : PDFManager) (settings : Settings)
    (progress_callback : bool) (total idx : Z) (originals : list Image)
    (log : list Q) : PDFManager * list Q * result unit :=
  match originals with
  | [] => (self, log, Ok tt)
  | img :: rest =>
      match py_set (pages self) idx (process_image self img settings) with
      | Raise e => (self, log, Raise e)
      | Ok ps =>
          reprocess_loop (with_pages self ps) settings progress_callback total
                         (idx + 1) rest
                         (report progress_callback log (fraction idx total))
      end
  end.

Definition reprocess_all_pages (self : PDFManager) (settings : Settings)
    (progress_callback : bool) : PDFManager * list Q * result unit :=
  let total := len (original_pages self) in
  reprocess_loop self settings progress_callback total 0 (original_pages self) [].

(** The three inserts of [insert_blank_page] and [insert_text_page], in the
    order of the source: an exception in a later one leaves the earlier
    lists longer. *)
Definition insert_page (self : PDFManager) (index : Z) (img : Image)
  : PDFManager * result unit :=
  match py_insert (original_pages self) index (copy img) with
  | Raise e => (self, Raise e)
  | Ok os =>
      let self1 := mkManager os (pages self) (selected self) in
      match py_insert (pages self1) index img with
      | Raise e => (self1, Raise e)
      | Ok ps =>
          let self2 := with_pages self1 ps in
          match py_insert (selected self2) index true with
          | Raise e => (self2, Raise e)
          | Ok ss =>
              (mkManager (original_pages self2) (pages self2) ss, Ok tt)
          end
      end
  end.

Definition insert_blank_page (self : PDFManager) (index : Z)
  : PDFManager * result unit :=
  match pages self with
  | [] => (self, Ok tt)
  | first :: _ =>
      let blank := Blank (width first) (height first) in
      insert_page self index blank
  end.

Definition insert_text_page (self : PDFManager) (index : Z) (text : str)
  : PDFManager * result unit :=
  match pages self with
  | [] => (self, Ok tt)
  | first :: _ =>
      let img := Blank (width first) (height first) in
      let img := Text img 50 50 text in
      insert_page self index img
  end.

(** [for arr in [self.pages, self.original_pages, self.selected]: swap]: an
    IndexError in a later list leaves the earlier ones swapped. *)
Definition move_page (self : PDFManager) (index direction : Z)
  : PDFManager * result unit :=
  let new_index := index + direction in
  if (0 <=? index) && (index <? len (pages self))
     && (0 <=? new_index) && (new_index <? len (pages self))
  then
    match py_swap (pages self) index new_index with
    | Raise e => (self, Raise e)
    | Ok ps =>
        let self1 := with_pages self ps in
        match py_swap (original_pages self1) index new_index with
        | Raise e => (self1, Raise e)
        | Ok os =>
            let self2 := mkManager os (pages self1) (selected self1) in
            match py_swap (selected self2) index new_index with
            | Raise e => (self2, Raise e)
            | Ok ss =>
                (mkManager (original_pages self2) (pages self2) ss, Ok tt)
            end
        end
    end
  else (self, Ok tt).

(** A saved PDF: its page images in order.  The file system maps a path to
    the document stored there. *)
Abbreviation Pdf := (list Image).

(** The loop of [export_pdf] over the requested indices from position [i]. *)
Fixpoint export_loop (self : PDFManager) (progress_callback : bool)
    (total i : Z) (page_indices : list Z) (export_pages : list Image)
    (log : list Q) : list Q * result (list Image) :=
  match page_indices with
  | [] => (log, Ok export_pages)
  | idx :: rest =>
      match py_get (selected self) idx with
      | Raise e => (log, Raise e)
      | Ok keep =>
          let step :=
            if keep then
              (img <-! py_get (pages self) idx;
               Ok (export_pages ++ [convert_RGB img]))
            else Ok export_pages in
          match step with
          | Raise e => (log, Raise e)
          | Ok export_pages1 =>
              export_loop self progress_callback total (i + 1) rest
                          export_pages1
                          (report progress_callback log (fraction i total))
          end
      end
  end.

(** [pages[0].save(out_path, save_all=True, append_images=pages[1:])] *)
Definition save_pdf (fs : gmap string Pdf) (out_path : string)
    (first : Image) (append_images : list Image) : gmap string Pdf :=
  <[out_path := first :: append_images]> fs.

Definition export_pdf (self : PDFManager) (fs : gmap string Pdf)
    (out_path : string) (page_indices : list Z) (progress_callback : bool)
    (quality : Z) : gmap string Pdf * list Q * result unit :=
  let total := len page_indices in
  match export_loop self progress_callback total 0 page_indices [] [] with
  | (log, Raise e) => (fs, log, Raise e)
  | (log, Ok export_pages) =>
      match export_pages with
      | [] => (fs, log, Raise (Exception "No pages selected for export!"))
      | first :: others =>
          (* [pil_pages_for_pdf] is [export_pages] copied element by element *)
          (save_pdf fs out_path first others, log, Ok tt)
      end
  end.

(** [acc.extend(range(a, b))]: a range of more than [PY_SSIZE_T_MAX]
    integers has no length a list can take and raises OverflowError.  The
    list of a shorter range is built; that the machine has the memory to
    hold it is a resource this model does not count. *)
Definition extend_range (acc : list Z) (a b : Z) : result (list Z) :=
  if PY_SSIZE_T_MAX <? b - a then Raise OverflowError
  else Ok (acc ++ py_range a b).

(** The loop of [parse_ranges] over the comma-separated parts. *)
Fixpoint parse_parts (parts : list str) (acc : list Z) : result (list Z) :=
  match parts with
  | [] => Ok acc
  | part :: rest =>
      let part := strip part in
      match part with
      | [] => parse_parts rest acc
      | _ :: _ =>
          if contains "-"%char part then
            match split "-"%char part with
            | [start; stop] =>
                a <-! py_int start;
                b <-! py_int stop;
                acc1 <-! extend_range acc (a - 1) b;
                parse_parts rest acc1
            | _ => Raise ValueError
            end
          else
            (a <-! py_int part;
             parse_parts rest (acc ++ [a - 1]))
      end
  end.

Definition in_bounds (self : PDFManager) (i : Z) : bool :=
  (0 <=? i) && (i <? len (pages self)).

Definition blank (s : str) : bool :=
  match s with
  | [] => true
  | _ :: _ => match strip s with [] => true | _ :: _ => false end
  end.

Definition parse_ranges (self : PDFManager) (s : str) : result (list Z) :=
  if blank s then Ok (py_range 0 (len (pages self)))
  else
    (found <-! parse_parts (split ","%char s) [];
     Ok (List.filter (in_bounds self) found)).

(** ** Page editing from the window (PDF_converter_V6.py, lines 564-606) *)

Definition toggle_page_keep (self : PDFManager) (current_index : Z)
  : PDFManager * result unit :=
  match pages self with
  | [] => (self, Ok tt)
  | _ :: _ =>
      match py_get (selected self) current_index with
      | Raise e => (self, Raise e)
      | Ok b =>
          match py_set (selected self) current_index (negb b) with
          | Raise e => (self, Raise e)
          | Ok ss => (mkManager (original_pages self) (pages self) ss, Ok tt)
          end
      end
  end.

Definition revert_current_page (self : PDFManager) (current_index : Z)
  : PDFManager * result unit :=
  match pages self with
  | [] => (self, Ok tt)
  | _ :: _ =>
      match py_get (original_pages self) current_index with
      | Raise e => (self, Raise e)
      | Ok img =>
          match py_set (pages self) current_index (copy img) with
          | Raise e => (self, Raise e)
          | Ok ps => (with_pages self ps, Ok tt)
          end
      end
  end.

(** [for i in range(len(pages)): pages[i] = original_pages[i].copy()] *)
Fixpoint revert_loop (self : PDFManager) (indices : list Z)
  : PDFManager * result unit :=
  match indices with
  | [] => (self, Ok tt)
  | i :: rest =>
      match py_get (original_pages self) i with
      | Raise e => (self, Raise e)
      | Ok img =>
          match py_set (pages self) i (copy img) with
          | Raise e => (self, Raise e)
          | Ok ps => revert_loop (with_pages self ps) rest
          end
      end
  end.

Definition revert_all (self : PDFManager) : PDFManager * result unit :=
  match pages self with
  | [] => (self, Ok tt)
  | _ :: _ => revert_loop self (py_range 0 (len (pages self)))
  end.

(** A page-editing call, and a session of them.  An exception raised by one
    call is reported by the window's event loop and the session goes on. *)
Inductive EditOp : Type :=
| InsertBlank (index : Z)
| InsertText (index : Z) (text : str)
| Move (index direction : Z)
| RevertCurrent (index : Z)
| RevertAll.

Definition edit (self : PDFManager) (op : EditOp) : PDFManager :=
  match op with
  | InsertBlank index => fst (insert_blank_page self index)
  | InsertText index text => fst (insert_text_page self index text)
  | Move index direction => fst (move_page self index direction)
  | RevertCurrent index => fst (revert_current_page self index)
  | RevertAll => fst (revert_all self)
  end.

Definition edits (self : PDFManager) (ops : list EditOp) : PDFManager :=
  foldl edit self ops.

(** The three-collection invariant of section 3 of the specification. *)
Definition aligned (self : PDFManager) : Prop :=
  length (original_pages self) = length (pages self)
  /\ length (pages self) = length (selected self).

(** ** Compact layout (PDF_converter_V6.py, lines 200-209 and 834-1045) *)

Record LayoutOptions : Type := mkLayout {
  layout : string;
  paper : string;
  orientation : string;
  with_border : bool;
  outer_margin_mm : float;
  inner_margin_mm : float;
  reading_direction : string;
  quality : Z
}.

Record PDFConverterGUI : Type := mkGUI {
  manager : PDFManager;
  current_index : Z;
  layout_options : LayoutOptions
}.

Record Geometry : Type := mkGeometry {
  cols : Z;
  rows : Z;
  sheet_w : Z;
  sheet_h : Z;
  outer_px : Z;
  inner_px : Z;
  cell_w : Z;
  cell_h : Z
}.

Definition grid (layout : string) : Z * Z :=
  if String.eqb layout "2x2" then (2, 2)
  else if String.eqb layout "3x1" then (1, 3)
  else if String.eqb layout "3x2" then (2, 3)
  else (2, 2).

Definition landscape (lo : LayoutOptions) : bool :=
  String.eqb (orientation lo) "Landscape".

(** The sizes both composition paths compute before their loops. *)
Definition geometry (lo : LayoutOptions) : result Geometry :=
  let '(cols, rows) := grid (layout lo) in
  let dpi := DEFAULT_DPI in
  let '(w_mm, h_mm) := PAPER_SIZES_MM (paper lo) in
  let '(w_mm, h_mm) := if landscape lo then (h_mm, w_mm) else (w_mm, h_mm) in
  sheet_w <-! mm_to_px w_mm dpi;
  sheet_h <-! mm_to_px h_mm dpi;
  outer_px <-! mm_to_px (outer_margin_mm lo) dpi;
  inner_px <-! mm_to_px (inner_margin_mm lo) dpi;
  let usable_w := sheet_w - outer_px * 2 - inner_px * (cols - 1) in
  let usable_h := sheet_h - outer_px * 2 - inner_px * (rows - 1) in
  let cell_w := Z.max 50 (usable_w / cols) in
  let cell_h := Z.max 50 (usable_h / rows) in
  Ok (mkGeometry cols rows sheet_w sheet_h outer_px inner_px cell_w cell_h).

(** [math.ceil(total_pages / cells_per_sheet)], on page counts the float
    quotient represents exactly enough for its ceiling. *)
Definition sheet_count (total_pages cells_per_sheet : Z) : Z :=
  (total_pages + cells_per_sheet - 1) / cells_per_sheet.

(** Image objects by address.  [sheet_img.paste] and [draw.rectangle] change
    an object in place; [transpose] makes a new one. *)
Abbreviation Heap := (list Image).

Definition deref (heap : Heap) (addr : nat) : Image :=
  default (Blank 0 0) (heap !! addr).

(** The variables of a composition in progress. *)
Record Compose : Type := mkCompose {
  heap : Heap;
  sheet_img : nat;          (* the object [sheet_img] is bound to *)
  draw : nat;               (* the object [draw] was made for *)
  sheet_images : list nat;
  progress : list Q         (* the values given to [_set_progress], in order *)
}.

Section Composer.
(** The size [im.thumbnail(box, Image.LANCZOS)] gives an image of size
    [sz]; PIL computes it and the composition only reads it. *)
Variable thumbnail_size : Z * Z -> Z * Z -> Z * Z.

(** The body both cell loops share: position, thumbnail, paste, border. *)
Definition place_cell (g : Geometry) (left_to_right border : bool)
    (page : Image) (cell_idx : Z) (st : Compose) : Compose :=
  let '(r, c) :=
    if left_to_right then (cell_idx / cols g, cell_idx mod cols g)
    else (cell_idx mod rows g, cell_idx / rows g) in
  let x := outer_px g + c * (cell_w g + inner_px g) in
  let y := outer_px g + r * (cell_h g + inner_px g) in
  let '(tw, th) := thumbnail_size (size page) (cell_w g, cell_h g) in
  let img := Thumbnail (copy page) tw th in
  let paste_x := x + (cell_w g - width img) / 2 in
  let paste_y := y + (cell_h g - height img) / 2 in
  let heap1 :=
    alter (fun base => Paste base img paste_x paste_y) (sheet_img st) (heap st) in
  let heap2 :=
    if border
    then alter (fun base => Rectangle base x y (x + cell_w g - 1) (y + cell_h g - 1))
               (draw st) heap1
    else heap1 in
  mkCompose heap2 (sheet_img st) (draw st) (sheet_images st) (progress st).

(** [sheet_img = Image.new("RGB", (sheet_w, sheet_h), "white")] and
    [draw = ImageDraw.Draw(sheet_img)] *)
Definition new_sheet (g : Geometry) (st : Compose) : Compose :=
  let addr := length (heap st) in
  mkCompose (heap st ++ [Blank (sheet_w g) (sheet_h g)]) addr addr
            (sheet_images st) (progress st).

(** [sheet_img = sheet_img.transpose(Image.Transpose.ROTATE_270)] *)
Definition rotate_sheet (st : Compose) : Compose :=
  let addr := length (heap st) in
  mkCompose (heap st ++ [Rotate270 (deref (heap st) (sheet_img st))]) addr
            (draw st) (sheet_images st) (progress st).

(** [sheet_images.append(sheet_img)] *)
Definition append_sheet (st : Compose) : Compose :=
  mkCompose (heap st) (sheet_img st) (draw st)
            (sheet_images st ++ [sheet_img st]) (progress st).

Definition set_progress (v : Q) (st : Compose) : Compose :=
  mkCompose (heap st) (sheet_img st) (draw st) (sheet_images st)
            (progress st ++ [v]).

(** The images a list of addresses denotes once composition is over. *)
Definition images_of (st : Compose) : list Image :=
  map (deref (heap st)) (sheet_images st).

(** *** Export path: [_generate_compact_thread] *)

(** The cell loop of sheet [s], lines 884-910. *)
Fixpoint export_cells (self : PDFConverterGUI) (g : Geometry)
    (left_to_right border : bool) (total_pages cells_per_sheet s : Z)
    (cells : list Z) (st : Compose) : Compose * result unit :=
  match cells with
  | [] => (st, Ok tt)
  | cell_idx :: rest =>
      let page_idx := s * cells_per_sheet + cell_idx in
      if total_pages <=? page_idx then (st, Ok tt)
      else
        match py_get (pages (manager self)) page_idx with
        | Raise e => (st, Raise e)
        | Ok page =>
            let st1 := place_cell g left_to_right border page cell_idx st in
            let overall_idx := page_idx in
            let st2 := set_progress (fraction overall_idx total_pages) st1 in
            export_cells self g left_to_right border total_pages
                         cells_per_sheet s rest st2
        end
  end.

(** The sheet loop, lines 878-916. *)
Fixpoint export_sheets (self : PDFConverterGUI) (g : Geometry)
    (left_to_right border : bool) (total_pages cells_per_sheet : Z)
    (sheets : list Z) (st : Compose) : Compose * result unit :=
  match sheets with
  | [] => (st, Ok tt)
  | s :: rest =>
      let st1 := new_sheet g st in
      match export_cells self g left_to_right border total_pages
                         cells_per_sheet s (py_range 0 cells_per_sheet) st1 with
      | (st2, Raise e) => (st2, Raise e)
      | (st2, Ok _) =>
          let st3 :=
            if landscape (layout_options self) then rotate_sheet st2 else st2 in
          export_sheets self g left_to_right border total_pages
                        cells_per_sheet rest (append_sheet st3)
      end
  end.

(** The sheets the export path composes, lines 836-916. *)
Definition compose_export (self : PDFConverterGUI) (st : Compose)
  : Compose * result unit :=
  let lo := layout_options self in
  match geometry lo with
  | Raise e => (st, Raise e)
  | Ok g =>
      let left_to_right := String.eqb (reading_direction lo) "Left to Right" in
      let border := with_border lo in
      let total_pages := len (pages (manager self)) in
      let cells_per_sheet := cols g * rows g in
      let sheets := sheet_count total_pages cells_per_sheet in
      export_sheets self g left_to_right border total_pages cells_per_sheet
                    (py_range 0 sheets) st
  end.

(** The JPEG pass over the composed sheets, lines 920-930. *)
Fixpoint prepare_sheets (quality n idx : Z) (sheets : list Image)
    (pil_pages_for_pdf : list Image) (log : list Q) : list Image * list Q :=
  match sheets with
  | [] => (pil_pages_for_pdf, log)
  | sheet :: rest =>
      prepare_sheets quality n (idx + 1) rest
                     (pil_pages_for_pdf ++ [Jpeg sheet quality])
                     (log ++ [(fraction idx n * (9 # 10))%Q])
  end.

(** [_generate_compact_thread]: the file system afterwards, the progress
    values in program order, and the exception the handler caught, if any.
    The return to 0 ("Ready") that [root.after] schedules for 400 ms after a
    save shows the idle window and is not a value of the generation. *)
Definition _generate_compact_thread (self : PDFConverterGUI)
    (fs : gmap string Pdf) (out_path : string)
  : gmap string Pdf * list Q * option exn :=
  let st0 := mkCompose [] 0 0 [] [0%Q] in
  match compose_export self st0 with
  | (st, Raise e) => (fs, progress st ++ [0%Q], Some e)
  | (st, Ok _) =>
      let sheets := images_of st in
      let '(pil_pages_for_pdf, log) :=
        prepare_sheets (quality (layout_options self)) (len sheets) 0 sheets []
                       (progress st) in
      match pil_pages_for_pdf with
      | [] => (fs, log ++ [0%Q], Some (Exception "Nothing to save for compact PDF"))
      | first :: others =>
          (save_pdf fs out_path first others, log ++ [1%Q], None)
      end
  end.

(** *** Preview path: [_compose_sheets_preview] *)

(** The cell loop, lines 1012-1042: the turn and the append are inside it. *)
Fixpoint preview_cells (self : PDFConverterGUI) (g : Geometry)
    (left_to_right border : bool) (total_pages cells_per_sheet s : Z)
    (cells : list Z) (st : Compose) : Compose * result unit :=
  match cells with
  | [] => (st, Ok tt)
  | cell_idx :: rest =>
      let page_idx := s * cells_per_sheet + cell_idx in
      if total_pages <=? page_idx then (st, Ok tt)
      else
        match py_get (pages (manager self)) page_idx with
        | Raise e => (st, Raise e)
        | Ok page =>
            let st1 := place_cell g left_to_right border page cell_idx st in
            let st2 :=
              if landscape (layout_options self) then rotate_sheet st1 else st1 in
            preview_cells self g left_to_right border total_pages
                          cells_per_sheet s rest (append_sheet st2)
        end
  end.

(** [_compose_sheets_preview]: [None] when the sheet loop has nothing to do
    and the function falls off its end; otherwise the list returned from
    inside the first pass of the sheet loop (line 1045). *)
Definition _compose_sheets_preview (self : PDFConverterGUI) (count : Z)
  : result (option (list Image)) :=
  let lo := layout_options self in
  g <-! geometry lo;
  let left_to_right := String.eqb (reading_direction lo) "Left to Right" in
  let border := with_border lo in
  let total_pages := len (pages (manager self)) in
  let cells_per_sheet := cols g * rows g in
  let sheets := sheet_count total_pages cells_per_sheet in
  let st0 := mkCompose [] 0 0 [] [] in
  match py_range 0 (Z.min sheets count) with
  | [] => Ok None
  | s :: _ =>
      let st1 := new_sheet g st0 in
      match preview_cells self g left_to_right border total_pages
                          cells_per_sheet s (py_range 0 cells_per_sheet) st1 with
      | (_, Raise e) => Raise e
      | (st2, Ok _) => Ok (Some (images_of st2))
      end
  end.

(** The sheets of the export path as images, for comparison with the
    preview. *)
Definition export_sheet_images (self : PDFConverterGUI) : result (list Image) :=
  match compose_export self (mkCompose [] 0 0 [] []) with
  | (_, Raise e) => Raise e
  | (st, Ok _) => Ok (images_of st)
  end.
End Composer.

(** ** PDF_converter_V4.py: the functions that differ (lines 35-100) *)

Module V4.

(** [settings[key]] *)
Definition item {A : Type} (key : string) (o : option A) : result A :=
  of_option (KeyError key) o.

Definition process_image (self : PDFManager) (img : Image) (settings : Settings)
  : result Image :=
  let inverted := Invert img in
  g <-! item "grayscale" (grayscale settings);
  let processed := if g then Luminance inverted else inverted in
  c <-! item "contrast" (contrast settings);
  let processed := Contrast processed c in
  b <-! item "brightness" (brightness settings);
  let processed := Brightness processed b in
  s <-! item "sharpness" (sharpness settings);
  let processed := Sharpness processed s in
  Ok processed.

(** No guard for an empty document: [self.pages[0]] raises. *)
Definition insert_blank_page (self : PDFManager) (index : Z)
  : PDFManager * result unit :=
  match py_get (pages self) 0 with
  | Raise e => (self, Raise e)
  | Ok first =>
      let blank := Blank (width first) (height first) in
      insert_page self index blank
  end.

Definition insert_text_page (self : PDFManager) (index : Z) (text : str)
  : PDFManager * result unit :=
  match py_get (pages self) 0 with
  | Raise e => (self, Raise e)
  | Ok first =>
      let img := Blank (width first) (height first) in
      let img := Text img 50 50 text in
      insert_page self index img
  end.

(** The loop of [parse_ranges]: parts are not stripped, none is skipped. *)
Fixpoint parse_parts (parts : list str) (acc : list Z) : result (list Z) :=
  match parts with
  | [] => Ok acc
  | part :: rest =>
      if contains "-"%char part then
        match split "-"%char part with
        | [start; stop] =>
            a <-! py_int start;
            b <-! py_int stop;
            acc1 <-! extend_range acc (a - 1) b;
            parse_parts rest acc1
        | _ => Raise ValueError
        end
      else
        (a <-! py_int part;
         parse_parts rest (acc ++ [a - 1]))
  end.

(** No blank case and no bounds filter. *)
Definition parse_ranges (self : PDFManager) (s : str) : result (list Z) :=
  parse_parts (split ","%char s) [].

Fixpoint export_loop (self : PDFManager) (progress_callback : bool)
    (total i : Z) (indices : list Z) (export_pages : list Image)
    (log : list Q) : list Q * result (list Image) :=
  match indices with
  | [] => (log, Ok export_pages)
  | idx :: rest =>
      match py_get (selected self) idx with
      | Raise e => (log, Raise e)
      | Ok keep =>
          let step :=
            if keep then
              (img <-! py_get (pages self) idx;
               Ok (export_pages ++ [img]))
            else Ok export_pages in
          match step with
          | Raise e => (log, Raise e)
          | Ok export_pages1 =>
              export_loop self progress_callback total (i + 1) rest
                          export_pages1
                          (report progress_callback log (fraction i total))
          end
      end
  end.

(** [page_range] is [None] or a string; the empty string counts as absent. *)
Definition export_pdf (self : PDFManager) (fs : gmap string Pdf)
    (out_path : string) (settings : Settings) (page_range : option str)
    (progress_callback : bool) : gmap string Pdf * list Q * result unit :=
  let indices :=
    match page_range with
    | Some (c :: s) => parse_ranges self (c :: s)
    | _ => Ok (py_range 0 (len (pages self)))
    end in
  match indices with
  | Raise e => (fs, [], Raise e)
  | Ok indices =>
      let total := len indices in
      match export_loop self progress_callback total 0 indices [] [] with
      | (log, Raise e) => (fs, log, Raise e)
      | (log, Ok export_pages) =>
          match export_pages with
          | [] => (fs, log, Raise (Exception "No pages selected for export!"))
          | first :: others =>
              (save_pdf fs out_path first others, log, Ok tt)
          end
      end
  end.

End V4.

(** ** Notions the statements use *)

(** The exact value [m * 2^e] of a positive finite float. *)
Definition SF_value (m : positive) (e : Z) : Q :=
  if 0 <=? e then inject_Z (Z.pos m * 2 ^ e)
  else Qmake (Z.pos m) (Z.to_pos (2 ^ (- e))).

(** A sequence of progress values that never decreases. *)
Fixpoint nondecreasing (l : list Q) : Prop :=
  match l with
  | a :: tl =>
      match tl with
      | b :: _ => (a <= b)%Q /\ nondecreasing tl
      | [] => True
      end
  | [] => True
  end.

Definition in_unit (v : Q) : Prop := (0 <= v)%Q /\ (v <= 1)%Q.

(** The fractions [(i + 1) / total] for [n] consecutive [i] from [a]. *)
Definition fractions (total a : Z) (n : nat) : list Q :=
  map (fun i => fraction i total) (count_from a n).

(** The pages a list of requested indices qualifies for export, as the loop
    of [export_pdf] collects them. *)
Definition qualifying (self : PDFManager) (page_indices : list Z) : list Image :=
  flat_map
    (fun idx =>
       match py_get (selected self) idx, py_get (pages self) idx with
       | Ok true, Ok img => [convert_RGB img]
       | _, _ => []
       end)
    page_indices.

(** Every requested index denotes a page of the document. *)
Definition valid_indices (self : PDFManager) (page_indices : list Z) : Prop :=
  Forall (fun idx => - len (pages self) <= idx < len (pages self)) page_indices.

(** [selected[idx]] is true. *)
Definition is_selected (self : PDFManager) (idx : Z) : bool :=
  match py_get (selected self) idx with
  | Ok b => b
  | Raise _ => false
  end.

(** [pages[idx]] *)
Definition page_at (self : PDFManager) (idx : Z) : Image :=
  match py_get (pages self) idx with
  | Ok img => img
  | Raise _ => Blank 0 0
  end.

(** A landscape sheet as the composer's comments want it: turned once, and
    nothing placed on it after the turn. *)
Definition turned_once (im : Image) : Prop :=
  rotations im = 1%nat /\ rotated_last im = true.

(** Every sheet appended so far is in the store and was turned once. *)
Definition sheets_turned_once (st : Compose) : Prop :=
  Forall (fun addr => (addr < length (heap st))%nat
                      /\ turned_once (deref (heap st) addr))
         (sheet_images st).

(** [Image.frombytes("RGB", [pix.width, pix.height], pix.samples)] *)
Definition raster (pix : Pixmap) : Image :=
  Raster (pix_width pix) (pix_height pix) (pix_samples pix).

(** [math.floor(x)] and [math.ceil(x)] for a finite float. *)
Definition ceil_mag (m : positive) (e : Z) : Z :=
  if 0 <=? e then Z.pos m * 2 ^ e else - ((- Z.pos m) / 2 ^ (- e)).

Definition py_floor (x : float) : Z :=
  match Prim2SF x with
  | S754_finite s m e => if s then - ceil_mag m e else trunc_mag m e
  | _ => 0
  end.

Definition py_ceil (x : float) : Z :=
  match Prim2SF x with
  | S754_finite s m e => if s then - trunc_mag m e else ceil_mag m e
  | _ => 0
  end.

(** [a / b] for two ints below 2^53: the float nearest to the quotient. *)
Definition true_div (a b : Z) : float :=
  (float_of_int a / float_of_int b)%float.

(** [round_aspect] of [Image.thumbnail]:
    [max(min(math.floor(number), math.ceil(number), key=key), 1)]; [min]
    keeps its first argument unless the second has a smaller key. *)
Definition round_aspect (number : float) (key : Z -> float) : Z :=
  let lo := py_floor number in
  let hi := py_ceil number in
  Z.max (if PrimFloat.ltb (key hi) (key lo) then hi else lo) 1.

(** The size [Image.thumbnail((x, y))] gives an image of size [(w, h)]: an
    image that fits the box is left alone; a larger one keeps the side of
    the box that binds, and gets for the other side the floor or the ceiling
    of the exact value, whichever keeps the aspect closer.  Sizes are
    positive: a page is a rendered pixmap or a blank of the size of one, and
    a cell is at least 10 pixels wide and high. *)
Definition fit_within (sz box : Z * Z) : Z * Z :=
  let '(w, h) := sz in
  let '(x, y) := box in
  if (w <=? x) && (h <=? y) then (w, h)
  else
    let aspect := true_div w h in
    if PrimFloat.leb aspect (true_div x y)
    then (round_aspect (float_of_int y * aspect)%float
            (fun n => abs (aspect - true_div n y)%float), y)
    else (x, round_aspect (float_of_int x / aspect)%float
               (fun n => if n =? 0 then 0%float
                         else abs (aspect - true_div x n)%float)).

Definition py (s : string) : str := list_ascii_of_string s.

Definition dark_page : Image := Raster 2 1 [(0, 0, 0); (10, 20, 30)].
Definition light_page : Image := Raster 2 1 [(255, 255, 255); (200, 100, 0)].

Definition default_settings : Settings :=
  mkSettings (Some 1.2%float) (Some 1.0%float) (Some 1.0%float) (Some true).

Definition two_pages : PDFManager :=
  mkManager [dark_page; light_page] [dark_page; light_page] [true; true].

Definition one_page : PDFManager := mkManager [dark_page] [dark_page] [true].

Definition second_deselected : PDFManager :=
  mkManager [dark_page; light_page] [dark_page; light_page] [true; false].

Definition five_pages : PDFManager :=
  mkManager (replicate 5 dark_page) (replicate 5 dark_page) (replicate 5 true).

Definition ten_pages : PDFManager :=
  mkManager (replicate 10 dark_page) (replicate 10 dark_page) (replicate 10 true).

Definition landscape_2x2 : LayoutOptions :=
  mkLayout "2x2" "A4" "Landscape" false 5.0%float 2.0%float "Left to Right" 85.

Definition portrait_2x2 : LayoutOptions :=
  mkLayout "2x2" "A4" "Portrait" false 5.0%float 2.0%float "Left to Right" 85.

Definition landscape_window : PDFConverterGUI := mkGUI two_pages 0 landscape_2x2.
Definition portrait_window : PDFConverterGUI := mkGUI two_pages 0 portrait_2x2.

(** ** The window's page controls (PDF_converter_V6.py, lines 519-606) *)

Module Gui.

Definition with_manager (self : PDFConverterGUI) (m : PDFManager)
  : PDFConverterGUI :=
  mkGUI m (current_index self) (layout_options self).

(** [update_previews], lines 519-530: the two pages it reads; the canvas
    work is done on copies. *)
Definition update_previews (self : PDFConverterGUI) : result unit :=
  match pages (manager self) with
  | [] => Ok tt
  | _ :: _ =>
      orig <-! py_get (original_pages (manager self)) (current_index self);
      proc <-! py_get (pages (manager self)) (current_index self);
      Ok tt
  end.

(** A manager call followed by [self.update_previews()]; the preview is not
    refreshed when the call raises. *)
Definition refresh (self : PDFConverterGUI) (r : PDFManager * result unit)
  : PDFConverterGUI * result unit :=
  match r with
  | (m, Ok _) => (with_manager self m, update_previews (with_manager self m))
  | (m, Raise e) => (with_manager self m, Raise e)
  end.

Definition change_page (self : PDFConverterGUI) (delta : Z)
  : PDFConverterGUI * result unit :=
  match pages (manager self) with
  | [] => (self, Ok tt)
  | _ :: _ =>
      let self1 :=
        mkGUI (manager self)
              ((current_index self + delta) mod len (pages (manager self)))
              (layout_options self) in
      (self1, update_previews self1)
  end.

Definition toggle_page_keep (self : PDFConverterGUI)
  : PDFConverterGUI * result unit :=
  match pages (manager self) with
  | [] => (self, Ok tt)
  | _ :: _ => refresh self (toggle_page_keep (manager self) (current_index self))
  end.

Definition insert_blank (self : PDFConverterGUI)
  : PDFConverterGUI * result unit :=
  match pages (manager self) with
  | [] => (self, Ok tt)
  | _ :: _ =>
      refresh self (insert_blank_page (manager self) (current_index self + 1))
  end.

(** [text] is what the dialog returned: [None] when it was cancelled. *)
Definition insert_text (self : PDFConverterGUI) (text : option str)
  : PDFConverterGUI * result unit :=
  match pages (manager self) with
  | [] => (self, Ok tt)
  | _ :: _ =>
      match text with
      | Some (c :: t) =>
          refresh self
            (insert_text_page (manager self) (current_index self + 1) (c :: t))
      | _ => (self, Ok tt)
      end
  end.

Definition move_page (self : PDFConverterGUI) (direction : Z)
  : PDFConverterGUI * result unit :=
  match pages (manager self) with
  | [] => (self, Ok tt)
  | _ :: _ => refresh self (move_page (manager self) (current_index self) direction)
  end.

Definition revert_current_page (self : PDFConverterGUI)
  : PDFConverterGUI * result unit :=
  match pages (manager self) with
  | [] => (self, Ok tt)
  | _ :: _ => refresh self (revert_current_page (manager self) (current_index self))
  end.

Definition revert_all (self : PDFConverterGUI)
  : PDFConverterGUI * result unit :=
  match pages (manager self) with
  | [] => (self, Ok tt)
  | _ :: _ => refresh self (revert_all (manager self))
  end.

(** [settings] is [self.get_settings()], the sliders' values. *)
Definition update_live_preview (self : PDFConverterGUI) (settings : Settings)
  : PDFConverterGUI * result unit :=
  match pages (manager self) with
  | [] => (self, Ok tt)
  | _ :: _ =>
      refresh self
        (reprocess_current_page (manager self) (current_index self) settings)
  end.

(** What the user can do to the loaded document from the window. *)
Inductive Action : Type :=
| ChangePage (delta : Z)
| ToggleKeep
| InsertBlank
| InsertText (text : option str)
| MovePage (direction : Z)
| RevertCurrent
| RevertAll
| LivePreview (settings : Settings).

Definition act (self : PDFConverterGUI) (a : Action)
  : PDFConverterGUI * result unit :=
  match a with
  | ChangePage delta => change_page self delta
  | ToggleKeep => toggle_page_keep self
  | InsertBlank => insert_blank self
  | InsertText text => insert_text self text
  | MovePage direction => move_page self direction
  | RevertCurrent => revert_current_page self
  | RevertAll => revert_all self
  | LivePreview settings => update_live_preview self settings
  end.

(** The page shown exists. *)
Definition in_view (self : PDFConverterGUI) : Prop :=
  pages (manager self) = []
  \/ 0 <= current_index self < len (pages (manager self)).

End Gui.

(** Original and processed page have one size at every index. *)
Definition same_sizes (self : PDFManager) : Prop :=
  Forall2 (fun o p => size o = size p) (original_pages self) (pages self).

(** The document after the three inserts of one page. *)
Definition inserted (self : PDFManager) (index : Z) (img : Image)
  : PDFManager :=
  mkManager (ins1 (original_pages self) index (copy img))
            (ins1 (pages self) index img)
            (ins1 (selected self) index true).

(** The position [l.insert(i, x)] puts [x] at. *)
Definition insert_pos {A : Type} (l : list A) (i : Z) : nat :=
  Z.to_nat (if i <? 0 then Z.max 0 (len l + i) else Z.min i (len l)).

(** [l] with the elements at positions [a] and [b] exchanged. *)
Definition swapped {A : Type} (l : list A) (a b : nat) : list A :=
  match l !! a, l !! b with
  | Some x, Some y => <[b := x]> (<[a := y]> l)
  | _, _ => l
  end.

(** The window after a run of actions. *)
Definition session (self : PDFConverterGUI) (actions : list Gui.Action)
  : PDFConverterGUI :=
  foldl (fun s a => fst (Gui.act s a)) self actions.

(** ** Export and batch conversion from the window
       (PDF_converter_V6.py, lines 479-505 and 723-741) *)

(** An ASCII letter. *)
Definition is_letter (c : ascii) : bool :=
  let n := code c in
  ((65 <=? n) && (n <=? 90)) || ((97 <=? n) && (n <=? 122)).

(** Some character of [s] is not whitespace. *)
Definition has_ink (s : str) : bool := existsb (fun c => negb (is_space c)) s.

(** [s.startswith(old)] *)
Fixpoint startswith (old s : str) : bool :=
  match old, s with
  | [], _ => true
  | _ :: _, [] => false
  | a :: old', c :: s' => Ascii.eqb a c && startswith old' s'
  end.

(** [s.replace(old, new)] for a non-empty [old]: the occurrences are found
    from the left and do not overlap; [skip] characters of a match just
    replaced are still to be passed over. *)
Fixpoint replace_from (old new : str) (skip : nat) (s : str) : str :=
  match s with
  | [] => []
  | c :: s' =>
      match skip with
      | S k => replace_from old new k s'
      | O =>
          if startswith old (c :: s')
          then new ++ replace_from old new (length old - 1) s'
          else c :: replace_from old new 0 s'
      end
  end.

Definition replace (old new s : str) : str := replace_from old new 0 s.

(** [_export_thread], lines 494-505: the file system afterwards, the values
    given to [_set_progress] in program order, and the exception the handler
    caught, if any. *)
Definition _export_thread (self : PDFConverterGUI) (fs : gmap string (list Image))
    (out_path : string) (page_indices : list Z) (quality : Z)
  : gmap string (list Image) * list Q * option exn :=
  match export_pdf (manager self) fs out_path page_indices true quality with
  | (fs1, log, Ok _) => (fs1, [0%Q] ++ log ++ [1%Q], None)
  | (fs1, log, Raise e) => (fs1, [0%Q] ++ log ++ [0%Q], Some e)
  end.

(** [PDFConverterGUI.export_pdf], lines 737-741, once the file dialog has
    given [out]: the range text is parsed in the caller, so a malformed
    range raises there and no thread is started. *)
Definition gui_export_pdf (self : PDFConverterGUI) (fs : gmap string (list Image))
    (out : string) (page_range_text : str)
  : result (gmap string (list Image) * list Q * option exn) :=
  match pages (manager self) with
  | [] => Ok (fs, [], None)
  | _ :: _ =>
      page_indices <-!
        match page_range_text with
        | [] => Ok (py_range 0 (len (pages (manager self))))
        | _ :: _ => parse_ranges (manager self) page_range_text
        end;
      let quality := 85 in
      Ok (_export_thread self fs out page_indices quality)
  end.

(** The output path of the batch for [path]:
    [path.replace(".pdf", "_converted.pdf")]. *)
Definition converted_path (path : str) : string :=
  string_of_list_ascii (replace (py ".pdf") (py "_converted.pdf") path).

(** [old] occurs in [s] at no position. *)
Definition absent (old s : str) : Prop :=
  forall k : nat, startswith old (drop k s) = false.

(** ** The sheets of the compact PDF, described without the object store *)

Section Sheets.
Variable thumbnail_size : Z * Z -> Z * Z -> Z * Z.

(** What one pass of the cell loop leaves on the sheet [base]. *)
Definition draw_cell (g : Geometry) (left_to_right border : bool)
    (page : Image) (cell_idx : Z) (base : Image) : Image :=
  let '(r, c) :=
    if left_to_right then (cell_idx / cols g, cell_idx mod cols g)
    else (cell_idx mod rows g, cell_idx / rows g) in
  let x := outer_px g + c * (cell_w g + inner_px g) in
  let y := outer_px g + r * (cell_h g + inner_px g) in
  let '(tw, th) := thumbnail_size (size page) (cell_w g, cell_h g) in
  let img := Thumbnail (copy page) tw th in
  let paste_x := x + (cell_w g - width img) / 2 in
  let paste_y := y + (cell_h g - height img) / 2 in
  let pasted := Paste base img paste_x paste_y in
  if border
  then Rectangle pasted x y (x + cell_w g - 1) (y + cell_h g - 1)
  else pasted.

(** The pages [on_sheet] drawn into the cells from [cell_idx] on. *)
Fixpoint draw_cells (g : Geometry) (left_to_right border : bool)
    (cell_idx : Z) (on_sheet : list Image) (base : Image) : Image :=
  match on_sheet with
  | [] => base
  | page :: rest =>
      draw_cells g left_to_right border (cell_idx + 1) rest
                 (draw_cell g left_to_right border page cell_idx base)
  end.

(** The pages that go on sheet [s]. *)
Definition on_sheet (self : PDFConverterGUI) (g : Geometry) (s : Z)
  : list Image :=
  let cells_per_sheet := cols g * rows g in
  take (Z.to_nat cells_per_sheet)
       (drop (Z.to_nat (s * cells_per_sheet)) (pages (manager self))).

(** Sheet [s] before the turn. *)
Definition filled_sheet (self : PDFConverterGUI) (g : Geometry) (s : Z)
  : Image :=
  let lo := layout_options self in
  draw_cells g (String.eqb (reading_direction lo) "Left to Right")
             (with_border lo) 0 (on_sheet self g s)
             (Blank (sheet_w g) (sheet_h g)).

Definition compact_sheet (self : PDFConverterGUI) (g : Geometry) (s : Z)
  : Image :=
  if landscape (layout_options self)
  then Rotate270 (filled_sheet self g s)
  else filled_sheet self g s.

Definition compact_sheets (self : PDFConverterGUI) (g : Geometry)
  : list Image :=
  map (compact_sheet self g)
      (py_range 0 (sheet_count (len (pages (manager self)))
                               (cols g * rows g))).
End Sheets.

(** The window with other keep flags. *)
Definition with_selected (self : PDFConverterGUI) (flags : list bool)
  : PDFConverterGUI :=
  mkGUI (mkManager (original_pages (manager self)) (pages (manager self)) flags)
        (current_index self) (layout_options self).

(** ** The size estimator (PDF_converter_V6.py, lines 746-814) *)

(** The grid of [_make_cell_image_for_estimate]: an unknown layout counts as
    one cell. *)
Definition estimate_grid (layout : string) : Z * Z :=
  if String.eqb layout "2x2" then (2, 2)
  else if String.eqb layout "3x1" then (1, 3)
  else if String.eqb layout "3x2" then (2, 3)
  else (1, 1).

(** The box [_make_cell_image_for_estimate] shrinks a page into, lines
    784-811. *)
Definition estimate_cell_box (lo : LayoutOptions) : result (Z * Z) :=
  let dpi := DEFAULT_DPI in
  let '(w_mm, h_mm) := PAPER_SIZES_MM (paper lo) in
  let '(w_mm, h_mm) := if landscape lo then (h_mm, w_mm) else (w_mm, h_mm) in
  let '(cols, rows) := estimate_grid (layout lo) in
  let outer_mm := outer_margin_mm lo in
  let inner_mm := inner_margin_mm lo in
  sheet_w <-! mm_to_px w_mm dpi;
  sheet_h <-! mm_to_px h_mm dpi;
  outer_w <-! mm_to_px (outer_mm * float_of_int 2)%float dpi;
  inner_w <-! mm_to_px (inner_mm * float_of_int (cols - 1))%float dpi;
  let usable_w := sheet_w - outer_w - inner_w in
  outer_h <-! mm_to_px (outer_mm * float_of_int 2)%float dpi;
  inner_h <-! mm_to_px (inner_mm * float_of_int (rows - 1))%float dpi;
  let usable_h := sheet_h - outer_h - inner_h in
  let cell_w := Z.max 10 (usable_w / cols) in
  let cell_h := Z.max 10 (usable_h / rows) in
  Ok (cell_w, cell_h).

(** [_make_cell_image_for_estimate] *)
Definition _make_cell_image_for_estimate
    (thumbnail_size : Z * Z -> Z * Z -> Z * Z) (self : PDFConverterGUI)
    (img : Image) : result Image :=
  box <-! estimate_cell_box (layout_options self);
  let '(tw, th) := thumbnail_size (size img) box in
  Ok (Thumbnail (copy img) tw th).

(** The sample indices of [estimate_compact_size], lines 753-755:
    [math.floor(i * total_pages / count)], on page counts the floor of the
    exact quotient. *)
Definition estimate_indices (total_pages : Z) : list Z :=
  let count := Z.min ESTIMATE_SAMPLE_COUNT total_pages in
  map (fun i => i * total_pages / count) (py_range 0 count).

(** The loop of [estimate_compact_size], lines 759-768: the cells whose
    JPEG size is measured. *)
Fixpoint estimate_cells (thumbnail_size : Z * Z -> Z * Z -> Z * Z)
    (self : PDFConverterGUI) (q : Z) (indices : list Z) (cells : list Image)
  : result (list Image) :=
  match indices with
  | [] => Ok cells
  | idx :: rest =>
      img <-! py_get (pages (manager self)) idx;
      cell <-! _make_cell_image_for_estimate thumbnail_size self img;
      estimate_cells thumbnail_size self q rest (cells ++ [Jpeg cell q])
  end.

(** [estimate_compact_size] up to the measured cells: [None] when no page is
    loaded. *)
Definition estimate_samples (thumbnail_size : Z * Z -> Z * Z -> Z * Z)
    (self : PDFConverterGUI) : result (option (list Image)) :=
  match pages (manager self) with
  | [] => Ok None
  | _ :: _ =>
      let total_pages := len (pages (manager self)) in
      cells <-! estimate_cells thumbnail_size self
                  (quality (layout_options self))
                  (estimate_indices total_pages) [];
      Ok (Some cells)
  end.

(** ** The options the layout panel offers (lines 376-403) *)

Definition offered_layouts : list string := ["2x2"; "3x1"; "3x2"]%string.
Definition offered_papers : list string := ["A4"; "Letter"]%string.
Definition offered_orientations : list string :=
  ["Portrait"; "Landscape"]%string.

(** The margin scales run over the whole millimeters 0 .. 30 and 0 .. 20. *)
Definition offered (lo : LayoutOptions) : Prop :=
  In (layout lo) offered_layouts
  /\ In (paper lo) offered_papers
  /\ In (orientation lo) offered_orientations
  /\ (exists i, 0 <= i <= 30 /\ outer_margin_mm lo = float_of_int i)
  /\ (exists j, 0 <= j <= 20 /\ inner_margin_mm lo = float_of_int j).

(** The pixels of an outer margin of [i] whole millimeters, converted once
    and converted doubled: at most 236, and the doubled one is twice the
    single one or one more. *)
Definition outer_ok (i : Z) : bool :=
  match mm_to_px (float_of_int i) DEFAULT_DPI,
        mm_to_px (float_of_int i * float_of_int 2)%float DEFAULT_DPI with
  | Ok v, Ok v2 =>
      (0 <=? v) && (v <=? 236) && (2 * v <=? v2) && (v2 <=? 2 * v + 1)
  | _, _ => false
  end.

(** The pixels of an inner margin of [j] whole millimeters, converted once
    and converted after multiplication by 0, 1 and 2. *)
Definition inner_ok (j : Z) : bool :=
  match mm_to_px (float_of_int j) DEFAULT_DPI,
        mm_to_px (float_of_int j * float_of_int 0)%float DEFAULT_DPI,
        mm_to_px (float_of_int j * float_of_int 1)%float DEFAULT_DPI,
        mm_to_px (float_of_int j * float_of_int 2)%float DEFAULT_DPI with
  | Ok v, Ok v0, Ok v1, Ok v2 =>
      (0 <=? v) && (v <=? 157) && (v0 =? 0) && (v1 =? v)
      && (2 * v <=? v2) && (v2 <=? 2 * v + 1)
  | _, _, _, _ => false
  end.

(** The rectangle of cell [cell_idx] in sheet coordinates, as [place_cell]
    computes it: left, top, right, bottom. *)
Definition cell_box (g : Geometry) (left_to_right : bool) (cell_idx : Z)
  : Z * Z * Z * Z :=
  let '(r, c) :=
    if left_to_right then (cell_idx / cols g, cell_idx mod cols g)
    else (cell_idx mod rows g, cell_idx / rows g) in
  let x := outer_px g + c * (cell_w g + inner_px g) in
  let y := outer_px g + r * (cell_h g + inner_px g) in
  (x, y, x + cell_w g - 1, y + cell_h g - 1).

(** ** Loading page by page (PDF_converter_V6.py, lines 59-73 and 456-469) *)

(** The loop of [load_pdf] over pages that may fail to render: when
    [p.get_pixmap] raises, the loop is left with what it has appended. *)
Fixpoint load_pages_loop (self : PDFManager) (settings : Settings)
    (progress_callback : bool) (total idx : Z) (doc : list (result Pixmap))
    (log : list Q) : PDFManager * list Q * result unit :=
  match doc with
  | [] => (self, log, Ok tt)
  | Raise e :: _ => (self, log, Raise e)
  | Ok pix :: rest =>
      let img := Raster (pix_width pix) (pix_height pix) (pix_samples pix) in
      let self1 :=
        mkManager (original_pages self ++ [img])
                  (pages self ++ [process_image self img settings])
                  (selected self) in
      load_pages_loop self1 settings progress_callback total (idx + 1) rest
                      (report progress_callback log (fraction idx total))
  end.

(** [load_pdf] with its failures: [opened] is what [fitz.open] gives, a
    document whose pages render or raise.  [selected] is assigned after the
    loop only. *)
Definition load_pdf_pages (self : PDFManager)
    (opened : result (list (result Pixmap))) (settings : Settings)
    (progress_callback : bool) : PDFManager * list Q * result unit :=
  match opened with
  | Raise e => (self, [], Raise e)
  | Ok doc =>
      let self0 := mkManager [] [] (selected self) in
      match load_pages_loop self0 settings progress_callback (len doc) 0 doc []
      with
      | (self1, log, Raise e) => (self1, log, Raise e)
      | (self1, log, Ok _) =>
          (mkManager (original_pages self1) (pages self1)
                     (replicate (length (pages self1)) true), log, Ok tt)
      end
  end.

(** [_load_pdf_thread], lines 456-469: the window afterwards, the values
    given to [_set_progress] in program order, and the exception the handler
    caught, if any.  [current_index] is reset after a load that went
    through. *)
Definition _load_pdf_thread (self : PDFConverterGUI)
    (opened : result (list (result Pixmap))) (settings : Settings)
  : PDFConverterGUI * list Q * option exn :=
  match load_pdf_pages (manager self) opened settings true with
  | (m, log, Ok _) =>
      (mkGUI m 0 (layout_options self), [0%Q] ++ log ++ [1%Q], None)
  | (m, log, Raise e) =>
      (mkGUI m (current_index self) (layout_options self),
       [0%Q] ++ log ++ [0%Q], Some e)
  end.

(** ** The batch conversion (PDF_converter_V6.py, lines 479-492) *)

(** The loop of [_batch_thread], lines 481-486, over the PDF files [fs].
    [fitz_open fs path] is what [fitz.open(path)] and [get_pixmap] on its
    pages give when the files are [fs]: a file the batch has written before
    is read like any other.  [create out] is what opening [out] for writing
    gives: [save] raises, before it writes anything, when the directory of
    [out] does not exist (FileNotFoundError) or the file is refused.  The
    pages are collected and "No pages selected" is raised before [save] is
    reached. *)
Fixpoint batch_loop
    (fitz_open : gmap string Pdf -> str -> result (list (result Pixmap)))
    (create : string -> result unit) (settings : Settings)
    (paths : list str) (self : PDFManager) (fs : gmap string Pdf)
  : PDFManager * gmap string Pdf * result unit :=
  match paths with
  | [] => (self, fs, Ok tt)
  | path :: rest =>
      match load_pdf_pages self (fitz_open fs path) settings true with
      | (self1, _, Raise e) => (self1, fs, Raise e)
      | (self1, _, Ok _) =>
          let out := converted_path path in
          match export_pdf self1 fs out
                           (py_range 0 (len (pages self1))) true 85 with
          | (fs1, _, Raise e) => (self1, fs1, Raise e)
          | (fs1, _, Ok _) =>
              match create out with
              | Raise e => (self1, fs, Raise e)
              | Ok _ => batch_loop fitz_open create settings rest self1 fs1
              end
          end
      end
  end.

(** The manager and the files after one file of the batch that goes
    through: the manager holds the file, its processed pages are written at
    the converted path. *)
Definition batch_step
    (fitz_open : gmap string Pdf -> str -> result (list (result Pixmap)))
    (settings : Settings) (st : PDFManager * gmap string Pdf) (path : str)
  : PDFManager * gmap string Pdf :=
  let self1 :=
    fst (fst (load_pdf_pages (fst st) (fitz_open (snd st) path) settings true)) in
  (self1, <[converted_path path := pages self1]> (snd st)).

(** A file the batch can convert on the files [fs]: it opens, every page
    renders, it has a page, and its converted path can be created. *)
Definition convertible
    (fitz_open : gmap string Pdf -> str -> result (list (result Pixmap)))
    (create : string -> result unit) (fs : gmap string Pdf) (path : str)
  : Prop :=
  (exists doc, fitz_open fs path = Ok (map Ok doc) /\ doc <> [])
  /\ create (converted_path path) = Ok tt.

(** Every file of [paths] can be converted when its turn comes. *)
Fixpoint all_convertible
    (fitz_open : gmap string Pdf -> str -> result (list (result Pixmap)))
    (create : string -> result unit) (settings : Settings)
    (paths : list str) (st : PDFManager * gmap string Pdf) : Prop :=
  match paths with
  | [] => True
  | path :: rest =>
      convertible fitz_open create (snd st) path
      /\ all_convertible fitz_open create settings rest
           (batch_step fitz_open settings st path)
  end.

(** A disk for the examples: a file of [fs] opens with as many pages as it
    has, each rendered as the same 2 x 1 pixels; any other path is missing;
    only the working directory exists. *)
Definition opens_written (fs : gmap string Pdf) (path : str)
  : result (list (result Pixmap)) :=
  match fs !! string_of_list_ascii path with
  | Some doc => Ok (map (fun _ => Ok (mkPixmap 2 1 [(0, 0, 0); (10, 20, 30)])) doc)
  | None => Raise FileNotFoundError
  end.

Definition two_page_file : gmap string Pdf :=
  {[ "a.pdf"%string := [dark_page; light_page] ]}.

Definition in_working_directory (out : string) : result unit :=
  if contains "/"%char (list_ascii_of_string out) then Raise FileNotFoundError
  else Ok tt.

(** * Properties *)

(** ** Python lists *)

Section PyListFacts.
Context {A : Type}.
Implicit Types (l : list A) (i j : Z) (x : A).

Lemma py_pos_lt l i n : py_pos l i = Some n -> (n < length l)%nat.
Proof.
  unfold py_pos, len.
  destruct (Z.leb_spec 0 i).
  - destruct (Z.ltb_spec i (Z.of_nat (length l))); [|discriminate].
    intros [= <-]. lia.
  - destruct (Z.leb_spec 0 (Z.of_nat (length l) + i)); [|discriminate].
    intros [= <-]. lia.
Qed.

Lemma py_pos_nonneg l i :
  0 <= i < len l -> py_pos l i = Some (Z.to_nat i).
Proof.
  intros [H0 H1]. unfold py_pos.
  destruct (Z.leb_spec 0 i); [|lia].
  destruct (Z.ltb_spec i (len l)); [done|lia].
Qed.

Lemma py_pos_in_range l i :
  - len l <= i < len l -> exists n, py_pos l i = Some n /\ (n < length l)%nat.
Proof.
  intros [H0 H1]. unfold py_pos.
  destruct (Z.leb_spec 0 i).
  - destruct (Z.ltb_spec i (len l)); [|lia].
    eexists; split; [done|]. unfold len in *. lia.
  - destruct (Z.leb_spec 0 (len l + i)); [|lia].
    eexists; split; [done|]. unfold len in *. lia.
Qed.

Lemma py_pos_same_length {B : Type} l (k : list B) i :
  length l = length k -> py_pos l i = py_pos k i.
Proof. intros H. unfold py_pos, len. by rewrite H. Qed.

Lemma py_get_in_range l i :
  - len l <= i < len l -> exists x, py_get l i = Ok x.
Proof.
  intros H. destruct (py_pos_in_range l i H) as (n & Hn & Hlt).
  unfold py_get. rewrite Hn.
  destruct (lookup_lt_is_Some_2 l n Hlt) as [x Hx].
  exists x. by rewrite Hx.
Qed.

Lemma py_set_length l i x l' : py_set l i x = Ok l' -> length l' = length l.
Proof.
  unfold py_set. destruct (py_pos l i); [|discriminate].
  intros [= <-]. apply length_insert.
Qed.

Lemma py_swap_length l i j l' : py_swap l i j = Ok l' -> length l' = length l.
Proof.
  unfold py_swap, bind.
  destruct (py_get l j); [|discriminate].
  destruct (py_get l i); [|discriminate].
  destruct (py_set l i a) as [l1|] eqn:H1; [|discriminate].
  intros H2. apply py_set_length in H1, H2. congruence.
Qed.

Lemma ins1_length l i x : length (ins1 l i x) = S (length l).
Proof.
  unfold ins1. rewrite length_app. cbn [length].
  rewrite length_take, length_drop. lia.
Qed.

Lemma insertable_same_length {B : Type} l (k : list B) i :
  length l = length k -> insertable l i = insertable k i.
Proof. intros H. unfold insertable, len. by rewrite H. Qed.

Lemma insertable_within l i : - len l <= i <= len l -> insertable l i = true.
Proof.
  intros H. unfold insertable.
  destruct (Z.leb_spec (- len l) i); [|lia].
  destruct (Z.leb_spec i (len l)); [|lia].
  by rewrite orb_true_r.
Qed.

Lemma insertable_fits l i : fits_ssize_t i = true -> insertable l i = true.
Proof. intros H. unfold insertable. by rewrite H. Qed.

(** Overwriting the element after a prefix [done]. *)
Lemma py_set_middle (done : list A) y todo x :
  py_set (done ++ y :: todo) (len done) x = Ok (done ++ x :: todo).
Proof.
  unfold py_set. rewrite py_pos_nonneg.
  - f_equal. unfold len. rewrite Nat2Z.id.
    rewrite insert_app_r_alt by lia.
    by rewrite Nat.sub_diag.
  - unfold len. rewrite length_app. cbn [length]. lia.
Qed.

Lemma py_get_middle (done : list A) y todo :
  py_get (done ++ y :: todo) (len done) = Ok y.
Proof.
  unfold py_get. rewrite py_pos_nonneg.
  - unfold len. rewrite Nat2Z.id.
    rewrite lookup_app_r by lia.
    by rewrite Nat.sub_diag.
  - unfold len. rewrite length_app. cbn [length]. lia.
Qed.
End PyListFacts.

Lemma count_from_length a n : length (count_from a n) = n.
Proof. revert a. induction n as [|n IH]; intros a; cbn; [done|]. by rewrite IH. Qed.

Lemma count_from_app a n k :
  count_from a (n + k) = count_from a n ++ count_from (a + Z.of_nat n) k.
Proof.
  revert a. induction n as [|n IH]; intros a; cbn [count_from Nat.add app].
  - f_equal. lia.
  - rewrite IH. do 3 f_equal. lia.
Qed.

Lemma count_from_bounds a n i :
  i ∈ count_from a n -> a <= i < a + Z.of_nat n.
Proof.
  revert a. induction n as [|n IH]; intros a; cbn [count_from].
  - intros H. by apply elem_of_nil in H.
  - intros [->|H]%elem_of_cons; [lia|]. apply IH in H. lia.
Qed.

(** ** The enhancement pipeline *)

Lemma process_image_size self img settings :
  size (process_image self img settings) = size img.
Proof.
  unfold process_image.
  destruct (default true (grayscale settings)); reflexivity.
Qed.

Lemma process_image_pure self self' img settings :
  process_image self img settings = process_image self' img settings.
Proof. reflexivity. Qed.

Lemma V4_process_image_complete self img c b s g :
  V4.process_image self img (mkSettings (Some c) (Some b) (Some s) (Some g))
  = Ok (process_image self img (mkSettings (Some c) (Some b) (Some s) (Some g))).
Proof. reflexivity. Qed.

Example invert_dark_page :
  pixels (Invert dark_page) = Some [(255, 255, 255); (245, 235, 225)]
  /\ pixels (Luminance (Invert dark_page))
     = Some [(255, 255, 255); (237, 237, 237)]
  /\ size (process_image two_pages dark_page default_settings) = (2, 1).
Proof. repeat split; vm_compute; reflexivity. Qed.

Lemma luminance_rgb_quotient r g b :
  luminance_rgb (r, g, b)
  = (let l := (19595 * r + 38470 * g + 7471 * b + 32768) / 65536 in (l, l, l)).
Proof.
  unfold luminance_rgb. rewrite Z.shiftr_div_pow2 by lia.
  change (2 ^ 16) with 65536. cbn zeta.
  by replace (r * 19595 + g * 38470 + b * 7471 + 32768)
    with (19595 * r + 38470 * g + 7471 * b + 32768) by lia.
Qed.

Lemma pixels_inverted img px :
  pixels img = Some px ->
  pixels (Invert img)
  = Some (map (fun '(r, g, b) => (255 - r, 255 - g, 255 - b)) px).
Proof.
  intros H. cbn [pixels]. rewrite H. reflexivity.
Qed.

Lemma pixels_greyed img px :
  pixels img = Some px ->
  pixels (Luminance img)
  = Some (map (fun '(r, g, b) =>
                 let l := (19595 * r + 38470 * g + 7471 * b + 32768) / 65536 in
                 (l, l, l)) px).
Proof.
  intros H. cbn [pixels]. rewrite H. cbn. f_equal.
  apply map_ext. intros [[r g] b]. apply luminance_rgb_quotient.
Qed.

(** C1.  [process_image] inverts first, then converts to grayscale when asked,
    then adjusts contrast, brightness and sharpness in this order.  On the
    pixel data: the inversion maps every channel value [v] to [255 - v]; the
    grayscale conversion gives the three channels of every inverted pixel the
    one value [(19595 r + 38470 g + 7471 b + 32768) / 65536]; and when the
    three factors are 1.0 the enhancements leave these pixels as they are,
    so that the pixels returned are the inverted ones, greyed when asked.
    The result depends on the image and the settings only, whatever the
    manager holds, and it has the width and height of the input.  With every
    key present, the V4 function computes the same image. *)
Theorem process_image_stage_order :
  forall (self other : PDFManager) (img : Image) (settings : Settings),
    let grey := default true (grayscale settings) in
    let contrast_factor := default 1.2%float (contrast settings) in
    let brightness_factor := default 1.0%float (brightness settings) in
    let sharpness_factor := default 1.0%float (sharpness settings) in
    process_image self img settings
    = Sharpness
        (Brightness
           (Contrast (if grey then Luminance (Invert img) else Invert img)
                     contrast_factor)
           brightness_factor)
        sharpness_factor
    /\ (forall px : list rgb,
          pixels img = Some px ->
          let inverted :=
            map (fun '(r, g, b) => (255 - r, 255 - g, 255 - b)) px in
          let greyed :=
            map (fun '(r, g, b) =>
                   let l :=
                     (19595 * r + 38470 * g + 7471 * b + 32768) / 65536 in
                   (l, l, l)) inverted in
          pixels (Invert img) = Some inverted
          /\ pixels (Luminance (Invert img)) = Some greyed
          /\ (contrast_factor = 1.0%float ->
              brightness_factor = 1.0%float ->
              sharpness_factor = 1.0%float ->
              pixels (process_image self img settings)
              = Some (if grey then greyed else inverted)))
    /\ process_image other img settings = process_image self img settings
    /\ width (process_image self img settings) = width img
    /\ height (process_image self img settings) = height img
    /\ (forall c b s g,
          V4.process_image self img (mkSettings (Some c) (Some b) (Some s) (Some g))
          = Ok (process_image self img
                  (mkSettings (Some c) (Some b) (Some s) (Some g))))
    /\ process_image self dark_page default_settings
       = Sharpness
           (Brightness
              (Contrast (Luminance (Invert dark_page)) 1.2%float) 1.0%float)
           1.0%float
    /\ pixels (process_image self dark_page
                 (mkSettings (Some 1.0%float) (Some 1.0%float)
                             (Some 1.0%float) (Some true)))
       = Some [(255, 255, 255); (237, 237, 237)]
    /\ pixels (process_image self dark_page
                 (mkSettings (Some 1.0%float) (Some 1.0%float)
                             (Some 1.0%float) (Some false)))
       = Some [(255, 255, 255); (245, 235, 225)].
Proof.
  intros self other img settings grey contrast_factor brightness_factor
         sharpness_factor.
  split; [reflexivity|].
  split.
  { intros px Hpx inverted greyed.
    pose proof (pixels_inverted img px Hpx) as Hinv.
    pose proof (pixels_greyed (Invert img) _ Hinv) as Hgrey.
    split; [exact Hinv|]. split; [exact Hgrey|].
    intros Hc Hb Hs. unfold process_image.
    fold grey contrast_factor brightness_factor sharpness_factor.
    rewrite Hc, Hb, Hs. cbn [pixels].
    replace (neutral 1.0%float) with true by (vm_compute; reflexivity).
    by destruct grey. }
  split; [apply process_image_pure|].
  split; [unfold width; by rewrite process_image_size|].
  split; [unfold height; by rewrite process_image_size|].
  split; [intros c b s g; apply V4_process_image_complete|].
  split; [reflexivity|]. split; vm_compute; reflexivity.
Qed.

Lemma process_image_stage_order_witness :
  pixels light_page = Some [(255, 255, 255); (200, 100, 0)]
  /\ pixels (Invert light_page) = Some [(0, 0, 0); (55, 155, 255)]
  /\ pixels (Luminance (Invert light_page)) = Some [(0, 0, 0); (137, 137, 137)].
Proof.
  assert (H : pixels light_page = Some [(255, 255, 255); (200, 100, 0)])
    by reflexivity.
  split; [exact H|].
  destruct (proj1 (proj2 (process_image_stage_order one_page one_page light_page
                            default_settings))
              [(255, 255, 255); (200, 100, 0)] H) as (Hinv & Hgrey & _).
  split; [exact Hinv|exact Hgrey].
Defined.

(** ** Page editing keeps the three lists aligned *)

Lemma inserted_lengths self index img :
  length (original_pages (inserted self index img))
  = S (length (original_pages self))
  /\ length (pages (inserted self index img)) = S (length (pages self))
  /\ length (selected (inserted self index img)) = S (length (selected self)).
Proof. unfold inserted; cbn. by rewrite !ins1_length. Qed.

(** On an aligned document the three inserts convert the index alike: all
    three are made, or the first raises and nothing has changed. *)
Lemma insert_page_spec self index img :
  aligned self ->
  insert_page self index img
  = if insertable (pages self) index
    then (inserted self index img, Ok tt)
    else (self, Raise OverflowError).
Proof.
  intros [Ho Hs]. unfold insert_page, py_insert.
  rewrite (insertable_same_length (original_pages self) (pages self)) by done.
  destruct (insertable (pages self) index) eqn:Hi; [|done].
  cbn [pages selected with_pages original_pages]. rewrite Hi.
  cbn [pages selected with_pages original_pages].
  rewrite (insertable_same_length (selected self) (pages self)) by done.
  by rewrite Hi.
Qed.

Lemma insert_page_aligned self index img :
  aligned self -> aligned (fst (insert_page self index img)).
Proof.
  intros Ha. rewrite insert_page_spec by done.
  destruct (insertable _ _); cbn [fst]; [|done].
  destruct Ha as [H1 H2].
  destruct (inserted_lengths self index img) as (E1 & E2 & E3).
  split; congruence.
Qed.

Lemma move_page_lengths self index direction :
  let self' := fst (move_page self index direction) in
  length (original_pages self') = length (original_pages self)
  /\ length (pages self') = length (pages self)
  /\ length (selected self') = length (selected self).
Proof.
  unfold move_page.
  destruct (_ && _); [|done].
  destruct (py_swap (pages self) _ _) as [ps|] eqn:Hp; [|done].
  apply py_swap_length in Hp. cbn [with_pages original_pages pages selected].
  destruct (py_swap (original_pages self) _ _) as [os|] eqn:Ho; [|done].
  apply py_swap_length in Ho. cbn [original_pages pages selected].
  destruct (py_swap (selected self) _ _) as [ss|] eqn:Hs; [|done].
  apply py_swap_length in Hs. done.
Qed.

Lemma revert_current_page_lengths self index :
  let self' := fst (revert_current_page self index) in
  length (original_pages self') = length (original_pages self)
  /\ length (pages self') = length (pages self)
  /\ length (selected self') = length (selected self).
Proof.
  unfold revert_current_page.
  destruct (pages self) as [|p ps0] eqn:Hp; cbn [fst]; [by rewrite Hp|].
  destruct (py_get _ _); cbn [fst]; [|by rewrite Hp].
  destruct (py_set _ _ _) as [ps|] eqn:Hs; cbn [fst]; [|by rewrite Hp].
  apply py_set_length in Hs. cbn. done.
Qed.

Lemma revert_loop_lengths indices : forall self,
  let self' := fst (revert_loop self indices) in
  length (original_pages self') = length (original_pages self)
  /\ length (pages self') = length (pages self)
  /\ length (selected self') = length (selected self).
Proof.
  induction indices as [|i rest IH]; intros self; cbn [revert_loop]; [done|].
  destruct (py_get _ _); [|done].
  destruct (py_set _ _ _) as [ps|] eqn:Hs; [|done].
  apply py_set_length in Hs.
  destruct (IH (with_pages self ps)) as (E1 & E2 & E3).
  cbn in *. repeat split; congruence.
Qed.

Lemma revert_all_lengths self :
  let self' := fst (revert_all self) in
  length (original_pages self') = length (original_pages self)
  /\ length (pages self') = length (pages self)
  /\ length (selected self') = length (selected self).
Proof.
  unfold revert_all.
  destruct (pages self) as [|p ps0] eqn:Hp; cbn [fst]; [by rewrite Hp|].
  destruct (revert_loop_lengths (py_range 0 (len (p :: ps0))) self)
    as (E1 & E2 & E3).
  rewrite Hp in E2. done.
Qed.

Lemma edit_aligned self op : aligned self -> aligned (edit self op).
Proof.
  intros Ha. destruct op as [index|index text|index direction|index|]; cbn [edit].
  - unfold insert_blank_page. destruct (pages self); [done|].
    by apply insert_page_aligned.
  - unfold insert_text_page. destruct (pages self); [done|].
    by apply insert_page_aligned.
  - destruct (move_page_lengths self index direction) as (E1 & E2 & E3).
    destruct Ha. split; congruence.
  - destruct (revert_current_page_lengths self index) as (E1 & E2 & E3).
    destruct Ha. split; congruence.
  - destruct (revert_all_lengths self) as (E1 & E2 & E3).
    destruct Ha. split; congruence.
Qed.

Lemma edits_aligned ops : forall self, aligned self -> aligned (edits self ops).
Proof.
  unfold edits.
  induction ops as [|op ops IH]; intros self Ha; cbn [foldl]; [done|].
  apply IH. by apply edit_aligned.
Qed.

(** C7.  From a document whose three lists have one length, any session of
    insert-blank, insert-text, move and revert calls, at any integer index,
    ends in a document whose three lists have one length; so does each V4
    insert, which raises on an empty document and changes nothing then. *)
Theorem editing_preserves_alignment :
  forall (self : PDFManager) (ops : list EditOp) (index : Z) (text : str),
    aligned self ->
    aligned (edits self ops)
    /\ aligned (fst (V4.insert_blank_page self index))
    /\ aligned (fst (V4.insert_text_page self index text)).
Proof.
  intros self ops index text Ha.
  split; [by apply edits_aligned|].
  unfold V4.insert_blank_page, V4.insert_text_page.
  destruct (py_get (pages self) 0); cbn [fst];
    split; try done; by apply insert_page_aligned.
Qed.

(** The session inserts at both ends ([0] and the length), moves the first
    and the last page both ways, and reverts. *)
Lemma editing_preserves_alignment_witness :
  aligned two_pages
  /\ aligned
       (edits two_pages
          [InsertBlank 0; InsertText 3 (py "note"); Move 0 (-1); Move 3 1;
           Move 0 1; RevertCurrent 0; RevertAll; InsertBlank 4])
  /\ aligned (fst (V4.insert_blank_page two_pages 2))
  /\ aligned (fst (V4.insert_text_page two_pages 2 (py "note"))).
Proof.
  assert (Ha : aligned two_pages) by (split; reflexivity).
  split; [exact Ha|].
  exact (editing_preserves_alignment two_pages
           [InsertBlank 0; InsertText 3 (py "note"); Move 0 (-1); Move 3 1;
            Move 0 1; RevertCurrent 0; RevertAll; InsertBlank 4]
           2 (py "note") Ha).
Defined.

(** ** Load, revert, reprocess *)

Lemma load_loop_spec settings cb total doc : forall self idx log,
  load_loop self settings cb total idx doc log
  = (mkManager (original_pages self ++ map raster doc)
               (pages self ++ map (fun pix => process_image self (raster pix) settings) doc)
               (selected self),
     log ++ (if cb then fractions total idx (length doc) else [])).
Proof.
  induction doc as [|pix rest IH]; intros self idx log; cbn [load_loop].
  - destruct self, cb; cbn; by rewrite !app_nil_r.
  - rewrite IH. cbn [original_pages pages selected map length].
    rewrite <- !app_assoc. cbn [app]. f_equal.
    unfold report, fractions. destruct cb; cbn [count_from map]; [|done].
    by rewrite <- app_assoc.
Qed.

Lemma load_pdf_spec self doc settings cb :
  load_pdf self doc settings cb
  = (mkManager (map raster doc)
               (map (fun pix => process_image self (raster pix) settings) doc)
               (replicate (length doc) true),
     if cb then fractions (len doc) 0 (length doc) else []).
Proof.
  unfold load_pdf. rewrite load_loop_spec. cbn.
  rewrite length_map. done.
Qed.

Lemma reprocess_loop_spec settings cb total rest :
  forall self done todo idx log,
    pages self = done ++ todo ->
    length todo = length rest ->
    idx = len done ->
    reprocess_loop self settings cb total idx rest log
    = (with_pages self (done ++ map (fun img => process_image self img settings) rest),
       log ++ (if cb then fractions total idx (length rest) else []),
       Ok tt).
Proof.
  induction rest as [|img rest IH]; intros self done todo idx log Hp Hl Hi;
    cbn [reprocess_loop].
  - destruct todo; [|discriminate]. rewrite app_nil_r in Hp.
    cbn. rewrite !app_nil_r. unfold with_pages. rewrite <- Hp.
    destruct self, cb; cbn; by rewrite app_nil_r.
  - destruct todo as [|y todo]; [discriminate|].
    rewrite Hp, Hi, py_set_middle.
    rewrite (IH _ (done ++ [process_image self img settings]) todo).
    + unfold with_pages. cbn [original_pages pages selected map length].
      rewrite <- !app_assoc. cbn [app].
      unfold report, fractions. destruct cb; cbn [count_from map]; [|done].
      by rewrite <- app_assoc.
    + cbn. by rewrite <- app_assoc.
    + cbn in Hl. lia.
    + unfold len. rewrite length_app. cbn. lia.
Qed.

Lemma reprocess_all_pages_spec self settings cb :
  length (original_pages self) = length (pages self) ->
  reprocess_all_pages self settings cb
  = (with_pages self (map (fun img => process_image self img settings)
                          (original_pages self)),
     if cb then fractions (len (original_pages self)) 0
                          (length (original_pages self)) else [],
     Ok tt).
Proof.
  intros H. unfold reprocess_all_pages.
  by rewrite (reprocess_loop_spec _ _ _ _ self [] (pages self) 0 []).
Qed.

Lemma revert_loop_spec n : forall self done todo odone otodo,
  pages self = done ++ todo ->
  original_pages self = odone ++ otodo ->
  length done = length odone ->
  length todo = n ->
  length otodo = n ->
  revert_loop self (count_from (len done) n)
  = (with_pages self (done ++ otodo), Ok tt).
Proof.
  induction n as [|n IH]; intros self done todo odone otodo Hp Ho Hd Ht Hot;
    cbn [count_from revert_loop].
  - destruct todo, otodo; try discriminate. unfold with_pages.
    rewrite <- Hp. by destruct self.
  - destruct todo as [|y todo], otodo as [|o otodo]; try discriminate.
    rewrite Ho. replace (len done) with (len odone) by (unfold len; lia).
    rewrite py_get_middle, Hp.
    replace (len odone) with (len done) by (unfold len; lia).
    rewrite py_set_middle.
    replace (len done + 1) with (len (done ++ [copy o]))
      by (unfold len; rewrite length_app; cbn; lia).
    rewrite (IH _ (done ++ [copy o]) todo (odone ++ [o]) otodo).
    + unfold with_pages, copy. cbn. by rewrite <- app_assoc.
    + cbn. by rewrite <- app_assoc.
    + cbn. by rewrite Ho, <- app_assoc.
    + rewrite !length_app. cbn. lia.
    + cbn in Ht. lia.
    + cbn in Hot. lia.
Qed.

Lemma revert_all_spec self :
  length (original_pages self) = length (pages self) ->
  revert_all self = (with_pages self (original_pages self), Ok tt).
Proof.
  intros H. unfold revert_all.
  destruct (pages self) as [|p ps] eqn:Hp.
  - destruct (original_pages self) eqn:Ho; [|discriminate].
    unfold with_pages. rewrite Ho. destruct self; cbn in *. by subst.
  - unfold py_range. rewrite Z.sub_0_r.
    rewrite (revert_loop_spec _ self [] (p :: ps) [] (original_pages self));
      try done.
    + unfold len. by rewrite Nat2Z.id.
    + unfold len. rewrite Nat2Z.id. congruence.
Qed.

(** C9.  On a freshly loaded document, reverting every page and then
    reprocessing all pages with [params] leaves exactly what reprocessing
    alone leaves: the same processed pages (each original run through the
    pipeline), the same progress values and no error; the originals are the
    rasterized pages after the load, after the revert and after either
    reprocessing. *)
Theorem revert_all_then_reprocess_all :
  forall (self : PDFManager) (doc : list Pixmap) (settings params : Settings)
         (cb0 cb : bool),
    let loaded := fst (load_pdf self doc settings cb0) in
    let reverted := fst (revert_all loaded) in
    let twice := reprocess_all_pages reverted params cb in
    let once := reprocess_all_pages loaded params cb in
    twice = once
    /\ snd once = Ok tt
    /\ pages (fst (fst once))
       = map (fun pix => process_image loaded (raster pix) params) doc
    /\ pages reverted = map raster doc
    /\ original_pages loaded = map raster doc
    /\ original_pages reverted = map raster doc
    /\ original_pages (fst (fst once)) = map raster doc
    /\ original_pages (fst (fst twice)) = map raster doc.
Proof.
  intros self doc settings params cb0 cb loaded reverted twice once.
  assert (Hl : loaded
               = mkManager (map raster doc)
                   (map (fun pix => process_image self (raster pix) settings) doc)
                   (replicate (length doc) true))
    by (unfold loaded; by rewrite load_pdf_spec).
  assert (Hal : length (original_pages loaded) = length (pages loaded))
    by (rewrite Hl; cbn; by rewrite !length_map).
  assert (Hr : reverted = with_pages loaded (original_pages loaded))
    by (unfold reverted; by rewrite revert_all_spec).
  assert (Ho : once
               = (with_pages loaded
                    (map (fun img => process_image loaded img params)
                         (original_pages loaded)),
                  if cb then fractions (len (original_pages loaded)) 0
                                        (length (original_pages loaded)) else [],
                  Ok tt))
    by (unfold once; by rewrite reprocess_all_pages_spec).
  assert (Ht : twice = once).
  { unfold twice. rewrite reprocess_all_pages_spec; rewrite Hr; [|done].
    by rewrite Ho. }
  rewrite Ht, Ho, Hr. cbn [fst snd with_pages original_pages pages].
  rewrite Hl. cbn [original_pages]. rewrite map_map.
  repeat split; reflexivity.
Qed.

(** ** Export *)

Lemma export_loop_spec self cb total page_indices :
  forall i export_pages log,
    length (pages self) = length (selected self) ->
    valid_indices self page_indices ->
    export_loop self cb total i page_indices export_pages log
    = (log ++ (if cb then fractions total i (length page_indices) else []),
       Ok (export_pages ++ qualifying self page_indices)).
Proof.
  induction page_indices as [|idx rest IH]; intros i acc log Hlen Hv;
    cbn [export_loop].
  - cbn. rewrite !app_nil_r. destruct cb; cbn; by rewrite ?app_nil_r.
  - apply Forall_cons in Hv as [Hidx Hv].
    destruct (py_get_in_range (pages self) idx Hidx) as [img Himg].
    assert (Hsel : - len (selected self) <= idx < len (selected self))
      by (unfold len in *; rewrite <- Hlen; exact Hidx).
    destruct (py_get_in_range (selected self) idx Hsel) as [keep Hkeep].
    unfold qualifying. cbn [flat_map]. fold (qualifying self rest).
    rewrite Hkeep, Himg. cbn [bind].
    destruct keep; rewrite IH by done; cbn [length];
      unfold report, fractions; destruct cb; cbn [count_from map app];
      rewrite <- ?app_assoc; done.
Qed.

Lemma export_pdf_spec self fs out_path page_indices cb quality :
  length (pages self) = length (selected self) ->
  valid_indices self page_indices ->
  export_pdf self fs out_path page_indices cb quality
  = let log :=
      if cb then fractions (len page_indices) 0 (length page_indices) else [] in
    match qualifying self page_indices with
    | [] => (fs, log, Raise (Exception "No pages selected for export!"))
    | first :: others => (<[out_path := first :: others]> fs, log, Ok tt)
    end.
Proof.
  intros Hlen Hv. unfold export_pdf.
  rewrite export_loop_spec by done. cbn [app].
  destruct (qualifying self page_indices); done.
Qed.


Lemma valid_indices_range (self : PDFManager) :
  valid_indices self (py_range 0 (len (pages self))).
Proof.
  unfold valid_indices. apply Forall_forall. intros i Hi.
  apply count_from_bounds in Hi. unfold len in *. lia.
Qed.

Lemma qualifying_selected self page_indices :
  length (pages self) = length (selected self) ->
  valid_indices self page_indices ->
  qualifying self page_indices
  = map (page_at self) (List.filter (is_selected self) page_indices).
Proof.
  intros Hlen Hv.
  induction page_indices as [|idx rest IH]; [done|].
  apply Forall_cons in Hv as [Hidx Hv].
  destruct (py_get_in_range (pages self) idx Hidx) as [img Himg].
  assert (Hsel : - len (selected self) <= idx < len (selected self))
    by (unfold len in *; rewrite <- Hlen; exact Hidx).
  destruct (py_get_in_range (selected self) idx Hsel) as [keep Hkeep].
  unfold qualifying. cbn [flat_map List.filter]. fold (qualifying self rest).
  rewrite (IH Hv).
  assert (Hs : is_selected self idx = keep) by (unfold is_selected; by rewrite Hkeep).
  assert (Hp : page_at self idx = img) by (unfold page_at; by rewrite Himg).
  rewrite Hs, Hkeep, Himg.
  destruct keep; cbn [map app]; [|done].
  by rewrite Hp.
Qed.





(** C4, what the code does.  [export_pdf] never reads [quality]: with one
    selected page and quality 10, 85 or 100 it writes the processed page
    itself, not its JPEG re-encoding, while the compact generator, given the
    same page, writes the sheet after a JPEG pass at the chosen quality. *)
Theorem export_pdf_embeds_pages_unencoded :
  (forall self fs out_path page_indices cb q1 q2,
      export_pdf self fs out_path page_indices cb q1
      = export_pdf self fs out_path page_indices cb q2)
  /\ fst (fst (export_pdf one_page ∅ "out.pdf" [0] false 10)) !! "out.pdf"
     = Some [dark_page]
  /\ fst (fst (export_pdf one_page ∅ "out.pdf" [0] false 85)) !! "out.pdf"
     = Some [dark_page]
  /\ [dark_page] <> [Jpeg dark_page 10]
  /\ (exists sheet,
         fst (fst (_generate_compact_thread fit_within
                     (mkGUI one_page 0 portrait_2x2) ∅ "out.pdf")) !! "out.pdf"
         = Some [Jpeg sheet 85]).
Proof.
  split; [reflexivity|].
  split; [apply lookup_insert_eq|].
  split; [apply lookup_insert_eq|].
  split; [discriminate|].
  eexists. vm_compute. reflexivity.
Qed.

(** ** Millimetres to pixels *)

Lemma pow2_pos (k : Z) : 0 <= k -> 0 < 2 ^ k.
Proof. intros H. apply Z.pow_pos_nonneg; lia. Qed.

Lemma trunc_mag_floor m e :
  (inject_Z (trunc_mag m e) <= SF_value m e)%Q
  /\ (SF_value m e < inject_Z (trunc_mag m e) + 1)%Q.
Proof.
  unfold trunc_mag, SF_value.
  destruct (Z.leb_spec 0 e) as [He|He].
  - unfold Qle, Qlt, Qplus, inject_Z; cbn [Qnum Qden]. lia.
  - assert (Hd : 0 < 2 ^ (- e)) by (apply pow2_pos; lia).
    set (d := 2 ^ (- e)) in *.
    assert (HD : Z.pos (Z.to_pos d) = d) by (apply Z2Pos.id; lia).
    pose proof (Z.div_mod (Z.pos m) d ltac:(lia)) as Hdm.
    pose proof (Z.mod_pos_bound (Z.pos m) d Hd) as Hmod.
    unfold Qle, Qlt, Qplus, inject_Z; cbn [Qnum Qden].
    rewrite ?Pos2Z.inj_mul, HD. nia.
Qed.

Lemma round_mag_nearest m e :
  let n := trunc_mag m e in
  let r := round_mag m e in
  (r = n \/ r = n + 1)
  /\ ((SF_value m e - inject_Z n < 1 # 2)%Q -> r = n)
  /\ ((1 # 2 < SF_value m e - inject_Z n)%Q -> r = n + 1).
Proof.
  unfold trunc_mag, round_mag, SF_value.
  destruct (Z.leb_spec 0 e) as [He|He].
  - cbn zeta. split; [by left|]. split; [done|].
    unfold Qlt, Qminus, Qplus, Qopp, inject_Z; cbn [Qnum Qden]. lia.
  - assert (Hd : 0 < 2 ^ (- e)) by (apply pow2_pos; lia).
    set (d := 2 ^ (- e)) in *.
    assert (HD : Z.pos (Z.to_pos d) = d) by (apply Z2Pos.id; lia).
    pose proof (Z.div_mod (Z.pos m) d ltac:(lia)) as Hdm.
    pose proof (Z.mod_pos_bound (Z.pos m) d Hd) as Hmod.
    cbn zeta.
    unfold Qlt, Qminus, Qplus, Qopp, inject_Z; cbn [Qnum Qden].
    rewrite ?Pos2Z.inj_mul, HD.
    destruct (Z.ltb_spec (2 * (Z.pos m mod d)) d) as [H1|H1].
    + split; [by left|]. split; [done|]. nia.
    + destruct (Z.ltb_spec d (2 * (Z.pos m mod d))) as [H2|H2].
      * split; [by right|]. split; [nia|done].
      * split; [destruct (Z.even _); auto|]. split; nia.
Qed.

(** C6, as amended.  When [mm * dpi / 25.4] is zero, [mm_to_px] is 0; when it
    is a positive finite float of value [v], [mm_to_px] returns the integer
    [n] with [n <= v < n + 1], the value truncated, where the rounding of the
    specification returns [n] or [n + 1]: [n] when the fractional part is
    below one half and [n + 1] when it is above. *)
Theorem mm_to_px_truncates :
  forall (mm : float) (dpi : Z),
    (forall s, Prim2SF (mm_quotient mm dpi) = S754_zero s ->
               mm_to_px mm dpi = Ok 0)
    /\ (forall m e,
          Prim2SF (mm_quotient mm dpi) = S754_finite false m e ->
          exists n r,
            mm_to_px mm dpi = Ok n
            /\ (inject_Z n <= SF_value m e)%Q
            /\ (SF_value m e < inject_Z n + 1)%Q
            /\ spec_mm_to_px mm dpi = Ok r
            /\ (r = n \/ r = n + 1)
            /\ ((SF_value m e - inject_Z n < 1 # 2)%Q -> r = n)
            /\ ((1 # 2 < SF_value m e - inject_Z n)%Q -> r = n + 1)).
Proof.
  intros mm dpi. split.
  - intros s H. unfold mm_to_px, int_of_float. by rewrite H.
  - intros m e H. exists (trunc_mag m e), (round_mag m e).
    unfold mm_to_px, spec_mm_to_px, int_of_float, py_round. rewrite H.
    destruct (trunc_mag_floor m e) as (F1 & F2).
    destruct (round_mag_nearest m e) as (R1 & R2 & R3).
    repeat split; assumption.
Qed.

(** 210 mm at 200 dpi is 1653.54... pixels: the code gives 1653. *)
Lemma mm_to_px_truncates_witness :
  Prim2SF (mm_quotient 210.0%float DEFAULT_DPI)
  = S754_finite false 7272360372691654 (-42)
  /\ exists n r,
       mm_to_px 210.0%float DEFAULT_DPI = Ok n
       /\ (inject_Z n <= SF_value 7272360372691654 (-42))%Q
       /\ (SF_value 7272360372691654 (-42) < inject_Z n + 1)%Q
       /\ spec_mm_to_px 210.0%float DEFAULT_DPI = Ok r
       /\ (r = n \/ r = n + 1)
       /\ ((SF_value 7272360372691654 (-42) - inject_Z n < 1 # 2)%Q -> r = n)
       /\ ((1 # 2 < SF_value 7272360372691654 (-42) - inject_Z n)%Q -> r = n + 1).
Proof.
  assert (H : Prim2SF (mm_quotient 210.0%float DEFAULT_DPI)
              = S754_finite false 7272360372691654 (-42))
    by (vm_compute; reflexivity).
  split; [exact H|].
  exact (proj2 (mm_to_px_truncates 210.0%float DEFAULT_DPI) _ _ H).
Defined.

(** C6 as stated fails: for the width of an A4 sheet the code returns 1653
    and rounding to the nearest integer gives 1654. *)
Lemma mm_to_px_is_not_round :
  mm_to_px 210.0%float DEFAULT_DPI = Ok 1653
  /\ spec_mm_to_px 210.0%float DEFAULT_DPI = Ok 1654
  /\ mm_to_px 210.0%float DEFAULT_DPI <> spec_mm_to_px 210.0%float DEFAULT_DPI.
Proof.
  split; [vm_compute; reflexivity|].
  split; [vm_compute; reflexivity|].
  intros H. vm_compute in H. discriminate.
Qed.

(** ** Page ranges *)

Lemma lstrip_spaces s : Forall (fun c => is_space c = true) s -> lstrip s = [].
Proof.
  induction 1 as [|c s Hc _ IH]; cbn [lstrip]; [done|]. by rewrite Hc.
Qed.

Lemma blank_spaces s : Forall (fun c => is_space c = true) s -> blank s = true.
Proof.
  intros H. unfold blank, strip. destruct s; [done|].
  by rewrite (lstrip_spaces _ H).
Qed.

Lemma digit_plain c :
  is_digit c = true ->
  is_space c = false
  /\ Ascii.eqb c ","%char = false
  /\ Ascii.eqb "-"%char c = false
  /\ Ascii.eqb c "-"%char = false
  /\ Ascii.eqb c "+"%char = false
  /\ 0 <= digit_val c <= 9.
Proof.
  destruct c as [[] [] [] [] [] [] [] []]; vm_compute; intros H;
    try discriminate H; repeat split; try done.
Qed.

Lemma lstrip_head c s : is_space c = false -> lstrip (c :: s) = c :: s.
Proof. intros H. cbn [lstrip]. by rewrite H. Qed.

Lemma strip_digits s : Forall (fun c => is_digit c = true) s -> strip s = s.
Proof.
  intros H. unfold strip.
  assert (Hl : forall t, Forall (fun c => is_digit c = true) t -> lstrip t = t).
  { intros [|c t] Ht; [done|]. apply Forall_cons in Ht as [Hc _].
    apply lstrip_head. by apply digit_plain. }
  rewrite (Hl s H), (Hl (rev s)) by (by apply Forall_rev).
  apply rev_involutive.
Qed.

Lemma int_space_space c : is_int_space c = true -> is_space c = true.
Proof.
  destruct c as [[] [] [] [] [] [] [] []]; vm_compute; intros H;
    try discriminate H; reflexivity.
Qed.

Lemma int_strip_digits s :
  Forall (fun c => is_digit c = true) s -> int_strip s = s.
Proof.
  intros H. unfold int_strip.
  assert (Hl : forall t, Forall (fun c => is_digit c = true) t ->
                         int_lstrip t = t).
  { intros [|c t] Ht; [done|]. apply Forall_cons in Ht as [Hc _].
    cbn [int_lstrip]. destruct (is_int_space c) eqn:Hs; [|done].
    apply int_space_space in Hs.
    destruct (digit_plain c Hc) as (Hn & _). congruence. }
  rewrite (Hl s H), (Hl (rev s)) by (by apply Forall_rev).
  apply rev_involutive.
Qed.

Lemma split_digits s :
  Forall (fun c => is_digit c = true) s -> split ","%char s = [s].
Proof.
  induction 1 as [|c s Hc _ IH]; cbn [split]; [done|].
  destruct (digit_plain c Hc) as (_ & -> & _). by rewrite IH.
Qed.

Lemma contains_digits s :
  Forall (fun c => is_digit c = true) s -> contains "-"%char s = false.
Proof.
  unfold contains.
  induction 1 as [|c s Hc _ IH]; cbn [existsb]; [done|].
  destruct (digit_plain c Hc) as (_ & _ & -> & _). by rewrite IH.
Qed.

Lemma int_digits_digits s : forall acc,
  Forall (fun c => is_digit c = true) s -> 0 <= acc ->
  exists v, int_digits acc false s = Some v /\ 0 <= v.
Proof.
  induction s as [|c s IH]; intros acc H Hacc; cbn [int_digits].
  - by exists acc.
  - apply Forall_cons in H as [Hc H]. rewrite Hc.
    destruct (digit_plain c Hc) as (_ & _ & _ & _ & _ & Hd).
    apply IH; [done|lia].
Qed.

Lemma py_int_digits s :
  Forall (fun c => is_digit c = true) s -> s <> [] ->
  exists v, py_int s = Ok v /\ 0 <= v.
Proof.
  intros H Hne. unfold py_int. rewrite (int_strip_digits s H).
  destruct s as [|c s]; [done|].
  apply Forall_cons in H as [Hc H].
  destruct (digit_plain c Hc) as (_ & _ & _ & Hm & Hp & Hd).
  rewrite Hm, Hp. cbn [int_unsigned]. rewrite Hc.
  destruct (int_digits_digits s (digit_val c) H ltac:(lia)) as (v & Hv & Hv0).
  exists v. by rewrite Hv.
Qed.

Lemma split_without sep s :
  Forall (fun c => Ascii.eqb c sep = false) s -> split sep s = [s].
Proof.
  induction 1 as [|c s Hc _ IH]; cbn [split]; [done|]. by rewrite Hc, IH.
Qed.

Lemma split_at_dash a b :
  Forall (fun c => is_digit c = true) a ->
  Forall (fun c => is_digit c = true) b ->
  split "-"%char (a ++ "-"%char :: b) = [a; b].
Proof.
  intros Ha Hb.
  assert (Hsb : split "-"%char b = [b]).
  { apply split_without. eapply Forall_impl; [exact Hb|].
    intros c Hc. by destruct (digit_plain c Hc) as (_ & _ & _ & -> & _). }
  induction Ha as [|c a Hc _ IH]; cbn [app split].
  - by rewrite Hsb.
  - destruct (digit_plain c Hc) as (_ & _ & _ & -> & _). by rewrite IH.
Qed.

Lemma strip_without_spaces s :
  Forall (fun c => is_space c = false) s -> strip s = s.
Proof.
  intros H. unfold strip.
  assert (Hl : forall t, Forall (fun c => is_space c = false) t -> lstrip t = t).
  { intros [|c t] Ht; [done|]. apply Forall_cons in Ht as [Hc _].
    by apply lstrip_head. }
  rewrite (Hl s H), (Hl (rev s)) by (by apply Forall_rev).
  apply rev_involutive.
Qed.

Lemma parse_ranges_in_bounds self s found :
  parse_ranges self s = Ok found ->
  Forall (fun i => 0 <= i < len (pages self)) found.
Proof.
  unfold parse_ranges. destruct (blank s).
  - intros [= <-]. apply Forall_forall. intros i Hi.
    apply count_from_bounds in Hi. lia.
  - destruct (parse_parts _ _) as [raw|]; [|discriminate]. cbn [bind].
    intros [= <-]. apply Forall_forall. intros i Hi%list_elem_of_In.
    apply filter_In in Hi as [_ Hi]. unfold in_bounds in Hi. lia.
Qed.

Lemma parse_ranges_number self s :
  Forall (fun c => is_digit c = true) s -> s <> [] ->
  exists v,
    py_int s = Ok v /\ 0 <= v
    /\ parse_ranges self s = Ok (if in_bounds self (v - 1) then [v - 1] else []).
Proof.
  intros H Hne. destruct (py_int_digits s H Hne) as (v & Hv & Hv0).
  exists v. split; [done|]. split; [done|].
  unfold parse_ranges.
  assert (Hb : blank s = false).
  { unfold blank. rewrite (strip_digits s H). by destruct s. }
  rewrite Hb, (split_digits s H). cbn [parse_parts].
  rewrite (strip_digits s H). destruct s as [|c s']; [done|].
  rewrite (contains_digits _ H), Hv. cbn [bind app parse_parts List.filter].
  done.
Qed.

(** The V4 function differs: it keeps an index outside the document, and it
    raises on a blank string. *)
Remark V4_parse_ranges_unclamped :
  V4.parse_ranges five_pages (py "20") = Ok [19]
  /\ V4.parse_ranges five_pages (py " ") = Raise ValueError
  /\ snd (V4.export_pdf five_pages ∅ "out.pdf" default_settings
            (Some (py "20")) true) = Raise IndexError.
Proof. repeat split; vm_compute; reflexivity. Qed.

(** ** Progress values *)

Lemma fractions_app total a n k :
  fractions total a (n + k)
  = fractions total a n ++ fractions total (a + Z.of_nat n) k.
Proof. unfold fractions. by rewrite count_from_app, map_app. Qed.

Lemma fractions_length total a n : length (fractions total a n) = n.
Proof. unfold fractions. by rewrite length_map, count_from_length. Qed.

Lemma monotone_run (f : Z -> Q) n : forall a,
  (forall i, Qle (f i) (f (i + 1))) ->
  nondecreasing (map f (count_from a n)).
Proof.
  induction n as [|n IH]; intros a Hf; [done|].
  cbn [count_from map]. specialize (IH (a + 1) Hf).
  destruct n as [|n]; [done|].
  cbn [count_from map] in *. split; [apply Hf|exact IH].
Qed.

Lemma bounded_run (f : Z -> Q) n : forall a,
  (forall i, a <= i < a + Z.of_nat n -> in_unit (f i)) ->
  Forall in_unit (map f (count_from a n)).
Proof.
  induction n as [|n IH]; intros a Hf; cbn [count_from map].
  - apply Forall_nil_2.
  - apply Forall_cons_2; [apply Hf; lia|].
    apply IH. intros i Hi. apply Hf. lia.
Qed.

Lemma fraction_step i total : Qle (fraction i total) (fraction (i + 1) total).
Proof.
  unfold fraction, Qle; cbn [Qnum Qden].
  apply Z.mul_le_mono_nonneg_r; lia.
Qed.

Lemma fraction_in_unit i total : 0 <= i < total -> in_unit (fraction i total).
Proof.
  intros H. unfold in_unit, fraction, Qle; cbn [Qnum Qden].
  rewrite Z2Pos.id by lia. lia.
Qed.

Lemma scaled_step i total :
  Qle (fraction i total * (9 # 10))%Q (fraction (i + 1) total * (9 # 10))%Q.
Proof. apply Qmult_le_compat_r; [apply fraction_step|done]. Qed.

Lemma scaled_in_unit i total :
  0 <= i < total -> in_unit (fraction i total * (9 # 10))%Q.
Proof.
  intros H. unfold in_unit, fraction, Qle, Qmult; cbn [Qnum Qden].
  rewrite Pos2Z.inj_mul, Z2Pos.id by lia. lia.
Qed.

Lemma fractions_nondecreasing total a n : nondecreasing (fractions total a n).
Proof. apply monotone_run. intros i. apply fraction_step. Qed.

Lemma fractions_in_unit total a n :
  0 <= a -> a + Z.of_nat n <= total -> Forall in_unit (fractions total a n).
Proof.
  intros Ha Hn. apply bounded_run. intros i Hi. apply fraction_in_unit. lia.
Qed.

Lemma nondecreasing_from_zero l :
  Forall in_unit l -> nondecreasing l -> nondecreasing (0%Q :: l).
Proof.
  intros Hu Hn. destruct l as [|v l]; [done|].
  apply Forall_cons in Hu as [[Hv _] _]. by split.
Qed.

Lemma reprocess_loop_log settings cb total rest : forall self idx log,
  exists k,
    (k <= length rest)%nat
    /\ snd (fst (reprocess_loop self settings cb total idx rest log))
       = log ++ (if cb then fractions total idx k else []).
Proof.
  induction rest as [|img rest IH]; intros self idx log; cbn [reprocess_loop].
  - exists 0%nat. split; [done|]. cbn. destruct cb; by rewrite app_nil_r.
  - destruct (py_set _ _ _) as [ps|].
    + destruct (IH (with_pages self ps) (idx + 1)
                   (report cb log (fraction idx total))) as (k & Hk & ->).
      exists (S k). split; [cbn; lia|].
      unfold report, fractions. destruct cb; cbn [count_from map]; [|done].
      by rewrite <- app_assoc.
    + exists 0%nat. split; [lia|]. cbn. destruct cb; by rewrite app_nil_r.
Qed.

Lemma export_loop_log self cb total page_indices : forall i export_pages log,
  exists k,
    (k <= length page_indices)%nat
    /\ fst (export_loop self cb total i page_indices export_pages log)
       = log ++ (if cb then fractions total i k else []).
Proof.
  induction page_indices as [|idx rest IH]; intros i acc log; cbn [export_loop].
  - exists 0%nat. split; [done|]. cbn. destruct cb; by rewrite app_nil_r.
  - assert (Hstop : exists k : nat,
               (k <= length (idx :: rest))%nat
               /\ log = log ++ (if cb then fractions total i k else [])).
    { exists 0%nat. split; [cbn; lia|]. cbn. destruct cb; by rewrite app_nil_r. }
    assert (Hgo : forall acc1, exists k : nat,
               (k <= length (idx :: rest))%nat
               /\ fst (export_loop self cb total (i + 1) rest acc1
                         (report cb log (fraction i total)))
                  = log ++ (if cb then fractions total i k else [])).
    { intros acc1.
      destruct (IH (i + 1) acc1 (report cb log (fraction i total)))
        as (k & Hk & ->).
      exists (S k). split; [cbn; lia|].
      unfold report, fractions. destruct cb; cbn [count_from map]; [|done].
      by rewrite <- app_assoc. }
    destruct (py_get (selected self) idx) as [[]|]; [|apply Hgo|exact Hstop].
    destruct (py_get (pages self) idx); cbn [bind]; [apply Hgo|exact Hstop].
Qed.

Lemma export_pdf_log self fs out_path page_indices cb quality :
  snd (fst (export_pdf self fs out_path page_indices cb quality))
  = fst (export_loop self cb (len page_indices) 0 page_indices [] []).
Proof.
  unfold export_pdf.
  destruct (export_loop _ _ _ _ _ _ _) as [log [[|first others]|e]]; done.
Qed.

Lemma prepare_sheets_spec quality n sheets : forall idx pil_pages log,
  prepare_sheets quality n idx sheets pil_pages log
  = (pil_pages ++ map (fun sheet => Jpeg sheet quality) sheets,
     log ++ map (fun i => fraction i n * (9 # 10))%Q
                (count_from idx (length sheets))).
Proof.
  induction sheets as [|sheet rest IH]; intros idx acc log;
    cbn [prepare_sheets map length count_from].
  - by rewrite !app_nil_r.
  - rewrite IH, <- !app_assoc. done.
Qed.

(** ** The compact generator's progress *)

Section ComposerFacts.
Variable thumbnail_size : Z * Z -> Z * Z -> Z * Z.

Lemma place_cell_frame g left_to_right border page cell_idx st :
  let st' := place_cell thumbnail_size g left_to_right border page cell_idx st in
  sheet_img st' = sheet_img st
  /\ draw st' = draw st
  /\ sheet_images st' = sheet_images st
  /\ progress st' = progress st
  /\ length (heap st') = length (heap st).
Proof.
  unfold place_cell.
  destruct left_to_right, (thumbnail_size _ _), border;
    cbn; rewrite ?length_alter; done.
Qed.

Lemma export_cells_progress self g left_to_right border total cps s j :
  forall c0 st,
    let run := export_cells thumbnail_size self g left_to_right border total
                            cps s (count_from c0 j) st in
    exists k,
      (k <= j)%nat
      /\ progress (fst run) = progress st ++ fractions total (s * cps + c0) k
      /\ Z.of_nat k <= Z.max 0 (total - (s * cps + c0))
      /\ (snd run = Ok tt -> k = j \/ total <= s * cps + c0 + Z.of_nat k).
Proof.
  induction j as [|j IH]; intros c0 st; cbn [count_from export_cells].
  - exists 0%nat. cbn. rewrite app_nil_r.
    split; [lia|]. split; [done|]. split; [lia|]. intros _. by left.
  - destruct (Z.leb_spec total (s * cps + c0)) as [Hbreak|Hin].
    { exists 0%nat. cbn. rewrite app_nil_r.
      split; [lia|]. split; [done|]. split; [lia|]. intros _. right. lia. }
    destruct (py_get _ _) as [page|e].
    + set (st1 := place_cell thumbnail_size g left_to_right border page c0 st).
      set (st2 := set_progress (fraction (s * cps + c0) total) st1).
      destruct (IH (c0 + 1) st2) as (k & Hk & Hp & Hb & Hok).
      exists (S k). cbn zeta in *.
      split; [lia|]. split; [|split].
      * rewrite Hp. unfold st2, set_progress. cbn [progress].
        destruct (place_cell_frame g left_to_right border page c0 st)
          as (_ & _ & _ & Hpr & _).
        fold st1 in Hpr. rewrite Hpr, <- app_assoc. unfold fractions. cbn [count_from map app].
        do 4 f_equal. lia.
      * lia.
      * intros H. destruct (Hok H) as [->|Hge]; [by left|right; lia].
    + exists 0%nat. cbn. rewrite app_nil_r.
      split; [lia|]. split; [done|]. split; [lia|]. done.
Qed.

Lemma export_sheets_progress self g left_to_right border total cps m :
  0 < cps ->
  forall s0 st,
    let run := export_sheets thumbnail_size self g left_to_right border total
                             cps (count_from s0 m) st in
    exists k,
      progress (fst run) = progress st ++ fractions total (s0 * cps) k
      /\ Z.of_nat k <= Z.max 0 (total - s0 * cps).
Proof.
  intros Hcps.
  induction m as [|m IH]; intros s0 st; cbn [count_from export_sheets].
  - exists 0%nat. cbn. rewrite app_nil_r. split; [done|lia].
  - unfold py_range. rewrite Z.sub_0_r.
    destruct (export_cells_progress self g left_to_right border total cps s0
                (Z.to_nat cps) 0 (new_sheet g st)) as (k1 & Hk1 & Hp1 & Hb1 & Hok1).
    cbn zeta in *. rewrite Z.add_0_r in *.
    destruct (export_cells _ _ _ _ _ _ _ _ _ _) as [st2 [[]|e]]; cbn [fst snd] in *.
    + set (st3 := append_sheet
                    (if landscape (layout_options self)
                     then rotate_sheet st2 else st2)).
      assert (H3 : progress st3 = progress st2)
        by (unfold st3; destruct (landscape _); done).
      destruct (IH (s0 + 1) st3) as (k2 & Hp2 & Hb2). cbn zeta in *.
      destruct (Hok1 eq_refl) as [Hfull|Hend].
      * exists (k1 + k2)%nat. split; [|lia].
        rewrite Hp2, H3, Hp1, fractions_app, <- app_assoc.
        do 3 f_equal. lia.
      * assert (k2 = 0%nat) as -> by lia.
        exists k1. split; [|lia].
        rewrite Hp2, H3, Hp1. cbn. by rewrite app_nil_r.
    + exists k1. split; [done|lia].
Qed.

Lemma compose_export_progress self st :
  exists k,
    progress (fst (compose_export thumbnail_size self st))
    = progress st ++ fractions (len (pages (manager self))) 0 k
    /\ Z.of_nat k <= len (pages (manager self)).
Proof.
  unfold compose_export.
  destruct (geometry (layout_options self)) as [g|e] eqn:Hg.
  - assert (Hcps : 0 < cols g * rows g).
    { unfold geometry in Hg.
      destruct (grid _) as [c r] eqn:Hgrid.
      destruct (PAPER_SIZES_MM _) as [w h].
      destruct (landscape _);
        destruct (mm_to_px _ _); try discriminate;
        destruct (mm_to_px _ _); try discriminate;
        destruct (mm_to_px _ _); try discriminate;
        destruct (mm_to_px _ _); try discriminate;
        cbn in Hg; injection Hg as <-; cbn [cols rows];
        unfold grid in Hgrid;
        repeat (destruct (String.eqb _ _) in Hgrid);
        injection Hgrid as <- <-; lia. }
    unfold py_range.
    destruct (export_sheets_progress self g
                (String.eqb (reading_direction (layout_options self)) "Left to Right")
                (with_border (layout_options self))
                (len (pages (manager self))) (cols g * rows g)
                (Z.to_nat (sheet_count (len (pages (manager self)))
                                       (cols g * rows g) - 0))
                Hcps 0 st) as (k & Hp & Hb).
    exists k. cbn zeta in Hp. rewrite Z.mul_0_l in *. split; [exact Hp|].
    unfold len in *. lia.
  - exists 0%nat. cbn. rewrite app_nil_r. split; [done|]. unfold len. lia.
Qed.
End ComposerFacts.

Lemma zero_in_unit : in_unit 0%Q.
Proof. split; done. Qed.

Lemma one_in_unit : in_unit 1%Q.
Proof. split; done. Qed.

Lemma generate_compact_progress thumbnail_size self fs out_path :
  let run := _generate_compact_thread thumbnail_size self fs out_path in
  exists placing preparing final,
    snd (fst run) = 0%Q :: placing ++ preparing ++ [final]
    /\ nondecreasing (0%Q :: placing)
    /\ nondecreasing preparing
    /\ Forall in_unit (0%Q :: placing ++ preparing ++ [final])
    /\ (snd run = None -> final = 1%Q).
Proof.
  unfold _generate_compact_thread.
  destruct (compose_export_progress thumbnail_size self (mkCompose [] 0 0 [] [0%Q]))
    as (k & Hp & Hk).
  cbn [progress] in Hp.
  set (total := len (pages (manager self))) in *.
  assert (Hu : Forall in_unit (fractions total 0 k))
    by (apply fractions_in_unit; lia).
  assert (Hn : nondecreasing (0%Q :: fractions total 0 k))
    by (apply nondecreasing_from_zero; [done|apply fractions_nondecreasing]).
  destruct (compose_export _ _ _) as [st [[]|e]]; cbn [fst snd] in *.
  - rewrite prepare_sheets_spec. cbn [app].
    set (sheets := images_of st).
    set (preparing := map (fun i => fraction i (len sheets) * (9 # 10))%Q
                          (count_from 0 (length sheets))).
    assert (Hpu : Forall in_unit preparing).
    { apply bounded_run. intros i Hi. apply scaled_in_unit. unfold len. lia. }
    assert (Hpn : nondecreasing preparing).
    { apply monotone_run. intros i. apply scaled_step. }
    destruct (map (fun sheet => Jpeg sheet _) sheets) eqn:Hj; cbn [fst snd].
    + exists (fractions total 0 k), preparing, 0%Q.
      rewrite Hp, <- !app_assoc. cbn [app].
      split; [done|]. split; [done|]. split; [done|]. split; [|done].
      apply Forall_cons_2; [apply zero_in_unit|].
      apply Forall_app_2; [done|]. apply Forall_app_2; [done|].
      apply Forall_cons_2; [apply zero_in_unit|apply Forall_nil_2].
    + exists (fractions total 0 k), preparing, 1%Q.
      rewrite Hp, <- !app_assoc. cbn [app].
      split; [done|]. split; [done|]. split; [done|]. split; [|done].
      apply Forall_cons_2; [apply zero_in_unit|].
      apply Forall_app_2; [done|]. apply Forall_app_2; [done|].
      apply Forall_cons_2; [apply one_in_unit|apply Forall_nil_2].
  - exists (fractions total 0 k), [], 0%Q.
    rewrite Hp. cbn [app].
    split; [done|]. split; [done|]. split; [done|]. split; [|done].
    apply Forall_cons_2; [apply zero_in_unit|].
    apply Forall_app_2; [done|].
    apply Forall_cons_2; [apply zero_in_unit|apply Forall_nil_2].
Qed.

(** ** Landscape sheets: export path and preview path *)

(** C3, what the code does with two pages, 2x2, landscape.  The export path
    composes one sheet, turned once after both pastes.  The preview path
    returns two images for that one sheet: the first was turned after the
    first paste and received the second page afterwards; the second is the
    first turned again, two turns in all, so it has the size of an unturned
    sheet.  Neither is the export path's sheet.  With five portrait pages the
    export path composes two sheets and the preview returns four images of
    the first sheet only. *)
Theorem preview_turns_after_each_cell :
  exists sheet first second,
    export_sheet_images fit_within landscape_window = Ok [sheet]
    /\ rotations sheet = 1%nat
    /\ rotated_last sheet = true
    /\ pastes sheet = 2%nat
    /\ _compose_sheets_preview fit_within landscape_window 2
       = Ok (Some [first; second])
    /\ rotations first = 1%nat
    /\ rotated_last first = false
    /\ rotations second = 2%nat
    /\ second = Rotate270 first
    /\ first <> sheet
    /\ second <> sheet
    /\ size sheet = (1653, 2338)
    /\ size second = (2338, 1653)
    /\ (exists sheets previews,
          export_sheet_images fit_within (mkGUI five_pages 0 portrait_2x2)
          = Ok sheets
          /\ length sheets = 2%nat
          /\ _compose_sheets_preview fit_within
               (mkGUI five_pages 0 portrait_2x2) 2 = Ok (Some previews)
          /\ length previews = 4%nat
          /\ Forall (fun im => pastes im = 4%nat) previews).
Proof.
  eexists _, _, _.
  split; [vm_compute; reflexivity|].
  split; [vm_compute; reflexivity|].
  split; [vm_compute; reflexivity|].
  split; [vm_compute; reflexivity|].
  split; [vm_compute; reflexivity|].
  split; [vm_compute; reflexivity|].
  split; [vm_compute; reflexivity|].
  split; [vm_compute; reflexivity|].
  split; [vm_compute; reflexivity|].
  split; [discriminate|].
  split; [discriminate|].
  split; [vm_compute; reflexivity|].
  split; [vm_compute; reflexivity|].
  eexists _, _.
  split; [vm_compute; reflexivity|].
  split; [vm_compute; reflexivity|].
  split; [vm_compute; reflexivity|].
  split; [vm_compute; reflexivity|].
  repeat (apply Forall_cons_2; [vm_compute; reflexivity|]). apply Forall_nil_2.
Qed.

(** The export path, for every document and layout: in landscape each sheet
    is turned once, as the last operation on it. *)
Section ExportPathFacts.
Variable thumbnail_size : Z * Z -> Z * Z -> Z * Z.

Lemma place_cell_heap g left_to_right border page cell_idx st :
  draw st = sheet_img st ->
  let st' := place_cell thumbnail_size g left_to_right border page cell_idx st in
  (forall a, a <> sheet_img st -> heap st' !! a = heap st !! a)
  /\ rotations (deref (heap st') (sheet_img st))
     = rotations (deref (heap st) (sheet_img st)).
Proof.
  intros Hd. unfold place_cell.
  destruct left_to_right, (thumbnail_size _ _), border;
    cbn [heap]; rewrite ?Hd; (split;
      [intros a Ha; by rewrite ?list_lookup_alter_ne by done
      |unfold deref; rewrite ?list_lookup_alter_eq;
       by destruct (heap st !! sheet_img st)]).
Qed.

Lemma export_cells_heap self g left_to_right border total cps s cells :
  forall st,
    draw st = sheet_img st ->
    let st' := fst (export_cells thumbnail_size self g left_to_right border
                                 total cps s cells st) in
    sheet_img st' = sheet_img st
    /\ sheet_images st' = sheet_images st
    /\ length (heap st') = length (heap st)
    /\ (forall a, a <> sheet_img st -> heap st' !! a = heap st !! a)
    /\ rotations (deref (heap st') (sheet_img st))
       = rotations (deref (heap st) (sheet_img st)).
Proof.
  induction cells as [|cell_idx rest IH]; intros st Hd; cbn [export_cells].
  - done.
  - destruct (total <=? s * cps + cell_idx); [done|].
    destruct (py_get _ _) as [page|e]; [|done].
    set (st1 := place_cell thumbnail_size g left_to_right border page cell_idx st).
    set (st2 := set_progress (fraction (s * cps + cell_idx) total) st1).
    destruct (place_cell_frame thumbnail_size g left_to_right border page
                cell_idx st) as (F1 & F2 & F3 & _ & F5).
    destruct (place_cell_heap g left_to_right border page cell_idx st Hd)
      as (H1 & H2).
    fold st1 in F1, F2, F3, F5, H1, H2.
    assert (Hd2 : draw st2 = sheet_img st2) by (cbn; congruence).
    destruct (IH st2 Hd2) as (I1 & I2 & I3 & I4 & I5).
    cbn [st2 set_progress sheet_img heap sheet_images draw] in I1, I2, I3, I4, I5.
    cbn zeta. rewrite F1 in *.
    split; [congruence|]. split; [congruence|]. split; [congruence|].
    split; [|congruence].
    intros a Ha. rewrite I4 by done. by apply H1.
Qed.

Lemma sheets_turned_once_frame st st' :
  sheet_images st' = sheet_images st ->
  (length (heap st) <= length (heap st'))%nat ->
  (forall a, (a < length (heap st))%nat -> heap st' !! a = heap st !! a) ->
  sheets_turned_once st -> sheets_turned_once st'.
Proof.
  intros Hs Hl Hh. unfold sheets_turned_once. rewrite Hs.
  intros H. eapply Forall_impl; [exact H|].
  intros a [Ha Ht]. cbn beta. split; [lia|].
  unfold deref. by rewrite Hh.
Qed.

Lemma export_sheets_turned_once self g left_to_right border total cps sheets :
  landscape (layout_options self) = true ->
  forall st,
    sheets_turned_once st ->
    sheets_turned_once
      (fst (export_sheets thumbnail_size self g left_to_right border total
                          cps sheets st)).
Proof.
  intros Hland.
  induction sheets as [|s rest IH]; intros st Hinv; cbn [export_sheets]; [done|].
  rewrite Hland.
  set (st1 := new_sheet g st).
  assert (Hd1 : draw st1 = sheet_img st1) by done.
  destruct (export_cells_heap self g left_to_right border total cps s
              (py_range 0 cps) st1 Hd1) as (C1 & C2 & C3 & C4 & C5).
  cbn zeta in *.
  destruct (export_cells _ _ _ _ _ _ _ _ _ _) as [st2 r]; cbn [fst] in *.
  cbn [st1 new_sheet sheet_img sheet_images heap] in C1, C2, C3, C4, C5.
  rewrite length_app in C3. cbn [length] in C3.
  assert (Hold : forall a, (a < length (heap st))%nat ->
                           heap st2 !! a = heap st !! a).
  { intros a Ha. rewrite C4 by lia. by apply lookup_app_l. }
  assert (Hinv2 : sheets_turned_once st2)
    by (apply (sheets_turned_once_frame st); [done|lia|done|done]).
  destruct r as [[]|e]; cbn [fst]; [|done].
  apply IH. unfold sheets_turned_once, append_sheet, rotate_sheet.
  cbn [heap sheet_images sheet_img].
  apply Forall_app_2.
  - apply (sheets_turned_once_frame st2
             (mkCompose (heap st2 ++ [Rotate270 (deref (heap st2) (sheet_img st2))])
                        0 0 (sheet_images st2) [])); cbn [heap sheet_images];
      [done|rewrite length_app; lia| |done].
    intros a Ha. by apply lookup_app_l.
  - apply Forall_cons_2; [|apply Forall_nil_2].
    rewrite length_app. cbn [length]. split; [lia|].
    unfold deref at 1. rewrite list_lookup_middle by done. cbn [default].
    unfold turned_once. cbn [id rotations rotated_last]. split; [|done].
    rewrite C1, C5. unfold deref.
    rewrite list_lookup_middle by done. done.
Qed.

Lemma export_path_turns_once self sheets :
  landscape (layout_options self) = true ->
  export_sheet_images thumbnail_size self = Ok sheets ->
  Forall turned_once sheets.
Proof.
  intros Hland. unfold export_sheet_images, compose_export.
  destruct (geometry _) as [g|e]; [|discriminate].
  pose proof (export_sheets_turned_once self g
                (String.eqb (reading_direction (layout_options self)) "Left to Right")
                (with_border (layout_options self))
                (len (pages (manager self))) (cols g * rows g)
                (py_range 0 (sheet_count (len (pages (manager self)))
                                         (cols g * rows g)))
                Hland (mkCompose [] 0 0 [] [])) as Hinv.
  cbn zeta in Hinv.
  destruct (export_sheets _ _ _ _ _ _ _ _ _) as [st [[]|e]]; [|discriminate].
  intros [= <-]. cbn [fst] in Hinv.
  specialize (Hinv ltac:(apply Forall_nil_2)).
  unfold images_of. apply Forall_fmap.
  eapply Forall_impl; [exact Hinv|]. by intros a [_ Ht].
Qed.
End ExportPathFacts.

(** * Further properties of the document model *)

(** ** Moving pages *)

Lemma py_get_nat {A : Type} (l : list A) (n : nat) x :
  l !! n = Some x -> py_get l (Z.of_nat n) = Ok x.
Proof.
  intros H. pose proof (lookup_lt_Some _ _ _ H) as Hlt.
  unfold py_get. rewrite py_pos_nonneg by (unfold len; lia).
  by rewrite Nat2Z.id, H.
Qed.

Lemma py_set_nat {A : Type} (l : list A) (n : nat) x :
  (n < length l)%nat -> py_set l (Z.of_nat n) x = Ok (<[n := x]> l).
Proof.
  intros Hlt. unfold py_set. rewrite py_pos_nonneg by (unfold len; lia).
  by rewrite Nat2Z.id.
Qed.

Lemma py_swap_nat {A : Type} (l : list A) (a b : nat) :
  (a < length l)%nat -> (b < length l)%nat ->
  py_swap l (Z.of_nat a) (Z.of_nat b) = Ok (swapped l a b).
Proof.
  intros Ha Hb.
  destruct (lookup_lt_is_Some_2 l a Ha) as [x Hx].
  destruct (lookup_lt_is_Some_2 l b Hb) as [y Hy].
  unfold py_swap, swapped. rewrite Hx, Hy.
  rewrite (py_get_nat l b y Hy), (py_get_nat l a x Hx). cbn [bind].
  rewrite py_set_nat by done. cbn [bind].
  rewrite py_set_nat by (by rewrite length_insert). done.
Qed.

Lemma py_swap_in_range {A : Type} (l : list A) (i j : Z) :
  0 <= i < len l -> 0 <= j < len l ->
  py_swap l i j = Ok (swapped l (Z.to_nat i) (Z.to_nat j)).
Proof.
  intros Hi Hj. unfold len in *.
  rewrite <- (py_swap_nat l (Z.to_nat i) (Z.to_nat j)) by lia.
  by rewrite !Z2Nat.id by lia.
Qed.

Lemma swapped_length {A : Type} (l : list A) a b :
  length (swapped l a b) = length l.
Proof.
  unfold swapped. destruct (l !! a), (l !! b); try done.
  by rewrite !length_insert.
Qed.

Lemma swapped_lookup {A : Type} (l : list A) a b k :
  (a < length l)%nat -> (b < length l)%nat ->
  swapped l a b !! k
  = if decide (k = b) then l !! a
    else if decide (k = a) then l !! b else l !! k.
Proof.
  intros Ha Hb.
  destruct (lookup_lt_is_Some_2 l a Ha) as [x Hx].
  destruct (lookup_lt_is_Some_2 l b Hb) as [y Hy].
  unfold swapped. rewrite Hx, Hy.
  destruct (decide (k = b)) as [->|Hkb].
  - by rewrite list_lookup_insert_eq by (by rewrite length_insert).
  - rewrite list_lookup_insert_ne by done.
    destruct (decide (k = a)) as [->|Hka].
    + by rewrite list_lookup_insert_eq.
    + by rewrite list_lookup_insert_ne.
Qed.

Lemma swapped_back {A : Type} (l : list A) a b :
  (a < length l)%nat -> (b < length l)%nat ->
  swapped (swapped l a b) b a = l.
Proof.
  intros Ha Hb. apply list_eq. intros k.
  rewrite swapped_lookup by (by rewrite swapped_length).
  rewrite !swapped_lookup by done.
  repeat case_decide; subst; try done.
Qed.

Lemma move_page_in_range self index direction :
  aligned self ->
  0 <= index < len (pages self) ->
  0 <= index + direction < len (pages self) ->
  move_page self index direction
  = (mkManager
       (swapped (original_pages self) (Z.to_nat index) (Z.to_nat (index + direction)))
       (swapped (pages self) (Z.to_nat index) (Z.to_nat (index + direction)))
       (swapped (selected self) (Z.to_nat index) (Z.to_nat (index + direction))),
     Ok tt).
Proof.
  intros [Ho Hs] Hi Hn. unfold move_page.
  replace (_ && _ && _ && _) with true by (symmetry; rewrite !andb_true_iff; lia).
  rewrite py_swap_in_range by done.
  cbn [with_pages original_pages pages selected].
  rewrite py_swap_in_range by (unfold len in *; lia).
  cbn [original_pages pages selected].
  rewrite py_swap_in_range by (unfold len in *; lia). done.
Qed.

Lemma move_page_out_of_range self index direction :
  ~ (0 <= index < len (pages self)
     /\ 0 <= index + direction < len (pages self)) ->
  move_page self index direction = (self, Ok tt).
Proof.
  intros H. unfold move_page.
  replace (_ && _ && _ && _) with false; [done|].
  symmetry. apply not_true_is_false. rewrite !andb_true_iff. lia.
Qed.

(** X1.  On a document whose three lists have one length, moving a page and
    then moving it back ([index + direction], [- direction]) raises nothing
    and restores the document exactly.  A move that would start or end
    outside the document, whatever the lists hold, raises nothing and
    changes nothing. *)
Theorem move_page_and_back :
  forall (self : PDFManager) (index direction : Z),
    (aligned self ->
     let there := move_page self index direction in
     let back := move_page (fst there) (index + direction) (- direction) in
     snd there = Ok tt /\ snd back = Ok tt /\ fst back = self)
    /\ (~ (0 <= index < len (pages self)
           /\ 0 <= index + direction < len (pages self)) ->
        move_page self index direction = (self, Ok tt)).
Proof.
  intros self index direction. split; [|apply move_page_out_of_range].
  intros Ha there back.
  destruct (decide (0 <= index < len (pages self)
                    /\ 0 <= index + direction < len (pages self)))
    as [[Hi Hn]|Hout].
  - unfold back, there. rewrite (move_page_in_range _ _ _ Ha Hi Hn).
    cbn [fst snd]. destruct Ha as [Ho Hs].
    assert (Ha' : aligned
                    (mkManager
                       (swapped (original_pages self) (Z.to_nat index)
                                (Z.to_nat (index + direction)))
                       (swapped (pages self) (Z.to_nat index)
                                (Z.to_nat (index + direction)))
                       (swapped (selected self) (Z.to_nat index)
                                (Z.to_nat (index + direction)))))
      by (split; cbn; rewrite !swapped_length; done).
    rewrite move_page_in_range; cbn [pages original_pages selected];
      unfold len in *; rewrite ?swapped_length; try done;
      [|replace (index + direction + - direction) with index by lia; lia].
    replace (index + direction + - direction) with index by lia.
    cbn [fst snd]. split; [done|]. split; [done|].
    rewrite !swapped_back by lia. by destruct self.
  - unfold back, there. rewrite (move_page_out_of_range _ _ _ Hout).
    cbn [fst snd]. rewrite move_page_out_of_range; [done|].
    replace (index + direction + - direction) with index by lia. tauto.
Qed.

Lemma move_page_and_back_witness :
  aligned two_pages
  /\ fst (move_page (fst (move_page two_pages 0 1)) 1 (-1)) = two_pages
  /\ pages (fst (move_page two_pages 0 1)) = [light_page; dark_page]
  /\ move_page two_pages 1 1 = (two_pages, Ok tt)
  /\ move_page two_pages (-1) 1 = (two_pages, Ok tt).
Proof.
  assert (Ha : aligned two_pages) by (split; reflexivity).
  split; [exact Ha|].
  split; [exact (proj2 (proj2 (proj1 (move_page_and_back two_pages 0 1) Ha)))|].
  split; [reflexivity|].
  split.
  - apply (proj2 (move_page_and_back two_pages 1 1)).
    unfold len. cbn. lia.
  - apply (proj2 (move_page_and_back two_pages (-1) 1)).
    unfold len. cbn. lia.
Defined.

(** X2.  A move inside the document exchanges the entries at [index] and
    [index + direction] in all three lists, so a page keeps its original and
    its selected flag, and changes no other entry. *)
Theorem move_page_exchanges :
  forall (self : PDFManager) (index direction : Z) (k : nat),
    aligned self ->
    0 <= index < len (pages self) ->
    0 <= index + direction < len (pages self) ->
    let a := Z.to_nat index in
    let b := Z.to_nat (index + direction) in
    let self' := fst (move_page self index direction) in
    pages self' !! b = pages self !! a
    /\ pages self' !! a = pages self !! b
    /\ original_pages self' !! b = original_pages self !! a
    /\ original_pages self' !! a = original_pages self !! b
    /\ selected self' !! b = selected self !! a
    /\ selected self' !! a = selected self !! b
    /\ (k <> a -> k <> b ->
        pages self' !! k = pages self !! k
        /\ original_pages self' !! k = original_pages self !! k
        /\ selected self' !! k = selected self !! k).
Proof.
  intros self index direction k Ha Hi Hn a b self'.
  unfold self'. rewrite (move_page_in_range _ _ _ Ha Hi Hn).
  cbn [fst pages original_pages selected]. destruct Ha as [Ho Hs].
  unfold len in *.
  assert (Hap : (a < length (pages self))%nat) by (unfold a; lia).
  assert (Hbp : (b < length (pages self))%nat) by (unfold b; lia).
  fold a b.
  rewrite !swapped_lookup by lia.
  repeat case_decide; try done; repeat split; try done; try congruence;
    intros; repeat case_decide; done.
Qed.

Lemma move_page_exchanges_witness :
  aligned second_deselected
  /\ pages (fst (move_page second_deselected 1 (-1))) !! 0%nat = Some light_page
  /\ selected (fst (move_page second_deselected 1 (-1))) !! 0%nat = Some false.
Proof.
  assert (Ha : aligned second_deselected) by (split; reflexivity).
  split; [exact Ha|].
  destruct (move_page_exchanges second_deselected 1 (-1) 0 Ha
              ltac:(unfold len; cbn; lia) ltac:(unfold len; cbn; lia))
    as (H1 & _ & _ & _ & H5 & _).
  split; [exact H1|exact H5].
Defined.

(** ** Inserting pages *)

Lemma insert_pos_le {A : Type} (l : list A) i : (insert_pos l i <= length l)%nat.
Proof. unfold insert_pos, len. destruct (Z.ltb_spec i 0); lia. Qed.

Lemma insert_pos_same_length {A B : Type} (l : list A) (k : list B) i :
  length l = length k -> insert_pos l i = insert_pos k i.
Proof. intros H. unfold insert_pos, len. by rewrite H. Qed.

Lemma ins1_lookup {A : Type} (l : list A) i x (k : nat) :
  ins1 l i x !! k
  = if decide (k < insert_pos l i)%nat then l !! k
    else if decide (k = insert_pos l i) then Some x
    else l !! (k - 1)%nat.
Proof.
  pose proof (insert_pos_le l i) as Hle.
  change (ins1 l i x)
    with (take (insert_pos l i) l ++ x :: drop (insert_pos l i) l).
  set (j := insert_pos l i) in *.
  destruct (decide (k < j)%nat) as [Hlt|Hge].
  - rewrite lookup_app_l by (rewrite length_take; lia).
    by rewrite lookup_take_lt.
  - rewrite lookup_app_r by (rewrite length_take; lia).
    rewrite length_take, Nat.min_l by lia.
    destruct (decide (k = j)) as [->|Hne].
    + by rewrite Nat.sub_diag.
    + rewrite lookup_cons_ne_0 by lia.
      rewrite lookup_drop. f_equal. lia.
Qed.

Lemma insertable_cases {A : Type} (l : list A) i :
  (insertable l i = true
   <-> fits_ssize_t i = true \/ - len l <= i <= len l)
  /\ (insertable l i = false
      <-> fits_ssize_t i = false /\ ~ - len l <= i <= len l).
Proof.
  unfold insertable.
  destruct (fits_ssize_t i); cbn [orb].
  - split; split; try done; [by left|by intros [? _]].
  - destruct (Z.leb_spec (- len l) i), (Z.leb_spec i (len l)); cbn [andb];
      (split; split; try done; try lia; try (intros [?|?]; [done|lia]);
       try (intros [_ H]; lia); try (by right); try (intros _; split; [done|lia])).
Qed.

(** X3.  The index of [insert_blank_page] and [insert_text_page] is first
    converted to a machine index.  When it converts (it fits 64 bits, or
    lies between [- len] and [len]), a page inserted into a non-empty
    aligned document sits at the clamped position [j] in all three lists: a
    blank (or text-on-blank) image of the first page's size, its original
    the same image, its flag true; entries before [j] stay and entries from
    [j] on move up by one, for the blank page and for the text page alike.
    For [0 <= index <= len] the position is [index].  When the index does
    not convert, both calls raise OverflowError and change nothing. *)
Theorem insert_page_shifts :
  forall (self : PDFManager) (index : Z) (text : str) (first : Image)
         (rest : list Image) (k : nat),
    aligned self ->
    pages self = first :: rest ->
    let j := insert_pos (pages self) index in
    let blank := Blank (width first) (height first) in
    let noted := Text blank 50 50 text in
    let self' := fst (insert_blank_page self index) in
    let self'' := fst (insert_text_page self index text) in
    let converts :=
      fits_ssize_t index = true
      \/ - len (pages self) <= index <= len (pages self) in
    (converts ->
       snd (insert_blank_page self index) = Ok tt
       /\ snd (insert_text_page self index text) = Ok tt
       /\ pages self' !! j = Some blank
       /\ original_pages self' !! j = Some blank
       /\ selected self' !! j = Some true
       /\ pages self'' !! j = Some noted
       /\ original_pages self'' !! j = Some noted
       /\ selected self'' !! j = Some true
       /\ ((k < j)%nat ->
           pages self' !! k = pages self !! k
           /\ original_pages self' !! k = original_pages self !! k
           /\ selected self' !! k = selected self !! k
           /\ pages self'' !! k = pages self !! k
           /\ original_pages self'' !! k = original_pages self !! k
           /\ selected self'' !! k = selected self !! k)
       /\ ((j <= k)%nat ->
           pages self' !! S k = pages self !! k
           /\ original_pages self' !! S k = original_pages self !! k
           /\ selected self' !! S k = selected self !! k
           /\ pages self'' !! S k = pages self !! k
           /\ original_pages self'' !! S k = original_pages self !! k
           /\ selected self'' !! S k = selected self !! k))
    /\ (~ converts ->
          insert_blank_page self index = (self, Raise OverflowError)
          /\ insert_text_page self index text = (self, Raise OverflowError))
    /\ (0 <= index <= len (pages self) -> j = Z.to_nat index).
Proof.
  intros self index text first rest k Ha Hp j blank noted self' self'' converts.
  pose proof Ha as [Ho Hs].
  assert (Hjo : insert_pos (original_pages self) index = j)
    by (by apply insert_pos_same_length).
  assert (Hjs : insert_pos (selected self) index = j)
    by (symmetry; by apply insert_pos_same_length).
  assert (Hb : insert_blank_page self index = insert_page self index blank)
    by (unfold insert_blank_page; by rewrite Hp).
  assert (Ht : insert_text_page self index text = insert_page self index noted)
    by (unfold insert_text_page; by rewrite Hp).
  destruct (insertable_cases (pages self) index) as [Hyes Hno].
  unfold self', self''. rewrite Hb, Ht, !insert_page_spec by done.
  split; [|split].
  - intros Hc. rewrite (proj2 Hyes Hc). cbn [fst snd].
    unfold inserted. cbn [pages original_pages selected copy].
    rewrite !ins1_lookup, Hjo, Hjs. fold j.
    repeat split; intros; repeat case_decide; try lia; try done;
      try (f_equal; lia).
  - intros Hc.
    assert (Hi : insertable (pages self) index = false).
    { apply Hno. split; [|intros Hw; apply Hc; by right].
      destruct (fits_ssize_t index); [|done]. exfalso. apply Hc. by left. }
    by rewrite Hi.
  - intros Hin. unfold j, insert_pos. destruct (Z.ltb_spec index 0); [lia|].
    f_equal. lia.
Qed.

Lemma insert_page_shifts_witness :
  aligned two_pages
  /\ pages two_pages = dark_page :: [light_page]
  /\ pages (fst (insert_blank_page two_pages 1)) !! 1%nat = Some (Blank 2 1)
  /\ pages (fst (insert_text_page two_pages 1 (py "note"))) !! 2%nat
     = Some light_page
  /\ insert_blank_page two_pages (2 ^ 63)
     = (two_pages, Raise OverflowError).
Proof.
  assert (Ha : aligned two_pages) by (split; reflexivity).
  split; [exact Ha|]. split; [reflexivity|].
  destruct (insert_page_shifts two_pages 1 (py "note") dark_page [light_page] 1
              Ha eq_refl) as (Hyes & _ & _).
  destruct (Hyes ltac:(by left))
    as (_ & _ & H1 & _ & _ & _ & _ & _ & _ & Hup).
  split; [exact H1|].
  split; [exact (proj1 (proj2 (proj2 (proj2 (Hup ltac:(vm_compute; lia)))))) |].
  destruct (insert_page_shifts two_pages (2 ^ 63) [] dark_page [light_page] 0
              Ha eq_refl) as (_ & Hno & _).
  apply Hno. intros [H|H]; [discriminate H|].
  vm_compute in H. destruct H as [_ H]. by apply H.
Defined.

(** X4.  Inserting into an empty document: the V6 calls return without a
    change and without an exception; the V4 calls raise IndexError (they read [pages[0]]) and leave
    the document as it was. *)
Theorem insert_into_empty_document :
  forall (self : PDFManager) (index : Z) (text : str),
    pages self = [] ->
    insert_blank_page self index = (self, Ok tt)
    /\ insert_text_page self index text = (self, Ok tt)
    /\ V4.insert_blank_page self index = (self, Raise IndexError)
    /\ V4.insert_text_page self index text = (self, Raise IndexError).
Proof.
  intros self index text Hp.
  unfold insert_blank_page, insert_text_page, V4.insert_blank_page,
    V4.insert_text_page.
  rewrite Hp. done.
Qed.

Lemma insert_into_empty_document_witness :
  pages (mkManager [] [] []) = []
  /\ insert_blank_page (mkManager [] [] []) 0 = (mkManager [] [] [], Ok tt)
  /\ V4.insert_blank_page (mkManager [] [] []) 0
     = (mkManager [] [] [], Raise IndexError).
Proof.
  split; [reflexivity|].
  destruct (insert_into_empty_document (mkManager [] [] []) 0 [] eq_refl)
    as (H1 & _ & H3 & _).
  split; assumption.
Defined.

(** ** Keeping and dropping pages *)

(** X5.  Toggling the keep flag of a page twice restores the document,
    whatever the index; a toggle never touches the page images, and changes
    the flag list at most at the position the index denotes. *)
Theorem toggle_page_keep_twice :
  forall (self : PDFManager) (current_index : Z) (k : nat),
    let once := fst (toggle_page_keep self current_index) in
    let twice := fst (toggle_page_keep once current_index) in
    twice = self
    /\ pages once = pages self
    /\ original_pages once = original_pages self
    /\ length (selected once) = length (selected self)
    /\ (py_pos (selected self) current_index <> Some k ->
        selected once !! k = selected self !! k)
    /\ (pages self <> [] ->
        py_pos (selected self) current_index = Some k ->
        selected once !! k = negb <$> selected self !! k).
Proof.
  intros self current_index k once twice.
  unfold twice, once, toggle_page_keep.
  destruct (pages self) as [|p ps] eqn:Hp; cbn [fst].
  { rewrite Hp. cbn [fst]. repeat split; try done. }
  unfold py_get, py_set.
  destruct (py_pos (selected self) current_index) as [n|] eqn:Hn; cbn [fst].
  2:{ rewrite Hp, Hn. cbn [fst]. repeat split; try done. }
  pose proof (py_pos_lt _ _ _ Hn) as Hlt.
  destruct (lookup_lt_is_Some_2 _ _ Hlt) as [b Hb]. rewrite Hb.
  cbn [of_option fst pages original_pages selected].
  assert (Hn' : py_pos (<[n := negb b]> (selected self)) current_index = Some n)
    by (rewrite <- Hn; apply py_pos_same_length; apply length_insert).
  rewrite Hn', list_lookup_insert_eq by done.
  cbn [of_option fst pages original_pages selected].
  rewrite list_insert_insert_eq, negb_involutive, (list_insert_id _ _ _ Hb).
  split; [destruct self; cbn in *; by subst|].
  split; [done|]. split; [done|]. split; [apply length_insert|].
  split.
  - intros Hne. rewrite list_lookup_insert_ne; [done|congruence].
  - intros _ [= <-]. by rewrite list_lookup_insert_eq, Hb.
Qed.

(** ** Reprocessing and reverting one page *)

Lemma reprocess_current_page_out self index settings :
  ~ 0 <= index < len (original_pages self) ->
  reprocess_current_page self index settings = (self, Ok tt).
Proof.
  intros H. unfold reprocess_current_page.
  replace (_ && _) with false; [done|].
  symmetry. apply not_true_is_false. rewrite andb_true_iff. lia.
Qed.

Lemma reprocess_current_page_in self index settings img :
  0 <= index < len (original_pages self) ->
  0 <= index < len (pages self) ->
  original_pages self !! Z.to_nat index = Some img ->
  reprocess_current_page self index settings
  = (with_pages self
       (<[Z.to_nat index := process_image self img settings]> (pages self)),
     Ok tt).
Proof.
  intros Ho Hp Himg. unfold reprocess_current_page.
  replace (_ && _) with true by (symmetry; rewrite andb_true_iff; lia).
  unfold py_get, py_set. rewrite !py_pos_nonneg by done.
  by rewrite Himg.
Qed.

(** X6.  [reprocess_current_page] does nothing, and raises nothing, for an
    index outside [0, len): a negative index is not read from the end.  For
    an index inside an aligned document it replaces exactly that processed
    page by the pipeline's result on its original and leaves the originals
    and the flags alone.  Doing it twice is doing it once. *)
Theorem reprocess_current_page_effect :
  forall (self : PDFManager) (index : Z) (settings : Settings),
    let run := reprocess_current_page self index settings in
    (~ 0 <= index < len (original_pages self) -> run = (self, Ok tt))
    /\ (aligned self -> 0 <= index < len (pages self) ->
        exists img,
          original_pages self !! Z.to_nat index = Some img
          /\ snd run = Ok tt
          /\ pages (fst run)
             = <[Z.to_nat index := process_image self img settings]> (pages self))
    /\ original_pages (fst run) = original_pages self
    /\ selected (fst run) = selected self
    /\ fst (reprocess_current_page (fst run) index settings) = fst run.
Proof.
  intros self index settings run. unfold run.
  split; [apply reprocess_current_page_out|].
  split.
  { intros [Ho Hs] Hp. unfold len in *.
    destruct (lookup_lt_is_Some_2 (original_pages self) (Z.to_nat index)
                ltac:(lia)) as [img Himg].
    exists img. split; [done|].
    rewrite (reprocess_current_page_in _ _ _ img); unfold len; try done; lia. }
  destruct (decide (0 <= index < len (original_pages self))) as [Ho|Ho].
  2:{ rewrite reprocess_current_page_out by done. cbn [fst].
      rewrite reprocess_current_page_out by done. done. }
  destruct (decide (0 <= index < len (pages self))) as [Hp|Hp].
  - unfold len in *.
    destruct (lookup_lt_is_Some_2 (original_pages self) (Z.to_nat index)
                ltac:(lia)) as [img Himg].
    rewrite (reprocess_current_page_in _ _ _ img) by (unfold len; done).
    cbn [fst with_pages original_pages selected].
    split; [done|]. split; [done|].
    rewrite (reprocess_current_page_in _ _ _ img);
      cbn [with_pages original_pages pages]; unfold len;
      rewrite ?length_insert; try done.
    cbn [fst with_pages original_pages pages selected].
    by rewrite list_insert_insert_eq.
  - assert (Hraise : exists e, reprocess_current_page self index settings
                               = (self, Raise e)).
    { unfold reprocess_current_page.
      replace (_ && _) with true by (symmetry; rewrite andb_true_iff; lia).
      destruct (py_get _ _); [|by eexists].
      unfold py_set, py_pos.
      destruct (Z.leb_spec 0 index); [|lia].
      destruct (Z.ltb_spec index (len (pages self))); [lia|by eexists]. }
    destruct Hraise as [e He]. rewrite He. cbn [fst]. by rewrite He.
Qed.

(** X7.  [revert_current_page] reads a negative index from the end, as a
    Python list does: on a non-empty aligned document index [-1] reverts the
    last page.  For an index that is not negative, reverting the page and
    then reprocessing it leaves what reprocessing it alone leaves. *)
Theorem revert_then_reprocess_current :
  forall (self : PDFManager) (index : Z) (settings : Settings),
    (0 <= index ->
     fst (reprocess_current_page (fst (revert_current_page self index))
                                 index settings)
     = fst (reprocess_current_page self index settings))
    /\ (aligned self -> pages self <> [] ->
        exists last,
          original_pages self !! (length (pages self) - 1)%nat = Some last
          /\ revert_current_page self (-1)
             = (with_pages self
                  (<[(length (pages self) - 1)%nat := last]> (pages self)),
                Ok tt)
          /\ reprocess_current_page self (-1) settings = (self, Ok tt)).
Proof.
  intros self index settings. split.
  - intros H0. unfold revert_current_page.
    destruct (pages self) as [|p ps] eqn:Hp; [done|]. rewrite <- Hp.
    unfold py_get at 1.
    destruct (py_pos (original_pages self) index) as [n|] eqn:Hn; [|done].
    pose proof (py_pos_lt _ _ _ Hn) as Hlt.
    destruct (lookup_lt_is_Some_2 _ _ Hlt) as [img Himg]. rewrite Himg.
    cbn [of_option]. unfold py_set.
    destruct (py_pos (pages self) index) as [n'|] eqn:Hn'; [|done].
    pose proof (py_pos_lt _ _ _ Hn') as Hlt'.
    assert (n = Z.to_nat index /\ n' = n) as [-> ->].
    { unfold py_pos in Hn, Hn'. destruct (Z.leb_spec 0 index); [|lia].
      destruct (index <? len (original_pages self)); [|done].
      destruct (index <? len (pages self)); [|done].
      split; congruence. }
    cbn [fst]. unfold copy.
    rewrite (reprocess_current_page_in _ _ _ img);
      cbn [with_pages original_pages pages]; unfold len;
      rewrite ?length_insert; try done; try lia.
    rewrite (reprocess_current_page_in _ _ _ img); unfold len; try done; try lia.
    cbn [fst with_pages]. by rewrite list_insert_insert_eq.
  - intros [Ho Hs] Hne.
    assert (Hpos : (0 < length (pages self))%nat)
      by (destruct (pages self); [done|cbn; lia]).
    destruct (lookup_lt_is_Some_2 (original_pages self) (length (pages self) - 1)
                ltac:(lia)) as [last Hlast].
    exists last. split; [done|]. split.
    + unfold revert_current_page.
      destruct (pages self) as [|p ps] eqn:Hp; [done|].
      rewrite <- Hp in Ho, Hs, Hpos, Hlast |- *.
      unfold py_get, py_set, py_pos, len. cbn [Z.leb Z.compare].
      replace (0 <=? Z.of_nat (length (original_pages self)) + -1) with true
        by (symmetry; apply Z.leb_le; lia).
      replace (0 <=? Z.of_nat (length (pages self)) + -1) with true
        by (symmetry; apply Z.leb_le; lia).
      replace (Z.to_nat (Z.of_nat (length (original_pages self)) + -1))
        with (length (pages self) - 1)%nat by lia.
      replace (Z.to_nat (Z.of_nat (length (pages self)) + -1))
        with (length (pages self) - 1)%nat by lia.
      by rewrite Hlast.
    + apply reprocess_current_page_out. lia.
Qed.

Lemma revert_then_reprocess_current_witness :
  fst (reprocess_current_page (fst (revert_current_page two_pages 1)) 1
                              default_settings)
  = fst (reprocess_current_page two_pages 1 default_settings)
  /\ pages (fst (revert_current_page
                   (mkManager [dark_page; light_page] [dark_page; dark_page]
                              [true; true]) (-1)))
     = [dark_page; light_page].
Proof.
  split;
    [exact (proj1 (revert_then_reprocess_current two_pages 1 default_settings)
                  ltac:(lia))
    |reflexivity].
Defined.

(** ** Original and processed page keep one size *)

Section SameSizes.
Context {A B : Type} (P : A -> B -> Prop).

Lemma Forall2_ins1 (l : list A) (k : list B) i x y :
  Forall2 P l k -> P x y -> Forall2 P (ins1 l i x) (ins1 k i y).
Proof.
  intros H Hxy. pose proof (Forall2_length _ _ _ H) as Hlen.
  unfold ins1, len. rewrite <- Hlen.
  apply Forall2_app; [by apply Forall2_take|].
  constructor; [done|by apply Forall2_drop].
Qed.

Lemma Forall2_swapped (l : list A) (k : list B) a b :
  Forall2 P l k -> Forall2 P (swapped l a b) (swapped k a b).
Proof.
  intros H. pose proof (Forall2_length _ _ _ H) as Hlen. unfold swapped.
  destruct (l !! a) as [x|] eqn:Hx.
  - destruct (Forall2_lookup_l _ _ _ _ _ H Hx) as (x' & Hx' & Pxx). rewrite Hx'.
    destruct (l !! b) as [y|] eqn:Hy.
    + destruct (Forall2_lookup_l _ _ _ _ _ H Hy) as (y' & Hy' & Pyy). rewrite Hy'.
      by repeat apply Forall2_insert.
    + apply lookup_ge_None in Hy.
      rewrite (proj2 (lookup_ge_None k b)) by lia. done.
  - apply lookup_ge_None in Hx.
    rewrite (proj2 (lookup_ge_None k a)) by lia. done.
Qed.

Lemma Forall2_set_right (l : list A) (k : list B) n x y :
  Forall2 P l k -> l !! n = Some x -> P x y -> Forall2 P l (<[n := y]> k).
Proof.
  intros H Hx Hxy. rewrite <- (list_insert_id l n x Hx).
  by apply Forall2_insert.
Qed.
End SameSizes.

Lemma same_sizes_insert_page self index img :
  Forall2 (fun o p => size o = size p) (original_pages self) (pages self) ->
  Forall2 (fun o p => size o = size p)
          (original_pages (fst (insert_page self index img)))
          (pages (fst (insert_page self index img))).
Proof.
  intros H. pose proof (Forall2_length _ _ _ H) as Hlen.
  unfold insert_page, py_insert.
  rewrite (insertable_same_length (original_pages self) (pages self)) by done.
  destruct (insertable (pages self) index) eqn:Hi; [|done].
  cbn [pages selected with_pages original_pages]. rewrite Hi.
  cbn [pages selected with_pages original_pages].
  assert (Hins : Forall2 (fun o p => size o = size p)
                         (ins1 (original_pages self) index (copy img))
                         (ins1 (pages self) index img))
    by (by apply Forall2_ins1).
  by destruct (insertable (selected self) index).
Qed.

Lemma same_sizes_edit self op : same_sizes self -> same_sizes (edit self op).
Proof.
  unfold same_sizes. intros H.
  pose proof (Forall2_length _ _ _ H) as Hlen.
  destruct op as [index|index text|index direction|index|]; cbn [edit].
  - unfold insert_blank_page.
    destruct (pages self) eqn:Hp; [cbn [fst]; by rewrite Hp|].
    rewrite <- Hp in H. by apply same_sizes_insert_page.
  - unfold insert_text_page.
    destruct (pages self) eqn:Hp; [cbn [fst]; by rewrite Hp|].
    rewrite <- Hp in H. by apply same_sizes_insert_page.
  - unfold move_page.
    destruct (_ && _ && _ && _) eqn:Hg; [|done].
    rewrite !andb_true_iff in Hg.
    rewrite py_swap_in_range by lia.
    cbn [with_pages original_pages pages selected].
    rewrite py_swap_in_range by (unfold len in *; lia).
    cbn [original_pages pages selected].
    destruct (py_swap (selected self) _ _); cbn; by apply Forall2_swapped.
  - unfold revert_current_page.
    destruct (pages self) eqn:Hp; [cbn [fst]; by rewrite Hp|].
    rewrite <- Hp in H, Hlen |- *.
    unfold py_get, py_set.
    rewrite (py_pos_same_length (pages self) (original_pages self)) by done.
    destruct (py_pos (original_pages self) index) as [n|]; [|done].
    destruct (original_pages self !! n) as [img|] eqn:Himg; [|done].
    cbn. by apply (Forall2_set_right _ _ _ _ img).
  - rewrite revert_all_spec by done. cbn.
    apply Forall2_same_length_lookup. split; [done|].
    intros i x y Hx Hy. congruence.
Qed.

(** X8.  After [load_pdf] the original and the processed page have the same
    size at every index, and every editing call, [reprocess_all_pages],
    [reprocess_current_page] and [toggle_page_keep] keep it so. *)
Theorem page_sizes_stay_equal :
  forall (self loaded_from : PDFManager) (doc : list Pixmap)
         (settings : Settings) (cb : bool) (op : EditOp) (index : Z),
    same_sizes self ->
    same_sizes (fst (load_pdf loaded_from doc settings cb))
    /\ same_sizes (edit self op)
    /\ same_sizes (fst (fst (reprocess_all_pages self settings cb)))
    /\ same_sizes (fst (reprocess_current_page self index settings))
    /\ same_sizes (fst (toggle_page_keep self index)).
Proof.
  intros self loaded_from doc settings cb op index H.
  pose proof (Forall2_length _ _ _ H) as Hlen.
  split; [|split; [|split; [|split]]].
  - rewrite load_pdf_spec. unfold same_sizes. cbn.
    apply Forall2_fmap. apply Forall_Forall2_diag.
    apply Forall_forall. intros pix _.
    symmetry. apply process_image_size.
  - by apply same_sizes_edit.
  - rewrite reprocess_all_pages_spec by done. unfold same_sizes. cbn.
    apply Forall2_fmap_r. apply Forall_Forall2_diag.
    apply Forall_forall. intros img _. symmetry. apply process_image_size.
  - destruct (decide (0 <= index < len (original_pages self))) as [Hi|Hi];
      [|by rewrite reprocess_current_page_out].
    unfold len in *.
    destruct (lookup_lt_is_Some_2 (original_pages self) (Z.to_nat index)
                ltac:(lia)) as [img Himg].
    rewrite (reprocess_current_page_in _ _ _ img) by (unfold len; done || lia).
    unfold same_sizes. cbn.
    apply (Forall2_set_right _ _ _ _ img); [done|done|].
    symmetry. apply process_image_size.
  - destruct (toggle_page_keep_twice self index 0) as (_ & Hp & Ho & _).
    unfold same_sizes. by rewrite Hp, Ho.
Qed.

Lemma page_sizes_stay_equal_witness :
  same_sizes two_pages
  /\ same_sizes (edit two_pages (InsertText 1 (py "note")))
  /\ same_sizes (fst (reprocess_current_page two_pages 1 default_settings)).
Proof.
  assert (H : same_sizes two_pages)
    by (repeat (constructor; [reflexivity|]); constructor).
  split; [exact H|].
  destruct (page_sizes_stay_equal two_pages two_pages [] default_settings true
              (InsertText 1 (py "note")) 1 H) as (_ & H2 & _ & H4 & _).
  split; assumption.
Defined.

(** ** The page shown *)

Lemma change_page_nonempty self delta :
  pages (manager self) <> [] ->
  fst (Gui.change_page self delta)
  = mkGUI (manager self)
          ((current_index self + delta) mod len (pages (manager self)))
          (layout_options self).
Proof.
  intros Hne. unfold Gui.change_page.
  by destruct (pages (manager self)).
Qed.

(** X9.  With pages loaded, [change_page] leaves the index inside the
    document whatever the step and the index before, and does not touch the
    document; from an index inside the document, stepping by [delta] and
    then by [- delta] returns to it; one step forward from the last page
    shows the first, one step back from the first shows the last. *)
Theorem change_page_wraps :
  forall (self : PDFConverterGUI) (delta : Z),
    pages (manager self) <> [] ->
    let n := len (pages (manager self)) in
    let self1 := fst (Gui.change_page self delta) in
    0 <= current_index self1 < n
    /\ manager self1 = manager self
    /\ (0 <= current_index self < n ->
        current_index (fst (Gui.change_page self1 (- delta)))
        = current_index self)
    /\ (current_index self = n - 1 -> delta = 1 -> current_index self1 = 0)
    /\ (current_index self = 0 -> delta = -1 -> current_index self1 = n - 1).
Proof.
  intros self delta Hne n self1.
  assert (Hn : 0 < n)
    by (unfold n, len; destruct (pages (manager self)); [done|cbn; lia]).
  unfold self1. rewrite (change_page_nonempty self delta Hne).
  rewrite change_page_nonempty by done.
  cbn [manager current_index]. fold n.
  split; [apply Z.mod_pos_bound; lia|]. split; [done|].
  split; [|split].
  - intros Hc. rewrite Zplus_mod_idemp_l.
    replace (current_index self + delta + - delta) with (current_index self)
      by lia.
    apply Z.mod_small. lia.
  - intros -> ->. replace (n - 1 + 1) with (1 * n) by lia.
    apply Z.mod_mul. lia.
  - intros -> ->. replace (0 + -1) with (n - 1 + -1 * n) by lia.
    rewrite Z.mod_add by lia. apply Z.mod_small. lia.
Qed.

Lemma change_page_wraps_witness :
  pages (manager landscape_window) <> []
  /\ current_index (fst (Gui.change_page landscape_window (-1))) = 1
  /\ current_index (fst (Gui.change_page landscape_window 7)) = 1.
Proof.
  assert (H : pages (manager landscape_window) <> []) by discriminate.
  split; [exact H|].
  destruct (change_page_wraps landscape_window (-1) H) as (_ & _ & _ & _ & Hb).
  split; [exact (Hb eq_refl eq_refl)|reflexivity].
Defined.

Lemma update_previews_ok self :
  aligned (manager self) -> Gui.in_view self -> Gui.update_previews self = Ok tt.
Proof.
  intros [Ho Hs] Hv. unfold Gui.update_previews.
  destruct (pages (manager self)) as [|p ps] eqn:Hp; [done|].
  rewrite <- Hp in Ho, Hs |- *.
  destruct Hv as [Hv|Hv]; [congruence|].
  destruct (py_get_in_range (original_pages (manager self)) (current_index self))
    as [o ->]; [unfold len in *; lia|].
  destruct (py_get_in_range (pages (manager self)) (current_index self))
    as [q ->]; [unfold len in *; lia|].
  done.
Qed.

Lemma refresh_ok self m :
  aligned (manager self) -> Gui.in_view self ->
  pages (manager self) <> [] ->
  aligned m ->
  (length (pages (manager self)) <= length (pages m))%nat ->
  Gui.refresh self (m, Ok tt) = (Gui.with_manager self m, Ok tt)
  /\ Gui.in_view (Gui.with_manager self m).
Proof.
  intros Ha Hv Hne Hm Hlen.
  assert (Hv' : Gui.in_view (Gui.with_manager self m)).
  { destruct Hv as [Hv|Hv]; [done|]. right. cbn. unfold len in *. lia. }
  split; [|done]. unfold Gui.refresh. by rewrite update_previews_ok.
Qed.

Lemma toggle_page_keep_ok self index :
  0 <= index < len (selected self) ->
  snd (toggle_page_keep self index) = Ok tt
  /\ pages (fst (toggle_page_keep self index)) = pages self
  /\ original_pages (fst (toggle_page_keep self index)) = original_pages self
  /\ length (selected (fst (toggle_page_keep self index)))
     = length (selected self).
Proof.
  intros Hi. unfold toggle_page_keep.
  destruct (pages self) as [|p ps] eqn:Hp; [cbn [fst snd]; by rewrite ?Hp|].
  unfold py_get, py_set. rewrite py_pos_nonneg by done.
  destruct (lookup_lt_is_Some_2 (selected self) (Z.to_nat index)
              ltac:(unfold len in *; lia)) as [b ->].
  cbn. by rewrite length_insert, ?Hp.
Qed.

Lemma revert_current_page_ok self index :
  aligned self -> 0 <= index < len (pages self) ->
  snd (revert_current_page self index) = Ok tt.
Proof.
  intros [Ho Hs] Hi. unfold revert_current_page.
  destruct (pages self) as [|p ps] eqn:Hp; [done|].
  rewrite <- Hp in Ho, Hs, Hi |- *.
  unfold py_get, py_set.
  rewrite (py_pos_nonneg (original_pages self)) by (unfold len in *; lia).
  rewrite (py_pos_nonneg (pages self)) by done.
  destruct (lookup_lt_is_Some_2 (original_pages self) (Z.to_nat index)
              ltac:(unfold len in *; lia)) as [o ->].
  done.
Qed.

Lemma guard_nonempty {X : Type} (l : list Image) (x y : X) :
  l <> [] -> match l with [] => x | _ :: _ => y end = y.
Proof. by destruct l. Qed.

Lemma insert_pages_nonempty self index text :
  pages self <> [] ->
  exists img img',
    insert_blank_page self index = insert_page self index img
    /\ insert_text_page self index text = insert_page self index img'.
Proof.
  intros H. unfold insert_blank_page, insert_text_page.
  destruct (pages self); [done|]. by eexists _, _.
Qed.

(** An insert after a page of an aligned document goes through. *)
Lemma insert_page_after self index img :
  aligned self -> 0 <= index < len (pages self) ->
  insert_page self (index + 1) img = (inserted self (index + 1) img, Ok tt).
Proof.
  intros Ha Hi. rewrite insert_page_spec by done.
  by rewrite insertable_within by lia.
Qed.

Lemma act_safe self a :
  aligned (manager self) -> Gui.in_view self ->
  snd (Gui.act self a) = Ok tt
  /\ aligned (manager (fst (Gui.act self a)))
  /\ Gui.in_view (fst (Gui.act self a)).
Proof.
  intros Ha Hv.
  destruct (decide (pages (manager self) = [])) as [Hp|Hne].
  { destruct a; cbn [Gui.act]; unfold Gui.change_page, Gui.toggle_page_keep,
      Gui.insert_blank, Gui.insert_text, Gui.move_page, Gui.revert_current_page,
      Gui.revert_all, Gui.update_live_preview; rewrite Hp; done. }
  assert (Hin : 0 <= current_index self < len (pages (manager self)))
    by (destruct Hv as [Hv|Hv]; done).
  assert (Hgo : forall m,
             aligned m ->
             (length (pages (manager self)) <= length (pages m))%nat ->
             snd (Gui.refresh self (m, Ok tt)) = Ok tt
             /\ aligned (manager (fst (Gui.refresh self (m, Ok tt))))
             /\ Gui.in_view (fst (Gui.refresh self (m, Ok tt)))).
  { intros m Hm Hlen.
    destruct (refresh_ok self m Ha Hv Hne Hm Hlen) as [-> Hv']. done. }
  destruct a as [delta| | |text|direction| | |settings]; cbn [Gui.act].
  - assert (Hr : 0 <= (current_index self + delta) mod len (pages (manager self))
                 < len (pages (manager self)))
      by (apply Z.mod_pos_bound; lia).
    unfold Gui.change_page. rewrite guard_nonempty by done.
    cbn [fst snd manager current_index].
    split; [|split; [done|by right]].
    apply update_previews_ok; [done|by right].
  - unfold Gui.toggle_page_keep. rewrite guard_nonempty by done.
    destruct Ha as [Ho Hs].
    destruct (toggle_page_keep_ok (manager self) (current_index self))
      as (Hok & Hpg & Hor & Hsl); [unfold len in *; lia|].
    destruct (toggle_page_keep _ _) as [m r]. cbn [fst snd] in *. subst r.
    apply Hgo; [split; congruence|by rewrite Hpg].
  - unfold Gui.insert_blank. rewrite guard_nonempty by done.
    destruct (insert_pages_nonempty (manager self) (current_index self + 1) [] Hne)
      as (img & _ & -> & _).
    pose proof (insert_page_aligned (manager self) (current_index self + 1) img Ha)
      as Hal.
    rewrite insert_page_after in Hal |- * by done. cbn [fst] in Hal.
    apply Hgo; [done|].
    destruct (inserted_lengths (manager self) (current_index self + 1) img)
      as (_ & -> & _). lia.
  - unfold Gui.insert_text. rewrite guard_nonempty by done.
    destruct text as [[|c t]|]; [done| |done].
    destruct (insert_pages_nonempty (manager self) (current_index self + 1)
                (c :: t) Hne) as (_ & img & _ & ->).
    pose proof (insert_page_aligned (manager self) (current_index self + 1) img Ha)
      as Hal.
    rewrite insert_page_after in Hal |- * by done. cbn [fst] in Hal.
    apply Hgo; [done|].
    destruct (inserted_lengths (manager self) (current_index self + 1) img)
      as (_ & -> & _). lia.
  - unfold Gui.move_page. rewrite guard_nonempty by done.
    destruct (move_page_lengths (manager self) (current_index self) direction)
      as (E1 & E2 & E3).
    assert (Hok : snd (move_page (manager self) (current_index self) direction)
                  = Ok tt).
    { destruct (decide (0 <= current_index self + direction
                        < len (pages (manager self)))) as [Hd|Hd].
      - by rewrite move_page_in_range.
      - rewrite move_page_out_of_range; [done|tauto]. }
    destruct (move_page _ _ _) as [m r]. cbn [fst snd] in *. subst r.
    destruct Ha. apply Hgo; [split; congruence|lia].
  - unfold Gui.revert_current_page. rewrite guard_nonempty by done.
    destruct (revert_current_page_lengths (manager self) (current_index self))
      as (E1 & E2 & E3).
    pose proof (revert_current_page_ok _ _ Ha Hin) as Hok.
    destruct (revert_current_page _ _) as [m r]. cbn [fst snd] in *. subst r.
    destruct Ha. apply Hgo; [split; congruence|lia].
  - unfold Gui.revert_all. rewrite guard_nonempty by done.
    destruct Ha as [Ho Hs]. rewrite revert_all_spec by done.
    apply Hgo; [split; cbn; congruence|cbn; lia].
  - unfold Gui.update_live_preview. rewrite guard_nonempty by done.
    destruct Ha as [Ho Hs]. unfold len in *.
    destruct (lookup_lt_is_Some_2 (original_pages (manager self))
                (Z.to_nat (current_index self)) ltac:(lia)) as [img Himg].
    rewrite (reprocess_current_page_in _ _ _ img) by (unfold len; done || lia).
    apply Hgo; [split; cbn; rewrite ?length_insert; congruence|].
    cbn. by rewrite length_insert.
Qed.

(** X10.  From a window whose document is aligned and whose index is inside
    it (or whose document is empty), no action of the page controls raises,
    after any run of such actions: turning pages, toggling, inserting a
    blank or a text page after the current one, moving, reverting one or all
    pages, live reprocessing.  The document stays aligned and the index
    stays inside it. *)
Theorem page_controls_never_raise :
  forall (self : PDFConverterGUI) (actions : list Gui.Action) (a : Gui.Action),
    aligned (manager self) ->
    Gui.in_view self ->
    let now := session self actions in
    snd (Gui.act now a) = Ok tt
    /\ aligned (manager now)
    /\ Gui.in_view now.
Proof.
  intros self actions a. revert self. unfold session.
  induction actions as [|b rest IH]; intros self Ha Hv; cbn [foldl].
  - destruct (act_safe self a Ha Hv) as (H1 & _). done.
  - destruct (act_safe self b Ha Hv) as (_ & Ha' & Hv'). by apply IH.
Qed.

Lemma page_controls_never_raise_witness :
  aligned (manager landscape_window)
  /\ Gui.in_view landscape_window
  /\ snd (Gui.act
            (session landscape_window
               [Gui.ChangePage 1; Gui.InsertBlank; Gui.MovePage 1;
                Gui.ToggleKeep; Gui.ChangePage 5; Gui.RevertCurrent])
            (Gui.InsertText (Some (py "note")))) = Ok tt.
Proof.
  assert (Ha : aligned (manager landscape_window)) by (split; reflexivity).
  assert (Hv : Gui.in_view landscape_window)
    by (right; unfold len; cbn; lia).
  split; [exact Ha|]. split; [exact Hv|].
  exact (proj1 (page_controls_never_raise landscape_window
                  [Gui.ChangePage 1; Gui.InsertBlank; Gui.MovePage 1;
                   Gui.ToggleKeep; Gui.ChangePage 5; Gui.RevertCurrent]
                  (Gui.InsertText (Some (py "note"))) Ha Hv)).
Defined.

(** * Further properties of page ranges and export *)

Lemma split_cons_nonempty sep s : split sep s <> [].
Proof.
  destruct s as [|c s]; cbn [split]; [done|].
  destruct (Ascii.eqb c sep); [done|]. by destruct (split sep s).
Qed.

Lemma split_app_sep sep a b :
  split sep (a ++ sep :: b) = split sep a ++ split sep b.
Proof.
  induction a as [|c a IH]; cbn [app split].
  - by rewrite Ascii.eqb_refl.
  - destruct (Ascii.eqb c sep); [by rewrite IH|].
    rewrite IH. pose proof (split_cons_nonempty sep a) as Hne.
    by destruct (split sep a).
Qed.

Lemma parse_parts_acc parts : forall acc,
  parse_parts parts acc
  = (found <-! parse_parts parts []; Ok (acc ++ found)).
Proof.
  induction parts as [|part rest IH]; intros acc; cbn [parse_parts bind].
  - by rewrite app_nil_r.
  - destruct (strip part) as [|c t]; [apply IH|].
    destruct (contains _ _).
    + destruct (split _ _) as [|start [|stop [|]]]; try done.
      destruct (py_int start) as [a|]; [|done]. cbn [bind].
      destruct (py_int stop) as [b|]; [|done]. cbn [bind].
      unfold extend_range. destruct (PY_SSIZE_T_MAX <? _); [done|].
      cbn [bind]. rewrite (IH (acc ++ _)), (IH ([] ++ _)).
      destruct (parse_parts rest []); cbn [bind]; [|done].
      by rewrite app_nil_l, app_assoc.
    + destruct (py_int _) as [a|]; [|done]. cbn [bind].
      rewrite (IH (acc ++ _)), (IH ([] ++ _)).
      destruct (parse_parts rest []); cbn [bind]; [|done].
      by rewrite app_nil_l, app_assoc.
Qed.

Lemma parse_parts_app p1 : forall p2 acc,
  parse_parts (p1 ++ p2) acc
  = (found <-! parse_parts p1 acc; parse_parts p2 found).
Proof.
  induction p1 as [|part rest IH]; intros p2 acc; cbn [app parse_parts bind].
  - done.
  - destruct (strip part) as [|c t]; [apply IH|].
    destruct (contains _ _).
    + destruct (split _ _) as [|start [|stop [|]]]; try done.
      destruct (py_int start) as [a|]; [|done]. cbn [bind].
      destruct (py_int stop) as [b|]; [|done]. cbn [bind].
      destruct (extend_range _ _ _); [apply IH|done].
    + destruct (py_int _) as [a|]; [|done]. cbn [bind]. apply IH.
Qed.

Lemma has_ink_lstrip s : has_ink s = true -> has_ink (lstrip s) = true.
Proof.
  unfold has_ink. induction s as [|c s IH]; cbn [existsb lstrip]; [done|].
  destruct (is_space c) eqn:Hc; cbn [negb orb]; [exact IH|].
  intros _. cbn [existsb]. by rewrite Hc.
Qed.

Lemma has_ink_rev s : has_ink (rev s) = has_ink s.
Proof.
  unfold has_ink. apply eq_true_iff_eq.
  rewrite !existsb_exists. split; intros (c & Hin & Hc); exists c;
    (split; [|done]); by apply in_rev in Hin || apply in_rev.
Qed.

Lemma has_ink_not_blank s : has_ink s = true -> blank s = false.
Proof.
  intros H. unfold blank. destruct s as [|c s]; [done|].
  assert (Hs : has_ink (strip (c :: s)) = true).
  { unfold strip. rewrite has_ink_rev. apply has_ink_lstrip.
    rewrite has_ink_rev. by apply has_ink_lstrip. }
  by destruct (strip (c :: s)).
Qed.

Lemma lstrip_nil s : lstrip s = [] -> Forall (fun c => is_space c = true) s.
Proof.
  induction s as [|c s IH]; cbn [lstrip]; [by constructor|].
  destruct (is_space c) eqn:Hc; [|done].
  intros H. constructor; [done|by apply IH].
Qed.

Lemma lstrip_first s : forall d t, lstrip s = d :: t -> is_space d = false.
Proof.
  induction s as [|c s IH]; intros d t; cbn [lstrip]; [done|].
  destruct (is_space c) eqn:Hc; [apply IH|]. by intros [= <- _].
Qed.

Lemma blank_spaces_inv s :
  blank s = true -> Forall (fun c => is_space c = true) s.
Proof.
  unfold blank. destruct s as [|c s]; [by constructor|].
  destruct (strip (c :: s)) eqn:Hs; [|done]. intros _.
  unfold strip in Hs. apply (f_equal (@rev ascii)) in Hs.
  rewrite rev_involutive in Hs. cbn [rev] in Hs.
  apply lstrip_nil in Hs. apply Forall_rev in Hs.
  rewrite rev_involutive in Hs.
  destruct (lstrip (c :: s)) as [|d t] eqn:Hl; [by apply lstrip_nil|].
  apply Forall_cons in Hs as [Hd _].
  apply lstrip_first in Hl. congruence.
Qed.

Lemma parse_parts_blank s :
  Forall (fun c => is_space c = true) s ->
  parse_parts (split ","%char s) [] = Ok [].
Proof.
  intros H.
  assert (Hsplit : split ","%char s = [s]).
  { apply split_without. eapply Forall_impl; [exact H|].
    intros c Hc. destruct (Ascii.eqb_spec c ","%char) as [->|]; [|done].
    by vm_compute in Hc. }
  rewrite Hsplit. cbn [parse_parts].
  assert (Hstrip : strip s = []).
  { unfold strip. by rewrite (lstrip_spaces s H). }
  by rewrite Hstrip.
Qed.

Lemma parse_ranges_found self s found :
  blank s = false ->
  parse_ranges self s = Ok found ->
  exists raw,
    parse_parts (split ","%char s) [] = Ok raw
    /\ found = List.filter (in_bounds self) raw.
Proof.
  intros Hb. unfold parse_ranges. rewrite Hb.
  destruct (parse_parts _ _) as [raw|]; [|done]. cbn [bind].
  intros [= <-]. by exists raw.
Qed.

(** X11.  [parse_ranges] keeps the order in which the parts are written and
    keeps repetitions: when [a] and [b] are non-blank and parse, the range
    [a,b] gives the indices of [a] followed by those of [b].  A blank part
    before the comma adds nothing. *)
Theorem parse_ranges_concatenates :
  forall (self : PDFManager) (a b : str) (found_b : list Z),
    blank b = false ->
    parse_ranges self b = Ok found_b ->
    (forall found_a,
        blank a = false ->
        parse_ranges self a = Ok found_a ->
        parse_ranges self (a ++ ","%char :: b) = Ok (found_a ++ found_b))
    /\ (blank a = true ->
        parse_ranges self (a ++ ","%char :: b) = Ok found_b).
Proof.
  intros self a b found_b Hb Hpb.
  destruct (parse_ranges_found self b found_b Hb Hpb) as (rb & Hrb & ->).
  assert (Hink : blank (a ++ ","%char :: b) = false).
  { apply has_ink_not_blank. unfold has_ink. rewrite existsb_app.
    cbn [existsb]. replace (negb (is_space ","%char)) with true by done.
    by rewrite orb_true_r. }
  split.
  - intros found_a Ha Hpa.
    destruct (parse_ranges_found self a found_a Ha Hpa) as (ra & Hra & ->).
    unfold parse_ranges. rewrite Hink, split_app_sep, parse_parts_app, Hra.
    cbn [bind]. rewrite parse_parts_acc, Hrb. cbn [bind].
    by rewrite List.filter_app.
  - intros Ha. apply blank_spaces_inv in Ha.
    unfold parse_ranges. rewrite Hink, split_app_sep, parse_parts_app.
    rewrite (parse_parts_blank a Ha). cbn [bind]. by rewrite Hrb.
Qed.

Lemma parse_ranges_concatenates_witness :
  blank (py "1") = false
  /\ parse_ranges five_pages (py "1") = Ok [0]
  /\ parse_ranges five_pages (py "3,1" ++ ","%char :: py "1") = Ok [2; 0; 0].
Proof.
  assert (Hb : blank (py "1") = false) by reflexivity.
  assert (Hp : parse_ranges five_pages (py "1") = Ok [0]) by reflexivity.
  split; [exact Hb|]. split; [exact Hp|].
  exact (proj1 (parse_ranges_concatenates five_pages (py "3,1") (py "1") [0] Hb Hp)
               [2; 0] eq_refl eq_refl).
Defined.

Lemma py_int_raises s e : py_int s = Raise e -> e = ValueError.
Proof.
  unfold py_int.
  destruct (match int_strip s with [] => _ | _ => _ end); cbn [of_option];
    congruence.
Qed.

Lemma parse_parts_raises parts : forall acc e,
  parse_parts parts acc = Raise e -> e = ValueError \/ e = OverflowError.
Proof.
  induction parts as [|part rest IH]; intros acc e; cbn [parse_parts];
    [done|].
  destruct (strip part) as [|c t]; [apply IH|].
  destruct (contains _ _).
  - destruct (split _ _) as [|start [|stop [|]]];
      try (intros [= <-]; by left).
    destruct (py_int start) as [a|ea] eqn:Ha; cbn [bind];
      [|intros [= <-]; left; by apply py_int_raises in Ha].
    destruct (py_int stop) as [b|eb] eqn:Hb; cbn [bind];
      [|intros [= <-]; left; by apply py_int_raises in Hb].
    unfold extend_range. destruct (PY_SSIZE_T_MAX <? _); cbn [bind];
      [intros [= <-]; by right|apply IH].
  - destruct (py_int _) as [a|ea] eqn:Ha; cbn [bind];
      [apply IH|intros [= <-]; left; by apply py_int_raises in Ha].
Qed.

Lemma parse_ranges_raises self s e :
  parse_ranges self s = Raise e -> e = ValueError \/ e = OverflowError.
Proof.
  unfold parse_ranges. destruct (blank s); [done|].
  destruct (parse_parts _ _) as [raw|e'] eqn:Hp; cbn [bind]; [done|].
  intros [= <-]. by apply parse_parts_raises in Hp.
Qed.

Lemma parse_ranges_raised self s e :
  blank s = false ->
  parse_ranges self s = Raise e ->
  parse_parts (split ","%char s) [] = Raise e.
Proof.
  intros Hb. unfold parse_ranges. rewrite Hb.
  by destruct (parse_parts _ _) as [raw|]; cbn [bind].
Qed.

Section Marked.
Variable p : ascii -> bool.
Hypothesis p_ink : forall c, p c = true -> is_space c = false.

Lemma existsb_lstrip s : existsb p s = true -> existsb p (lstrip s) = true.
Proof.
  induction s as [|c s IH]; cbn [existsb lstrip]; [done|].
  destruct (is_space c) eqn:Hc; [|done].
  destruct (p c) eqn:Hpc; [|exact IH].
  apply p_ink in Hpc. congruence.
Qed.

Lemma existsb_rev s : existsb p (rev s) = existsb p s.
Proof.
  apply eq_true_iff_eq. rewrite !existsb_exists.
  split; intros (c & Hin & Hc); exists c; (split; [|done]);
    by apply in_rev in Hin || apply in_rev.
Qed.

Lemma existsb_strip s : existsb p s = true -> existsb p (strip s) = true.
Proof.
  intros H. unfold strip. rewrite existsb_rev. apply existsb_lstrip.
  rewrite existsb_rev. by apply existsb_lstrip.
Qed.

Lemma existsb_int_lstrip s :
  existsb p s = true -> existsb p (int_lstrip s) = true.
Proof.
  induction s as [|c s IH]; cbn [existsb int_lstrip]; [done|].
  destruct (is_int_space c) eqn:Hc; [|done].
  destruct (p c) eqn:Hpc; [|exact IH].
  apply p_ink in Hpc. apply int_space_space in Hc. congruence.
Qed.

Lemma existsb_int_strip s :
  existsb p s = true -> existsb p (int_strip s) = true.
Proof.
  intros H. unfold int_strip. rewrite existsb_rev. apply existsb_int_lstrip.
  rewrite existsb_rev. by apply existsb_int_lstrip.
Qed.

Lemma existsb_split sep s :
  p sep = false ->
  existsb p s = true ->
  Exists (fun part => existsb p part = true) (split sep s).
Proof.
  intros Hsep. induction s as [|c s IH]; cbn [existsb split]; [done|].
  destruct (Ascii.eqb_spec c sep) as [->|Hne].
  - rewrite Hsep. cbn [orb]. intros H. apply Exists_cons_tl. by apply IH.
  - pose proof (split_cons_nonempty sep s) as Hnil.
    destruct (split sep s) as [|part parts]; [done|].
    destruct (p c) eqn:Hc; cbn [orb].
    + intros _. apply Exists_cons_hd. cbn [existsb]. by rewrite Hc.
    + intros H. apply IH in H. apply Exists_cons in H as [H|H].
      * apply Exists_cons_hd. cbn [existsb]. by rewrite H, orb_true_r.
      * by apply Exists_cons_tl.
Qed.

End Marked.

Lemma letter_plain c :
  is_letter c = true ->
  is_space c = false
  /\ is_digit c = false
  /\ Ascii.eqb c "-"%char = false
  /\ Ascii.eqb c "+"%char = false
  /\ Ascii.eqb c "_"%char = false.
Proof.
  destruct c as [[] [] [] [] [] [] [] []]; vm_compute; intros H;
    try discriminate H; repeat split; done.
Qed.

Lemma letter_ink c : is_letter c = true -> is_space c = false.
Proof. intros H. by destruct (letter_plain c H) as (-> & _). Qed.

Lemma int_digits_letter s : forall acc after_underscore,
  existsb is_letter s = true -> int_digits acc after_underscore s = None.
Proof.
  induction s as [|c s IH]; intros acc u; cbn [existsb int_digits]; [done|].
  destruct (is_letter c) eqn:Hc; cbn [orb].
  - intros _. by destruct (letter_plain c Hc) as (_ & -> & _ & _ & ->).
  - intros H. destruct (is_digit c); [by apply IH|].
    destruct (Ascii.eqb c "_"%char); [|done].
    destruct u; [done|by apply IH].
Qed.

Lemma int_unsigned_letter s :
  existsb is_letter s = true -> int_unsigned s = None.
Proof.
  destruct s as [|c s]; cbn [existsb int_unsigned]; [done|].
  destruct (is_letter c) eqn:Hc; cbn [orb].
  - intros _. by destruct (letter_plain c Hc) as (_ & -> & _).
  - intros H. destruct (is_digit c); [by apply int_digits_letter|done].
Qed.

Lemma py_int_letter s :
  existsb is_letter s = true -> py_int s = Raise ValueError.
Proof.
  intros H. apply (existsb_int_strip is_letter letter_ink) in H.
  unfold py_int. destruct (int_strip s) as [|c t]; [done|].
  destruct (is_letter c) eqn:Hc.
  - destruct (letter_plain c Hc) as (_ & _ & -> & -> & _).
    by rewrite (int_unsigned_letter (c :: t) H).
  - cbn [existsb] in H. rewrite Hc in H. cbn [orb] in H.
    destruct (Ascii.eqb c "-"%char);
      [by rewrite (int_unsigned_letter t H)|].
    destruct (Ascii.eqb c "+"%char);
      [by rewrite (int_unsigned_letter t H)|].
    rewrite (int_unsigned_letter (c :: t)); [done|].
    cbn [existsb]. by rewrite H, orb_true_r.
Qed.

(** A part with a letter is refused; the parts before it are converted
    first, so that a range too wide among them raises before the letter is
    seen. *)
Lemma parse_parts_letter parts :
  Exists (fun part => existsb is_letter part = true) parts ->
  forall acc found, parse_parts parts acc <> Ok found.
Proof.
  intros H.
  induction H as [part rest Hpart|part rest Hrest IH]; intros acc found;
    cbn [parse_parts].
  - apply (existsb_strip is_letter letter_ink) in Hpart.
    destruct (strip part) as [|c t] eqn:Hs; [done|]. rewrite <- Hs in Hpart.
    destruct (contains _ _).
    + assert (Hdash : is_letter "-"%char = false) by done.
      pose proof (existsb_split is_letter "-"%char _ Hdash Hpart) as Hex.
      rewrite Hs in Hex.
      destruct (split _ _) as [|start [|stop [|]]]; try done.
      apply Exists_cons in Hex as [Hex|Hex].
      * by rewrite (py_int_letter start Hex).
      * apply Exists_cons in Hex as [Hex|Hex]; [|by apply Exists_nil in Hex].
        rewrite (py_int_letter stop Hex). by destruct (py_int start).
    + rewrite Hs in Hpart. by rewrite (py_int_letter _ Hpart).
  - destruct (strip part) as [|c t]; [apply IH|].
    destruct (contains _ _).
    + destruct (split _ _) as [|start [|stop [|]]]; try done.
      destruct (py_int start) as [a|]; [|done]. cbn [bind].
      destruct (py_int stop) as [b|]; [|done]. cbn [bind].
      destruct (extend_range _ _ _); [apply IH|done].
    + destruct (py_int _) as [a|]; [|done]. cbn [bind]. apply IH.
Qed.

Lemma parse_parts_letter_first part rest acc :
  existsb is_letter part = true ->
  parse_parts (part :: rest) acc = Raise ValueError.
Proof.
  intros Hpart. cbn [parse_parts].
  apply (existsb_strip is_letter letter_ink) in Hpart.
  destruct (strip part) as [|c t] eqn:Hs; [done|]. rewrite <- Hs in Hpart.
  destruct (contains _ _).
  - assert (Hdash : is_letter "-"%char = false) by done.
    pose proof (existsb_split is_letter "-"%char _ Hdash Hpart) as Hex.
    rewrite Hs in Hex.
    destruct (split _ _) as [|start [|stop [|]]]; try done.
    apply Exists_cons in Hex as [Hex|Hex].
    + by rewrite (py_int_letter start Hex).
    + apply Exists_cons in Hex as [Hex|Hex]; [|by apply Exists_nil in Hex].
      rewrite (py_int_letter stop Hex).
      destruct (py_int start) as [a|e] eqn:E; cbn [bind]; [done|].
      apply py_int_raises in E. by subst.
  - rewrite Hs in Hpart. by rewrite (py_int_letter _ Hpart).
Qed.

(** A single part with one dash between two runs of digits, either of which
    may be empty. *)
Lemma parse_ranges_dash self a b :
  Forall (fun c => is_digit c = true) a ->
  Forall (fun c => is_digit c = true) b ->
  parse_ranges self (a ++ "-"%char :: b)
  = (first <-! py_int a;
     last <-! py_int b;
     raw <-! extend_range [] (first - 1) last;
     Ok (List.filter (in_bounds self) raw)).
Proof.
  intros Ha Hb.
  set (s := a ++ "-"%char :: b).
  assert (Hplain : Forall (fun c => is_space c = false
                                    /\ Ascii.eqb c ","%char = false) s).
  { unfold s. apply Forall_app_2; [|apply Forall_cons_2; [done|]].
    - eapply Forall_impl; [exact Ha|]. intros c Hc.
      by destruct (digit_plain c Hc) as (-> & -> & _).
    - eapply Forall_impl; [exact Hb|]. intros c Hc.
      by destruct (digit_plain c Hc) as (-> & -> & _). }
  assert (Hstrip : strip s = s).
  { apply strip_without_spaces. eapply Forall_impl; [exact Hplain|].
    by intros c [-> _]. }
  assert (Hsplit : split ","%char s = [s]).
  { apply split_without. eapply Forall_impl; [exact Hplain|].
    by intros c [_ ->]. }
  assert (Hdash : contains "-"%char s = true).
  { unfold contains, s. rewrite existsb_app. cbn [existsb].
    by rewrite orb_true_r. }
  assert (Hne : exists c t, s = c :: t).
  { unfold s. destruct a as [|c a]; [by exists "-"%char, b|].
    by exists c, (a ++ "-"%char :: b). }
  unfold parse_ranges.
  assert (Hb0 : blank s = false).
  { unfold blank. rewrite Hstrip. by destruct Hne as (c & t & ->). }
  rewrite Hb0, Hsplit. cbn [parse_parts]. rewrite Hstrip.
  destruct Hne as (c & t & Hs). rewrite Hs at 1. rewrite Hdash.
  unfold s at 1. rewrite (split_at_dash a b Ha Hb).
  destruct (py_int a) as [first|]; [|done]. cbn [bind].
  destruct (py_int b) as [last|]; [|done]. cbn [bind].
  by destruct (extend_range _ _ _).
Qed.

Lemma extend_range_ok acc a b :
  b - a <= PY_SSIZE_T_MAX -> extend_range acc a b = Ok (acc ++ py_range a b).
Proof.
  intros H. unfold extend_range.
  by destruct (Z.ltb_spec PY_SSIZE_T_MAX (b - a)); [lia|].
Qed.

Lemma extend_range_overflow acc a b :
  PY_SSIZE_T_MAX < b - a -> extend_range acc a b = Raise OverflowError.
Proof.
  intros H. unfold extend_range.
  by destruct (Z.ltb_spec PY_SSIZE_T_MAX (b - a)); [|lia].
Qed.

Lemma py_range_empty a b : b <= a -> py_range a b = [].
Proof.
  intros H. unfold py_range. by replace (Z.to_nat (b - a)) with 0%nat by lia.
Qed.

Lemma last_framed {A : Type} (a b : A) l : last ([a] ++ l ++ [b]) = Some b.
Proof. by rewrite app_assoc, last_snoc. Qed.

(** [PDFConverterGUI.export_pdf] on a loaded document whose pages and flags
    have the same length. *)
Lemma gui_export_pdf_spec self fs out text :
  pages (manager self) <> [] ->
  length (pages (manager self)) = length (selected (manager self)) ->
  gui_export_pdf self fs out text
  = (page_indices <-! parse_ranges (manager self) text;
     let log := fractions (len page_indices) 0 (length page_indices) in
     Ok match map (page_at (manager self))
                  (List.filter (is_selected (manager self)) page_indices) with
        | [] => (fs, [0%Q] ++ log ++ [0%Q],
                 Some (Exception "No pages selected for export!"))
        | first :: others =>
            (<[out := first :: others]> fs, [0%Q] ++ log ++ [1%Q], None)
        end).
Proof.
  intros Hne Hlen. unfold gui_export_pdf.
  destruct (pages (manager self)) as [|pg pgs] eqn:Hp; [done|].
  rewrite <- Hp in *. clear Hne.
  assert (Hsame :
    match text with
    | [] => Ok (py_range 0 (len (pages (manager self))))
    | _ :: _ => parse_ranges (manager self) text
    end = parse_ranges (manager self) text) by (by destruct text).
  rewrite Hsame.
  destruct (parse_ranges (manager self) text) as [page_indices|e] eqn:Hparse;
    cbn [bind]; [|done].
  assert (Hv : valid_indices (manager self) page_indices).
  { apply parse_ranges_in_bounds in Hparse. unfold valid_indices.
    eapply Forall_impl; [exact Hparse|]. cbn. unfold len. lia. }
  unfold _export_thread. rewrite export_pdf_spec by done.
  rewrite <- qualifying_selected by done. cbn zeta.
  by destruct (qualifying (manager self) page_indices).
Qed.

(** X12.  A range written backwards selects nothing and raises nothing: for
    decimal numbers [a] and [b] with [b < a], [parse_ranges] of "a-b" is the
    empty list in every document, and the export started from the window
    then ends in "No pages selected for export!" with no file written. *)
Theorem reversed_range_selects_nothing :
  forall (self : PDFConverterGUI) (fs : gmap string (list Image))
         (out : string) (a b : str) (first last : Z),
    Forall (fun c => is_digit c = true) a ->
    Forall (fun c => is_digit c = true) b ->
    py_int a = Ok first ->
    py_int b = Ok last ->
    last < first ->
    pages (manager self) <> [] ->
    length (pages (manager self)) = length (selected (manager self)) ->
    parse_ranges (manager self) (a ++ "-"%char :: b) = Ok []
    /\ gui_export_pdf self fs out (a ++ "-"%char :: b)
       = Ok (fs, [0%Q; 0%Q], Some (Exception "No pages selected for export!")).
Proof.
  intros self fs out a b first last Ha Hb Hfirst Hlast Hlt Hne Hlen.
  assert (Hparse : parse_ranges (manager self) (a ++ "-"%char :: b) = Ok []).
  { rewrite parse_ranges_dash by done. rewrite Hfirst, Hlast. cbn [bind].
    rewrite extend_range_ok by (unfold PY_SSIZE_T_MAX; lia). cbn [bind app].
    by rewrite py_range_empty by lia. }
  split; [exact Hparse|].
  rewrite gui_export_pdf_spec by done. by rewrite Hparse.
Qed.

Lemma reversed_range_selects_nothing_witness :
  parse_ranges five_pages (py "4-2") = Ok []
  /\ gui_export_pdf (mkGUI five_pages 0 landscape_2x2) ∅ "out.pdf" (py "4-2")
     = Ok (∅, [0%Q; 0%Q], Some (Exception "No pages selected for export!")).
Proof.
  apply (reversed_range_selects_nothing (mkGUI five_pages 0 landscape_2x2)
           ∅ "out.pdf" (py "4") (py "2") 4 2).
  - repeat (apply Forall_cons_2; [reflexivity|]). apply Forall_nil_2.
  - repeat (apply Forall_cons_2; [reflexivity|]). apply Forall_nil_2.
  - reflexivity.
  - reflexivity.
  - lia.
  - discriminate.
  - reflexivity.
Defined.

(** ** Page ranges *)

Lemma filter_keeps_all {A : Type} (p : A -> bool) (l : list A) :
  Forall (fun x => p x = true) l -> List.filter p l = l.
Proof.
  induction 1 as [|x l Hx _ IH]; cbn [List.filter]; [done|].
  by rewrite Hx, IH.
Qed.

Lemma comma_not_blank a b : blank (a ++ ","%char :: b) = false.
Proof.
  apply has_ink_not_blank. unfold has_ink. rewrite existsb_app.
  cbn [existsb]. replace (negb (is_space ","%char)) with true by done.
  by rewrite orb_true_r.
Qed.

Lemma parse_parts_blank_acc s acc :
  blank s = true -> parse_parts (split ","%char s) acc = Ok acc.
Proof.
  intros H. apply blank_spaces_inv in H.
  rewrite parse_parts_acc, (parse_parts_blank s H). cbn [bind].
  by rewrite app_nil_r.
Qed.

(** The parts of a list are converted from left to right into one list. *)
Lemma parse_ranges_comma self a b :
  (forall found_a found_b,
      blank a = false -> blank b = false ->
      parse_ranges self a = Ok found_a ->
      parse_ranges self b = Ok found_b ->
      parse_ranges self (a ++ ","%char :: b) = Ok (found_a ++ found_b))
  /\ (blank a = true -> blank b = false ->
      parse_ranges self (a ++ ","%char :: b) = parse_ranges self b)
  /\ (blank a = false -> blank b = true ->
      parse_ranges self (a ++ ","%char :: b) = parse_ranges self a)
  /\ (forall e,
        blank a = false ->
        parse_ranges self a = Raise e ->
        parse_ranges self (a ++ ","%char :: b) = Raise e)
  /\ (forall found_a e,
        blank a = false -> blank b = false ->
        parse_ranges self a = Ok found_a ->
        parse_ranges self b = Raise e ->
        parse_ranges self (a ++ ","%char :: b) = Raise e).
Proof.
  pose proof (comma_not_blank a b) as Hink.
  split; [|split; [|split; [|split]]].
  - intros found_a found_b Ha Hb Hpa Hpb.
    destruct (parse_ranges_found self a found_a Ha Hpa) as (ra & Hra & ->).
    destruct (parse_ranges_found self b found_b Hb Hpb) as (rb & Hrb & ->).
    unfold parse_ranges. rewrite Hink, split_app_sep, parse_parts_app, Hra.
    cbn [bind]. rewrite parse_parts_acc, Hrb. cbn [bind].
    by rewrite List.filter_app.
  - intros Ha Hb. unfold parse_ranges.
    rewrite Hink, Hb, split_app_sep, parse_parts_app.
    by rewrite (parse_parts_blank_acc a [] Ha).
  - intros Ha Hb. unfold parse_ranges.
    rewrite Hink, Ha, split_app_sep, parse_parts_app.
    destruct (parse_parts (split ","%char a) []) as [ra|e]; cbn [bind]; [|done].
    by rewrite (parse_parts_blank_acc b ra Hb).
  - intros e Ha Hpa. apply (parse_ranges_raised self a e Ha) in Hpa.
    unfold parse_ranges. by rewrite Hink, split_app_sep, parse_parts_app, Hpa.
  - intros found_a e Ha Hb Hpa Hpb.
    destruct (parse_ranges_found self a found_a Ha Hpa) as (ra & Hra & ->).
    apply (parse_ranges_raised self b e Hb) in Hpb.
    unfold parse_ranges. rewrite Hink, split_app_sep, parse_parts_app, Hra.
    cbn [bind]. by rewrite parse_parts_acc, Hpb.
Qed.

(** A range of two numbers: the list [first - 1 .. last - 1] is built, then
    clamped. *)
Lemma parse_ranges_range self a b :
  Forall (fun c => is_digit c = true) a -> a <> [] ->
  Forall (fun c => is_digit c = true) b -> b <> [] ->
  exists first last,
    py_int a = Ok first /\ py_int b = Ok last /\ 0 <= first /\ 0 <= last
    /\ (last <= SHORT_LIST ->
        parse_ranges self (a ++ "-"%char :: b)
        = Ok (List.filter (in_bounds self) (py_range (first - 1) last)))
    /\ (last <= SHORT_LIST -> 1 <= first -> last <= len (pages self) ->
        parse_ranges self (a ++ "-"%char :: b) = Ok (py_range (first - 1) last))
    /\ (PY_SSIZE_T_MAX < last - (first - 1) ->
        parse_ranges self (a ++ "-"%char :: b) = Raise OverflowError).
Proof.
  intros Ha Hane Hb Hbne.
  destruct (py_int_digits a Ha Hane) as (first & Hfirst & Hf0).
  destruct (py_int_digits b Hb Hbne) as (last & Hlast & Hl0).
  exists first, last. split; [done|]. split; [done|].
  split; [done|]. split; [done|].
  rewrite parse_ranges_dash by done. rewrite Hfirst, Hlast. cbn [bind].
  assert (Hshort : last <= SHORT_LIST ->
            extend_range [] (first - 1) last = Ok (py_range (first - 1) last)).
  { intros H. rewrite extend_range_ok; [done|].
    unfold SHORT_LIST, PY_SSIZE_T_MAX in *. lia. }
  split; [|split].
  - intros H. by rewrite (Hshort H).
  - intros H H1 Hn. rewrite (Hshort H). cbn [bind].
    rewrite filter_keeps_all; [done|].
    apply Forall_forall. intros i Hi. apply count_from_bounds in Hi.
    unfold in_bounds. lia.
  - intros H. by rewrite extend_range_overflow.
Qed.

Lemma parse_ranges_wide_example self :
  parse_ranges self (py "1-99999999999999999999") = Raise OverflowError.
Proof.
  unfold parse_ranges.
  replace (blank _) with false by (vm_compute; reflexivity).
  by replace (parse_parts _ _) with (@Raise (list Z) OverflowError)
    by (vm_compute; reflexivity).
Qed.

(** C2.  [parse_ranges] turns a comma-separated list of 1-based page numbers
    and inclusive ranges into zero-based indices.  In a 10-page document
    "1-3,5" gives [0,1,2,4]; an empty or all-whitespace string gives every
    index [0 .. pageCount - 1] whatever the document; every index returned
    lies inside the document.  A page number written in decimal digits never
    raises, and gives its zero-based index when that is a page and nothing
    otherwise, as "20" does in a 5-page document.  A range "a-b" whose end is
    at most [SHORT_LIST] gives the indices [a - 1 .. b - 1] that are pages,
    all of them when the range lies inside the document, as "3-20" gives
    [2,3,4] in a 5-page document.  A list "x,y" of two non-blank parts gives
    the indices of [x] followed by those of [y]; a blank part adds nothing;
    the first part that raises makes the list raise the same exception.
    But the list of a range is built before it is clamped: a range wider
    than 2^63 - 1 indices, as "1-99999999999999999999", is not dropped
    silently: it raises OverflowError in every document. *)
Theorem parse_ranges_pages :
  (forall self, len (pages self) = 10 ->
                parse_ranges self (py "1-3,5") = Ok [0; 1; 2; 4])
  /\ (forall self s,
        Forall (fun c => is_space c = true) s ->
        parse_ranges self s = Ok (py_range 0 (len (pages self))))
  /\ (forall self, len (pages self) = 5 ->
                   parse_ranges self (py "") = Ok [0; 1; 2; 3; 4])
  /\ (forall self s found,
        parse_ranges self s = Ok found ->
        Forall (fun i => 0 <= i < len (pages self)) found)
  /\ (forall self s,
        Forall (fun c => is_digit c = true) s -> s <> [] ->
        exists v,
          py_int s = Ok v /\ 0 <= v
          /\ parse_ranges self s
             = Ok (if in_bounds self (v - 1) then [v - 1] else []))
  /\ (forall self a b,
        Forall (fun c => is_digit c = true) a -> a <> [] ->
        Forall (fun c => is_digit c = true) b -> b <> [] ->
        exists first last,
          py_int a = Ok first /\ py_int b = Ok last
          /\ 0 <= first /\ 0 <= last
          /\ (last <= SHORT_LIST ->
              parse_ranges self (a ++ "-"%char :: b)
              = Ok (List.filter (in_bounds self) (py_range (first - 1) last)))
          /\ (last <= SHORT_LIST -> 1 <= first -> last <= len (pages self) ->
              parse_ranges self (a ++ "-"%char :: b)
              = Ok (py_range (first - 1) last))
          /\ (PY_SSIZE_T_MAX < last - (first - 1) ->
              parse_ranges self (a ++ "-"%char :: b) = Raise OverflowError))
  /\ (forall self x y,
        (forall found_x found_y,
            blank x = false -> blank y = false ->
            parse_ranges self x = Ok found_x ->
            parse_ranges self y = Ok found_y ->
            parse_ranges self (x ++ ","%char :: y) = Ok (found_x ++ found_y))
        /\ (blank x = true -> blank y = false ->
            parse_ranges self (x ++ ","%char :: y) = parse_ranges self y)
        /\ (blank x = false -> blank y = true ->
            parse_ranges self (x ++ ","%char :: y) = parse_ranges self x)
        /\ (forall e,
              blank x = false ->
              parse_ranges self x = Raise e ->
              parse_ranges self (x ++ ","%char :: y) = Raise e)
        /\ (forall found_x e,
              blank x = false -> blank y = false ->
              parse_ranges self x = Ok found_x ->
              parse_ranges self y = Raise e ->
              parse_ranges self (x ++ ","%char :: y) = Raise e))
  /\ (forall self, len (pages self) = 5 -> parse_ranges self (py "20") = Ok [])
  /\ (forall self, len (pages self) = 5 ->
                   parse_ranges self (py "3-20") = Ok [2; 3; 4])
  /\ (forall self,
        parse_ranges self (py "1-99999999999999999999") = Raise OverflowError).
Proof.
  split; [|split; [|split; [|split; [|split; [|split; [|split; [|split;
    [|split]]]]]]]].
  - intros self H. unfold parse_ranges.
    replace (blank (py "1-3,5")) with false by (vm_compute; reflexivity).
    replace (parse_parts (split ","%char (py "1-3,5")) [])
      with (Ok [0; 1; 2; 4]) by (vm_compute; reflexivity).
    cbn [bind List.filter]. unfold in_bounds. rewrite H. reflexivity.
  - intros self s H. unfold parse_ranges. by rewrite (blank_spaces s H).
  - intros self H. unfold parse_ranges. cbn [py list_ascii_of_string blank].
    by rewrite H.
  - apply parse_ranges_in_bounds.
  - apply parse_ranges_number.
  - apply parse_ranges_range.
  - apply parse_ranges_comma.
  - intros self H. unfold parse_ranges.
    replace (blank (py "20")) with false by (vm_compute; reflexivity).
    replace (parse_parts (split ","%char (py "20")) [])
      with (Ok [19]) by (vm_compute; reflexivity).
    cbn [bind List.filter]. unfold in_bounds. rewrite H. reflexivity.
  - intros self H. unfold parse_ranges.
    replace (blank (py "3-20")) with false by (vm_compute; reflexivity).
    replace (parse_parts (split ","%char (py "3-20")) [])
      with (Ok (py_range 2 20)) by (vm_compute; reflexivity).
    cbn [bind]. unfold in_bounds. rewrite H. reflexivity.
  - apply parse_ranges_wide_example.
Qed.

Lemma parse_ranges_pages_witness :
  len (pages ten_pages) = 10
  /\ parse_ranges ten_pages (py "1-3,5") = Ok [0; 1; 2; 4]
  /\ parse_ranges five_pages [" "%char; "009"%char] = Ok [0; 1; 2; 3; 4]
  /\ parse_ranges five_pages (py "20") = Ok []
  /\ parse_ranges five_pages (py "3-20") = Ok [2; 3; 4]
  /\ Forall (fun i => 0 <= i < len (pages five_pages)) [1; 4]
  /\ parse_ranges ten_pages (py "1-3,5" ++ ","%char :: py "7,9")
     = Ok ([0; 1; 2; 4] ++ [6; 8]).
Proof.
  destruct parse_ranges_pages
    as (H1 & H2 & _ & H4 & _ & _ & H7 & H8 & H9 & _).
  split; [reflexivity|].
  split; [apply H1; reflexivity|].
  split; [apply (H2 five_pages);
          repeat (apply Forall_cons_2; [reflexivity|]); apply Forall_nil_2|].
  split; [apply H8; reflexivity|].
  split; [apply H9; reflexivity|].
  split; [apply (H4 five_pages (py "2, 5,9")); vm_compute; reflexivity|].
  apply (proj1 (H7 ten_pages (py "1-3,5") (py "7,9"))); reflexivity.
Defined.

(** X13.  What [parse_ranges] refuses, in every document.  A text with an
    ASCII letter anywhere is never accepted: it raises; when the letter
    stands before the first comma the exception is ValueError, whatever
    follows.  An open range "a-" or "-a" and a part with two dashes raise
    ValueError.  A range "a-b" of two numbers whose list of indices would
    have more than 2^63 - 1 entries, as "1-99999999999999999999" has, raises
    OverflowError in every document: the list is built before it is clamped.
    A separator character after the dash, which [strip] would remove at the
    end of a part, makes [int] raise ValueError. *)
Theorem parse_ranges_rejects :
  (forall self s,
      existsb is_letter s = true -> exists e, parse_ranges self s = Raise e)
  /\ (forall self first rest,
        existsb is_letter first = true ->
        Forall (fun c => Ascii.eqb c ","%char = false) first ->
        parse_ranges self first = Raise ValueError
        /\ parse_ranges self (first ++ ","%char :: rest) = Raise ValueError)
  /\ (forall self a,
        Forall (fun c => is_digit c = true) a ->
        parse_ranges self (a ++ [ "-"%char ]) = Raise ValueError
        /\ parse_ranges self ("-"%char :: a) = Raise ValueError)
  /\ (forall self x y z,
        Forall (fun c => is_digit c = true) x ->
        Forall (fun c => is_digit c = true) y ->
        Forall (fun c => is_digit c = true) z ->
        parse_ranges self (x ++ "-"%char :: y ++ "-"%char :: z)
        = Raise ValueError)
  /\ (forall self a b first last,
        Forall (fun c => is_digit c = true) a ->
        Forall (fun c => is_digit c = true) b ->
        py_int a = Ok first ->
        py_int b = Ok last ->
        PY_SSIZE_T_MAX < last - (first - 1) ->
        parse_ranges self (a ++ "-"%char :: b) = Raise OverflowError)
  /\ (forall self,
        parse_ranges self (py "1-99999999999999999999") = Raise OverflowError)
  /\ (forall self,
        parse_ranges self [ "1"%char; "-"%char; ascii_of_nat 28; "3"%char ]
        = Raise ValueError).
Proof.
  split; [|split; [|split; [|split; [|split; [|split]]]]].
  - intros self s H. unfold parse_ranges.
    assert (Hb : blank s = false).
    { apply has_ink_not_blank. unfold has_ink.
      apply existsb_exists. apply existsb_exists in H as (c & Hin & Hc).
      exists c. split; [done|]. by rewrite (letter_ink c Hc). }
    rewrite Hb.
    assert (Hcomma : is_letter ","%char = false) by done.
    pose proof (parse_parts_letter _
                  (existsb_split is_letter ","%char s Hcomma H) []) as Hno.
    destruct (parse_parts _ _) as [raw|e]; [by destruct (Hno raw)|].
    by exists e.
  - intros self first rest H Hcomma.
    assert (Hb : forall t, blank (first ++ t) = false).
    { intros t. apply has_ink_not_blank. unfold has_ink. rewrite existsb_app.
      apply orb_true_iff. left.
      apply existsb_exists. apply existsb_exists in H as (c & Hin & Hc).
      exists c. split; [done|]. by rewrite (letter_ink c Hc). }
    split; unfold parse_ranges.
    + pose proof (Hb []) as Hb0. rewrite app_nil_r in Hb0.
      rewrite Hb0, (split_without _ _ Hcomma).
      by rewrite (parse_parts_letter_first first [] [] H).
    + rewrite Hb, split_app_sep, (split_without _ _ Hcomma). cbn [app].
      by rewrite (parse_parts_letter_first first _ [] H).
  - intros self a Ha. split.
    + rewrite (parse_ranges_dash self a [] Ha (Forall_nil_2 _)).
      destruct (py_int a) as [first|e] eqn:E; cbn [bind]; [reflexivity|].
      apply py_int_raises in E. by subst.
    + change ("-"%char :: a) with ([] ++ "-"%char :: a).
      by rewrite (parse_ranges_dash self [] a (Forall_nil_2 _) Ha).
  - intros self x y z Hx Hy Hz.
    set (s := x ++ "-"%char :: y ++ "-"%char :: z).
    assert (Hdig : forall t, Forall (fun c => is_digit c = true) t ->
                     Forall (fun c => is_space c = false
                                      /\ Ascii.eqb c ","%char = false) t).
    { intros t Ht. eapply Forall_impl; [exact Ht|]. intros c Hc.
      by destruct (digit_plain c Hc) as (-> & -> & _). }
    assert (Hplain : Forall (fun c => is_space c = false
                                      /\ Ascii.eqb c ","%char = false) s).
    { unfold s. apply Forall_app_2; [by apply Hdig|].
      apply Forall_cons_2; [done|]. apply Forall_app_2; [by apply Hdig|].
      apply Forall_cons_2; [done|]. by apply Hdig. }
    assert (Hstrip : strip s = s).
    { apply strip_without_spaces. eapply Forall_impl; [exact Hplain|].
      by intros c [-> _]. }
    assert (Hsplit : split ","%char s = [s]).
    { apply split_without. eapply Forall_impl; [exact Hplain|].
      by intros c [_ ->]. }
    assert (Hdash : contains "-"%char s = true).
    { unfold contains, s. rewrite existsb_app. cbn [existsb].
      by rewrite orb_true_r. }
    assert (Hne : exists c t, s = c :: t).
    { unfold s. destruct x as [|c x]; [by eexists _, _|].
      by exists c, (x ++ "-"%char :: y ++ "-"%char :: z). }
    assert (Hnodash : forall t, Forall (fun c => is_digit c = true) t ->
                        split "-"%char t = [t]).
    { intros t Ht. apply split_without. eapply Forall_impl; [exact Ht|].
      intros c Hc. by destruct (digit_plain c Hc) as (_ & _ & _ & -> & _). }
    assert (Hpieces : split "-"%char s = [x; y; z]).
    { unfold s. rewrite !split_app_sep.
      by rewrite (Hnodash x Hx), (Hnodash y Hy), (Hnodash z Hz). }
    unfold parse_ranges.
    assert (Hb0 : blank s = false).
    { unfold blank. rewrite Hstrip. by destruct Hne as (c & t & ->). }
    rewrite Hb0, Hsplit. cbn [parse_parts]. rewrite Hstrip.
    destruct Hne as (c & t & Hs). rewrite Hs at 1. rewrite Hdash.
    by rewrite Hpieces.
  - intros self a b first last Ha Hb Hfirst Hlast Hwide.
    rewrite parse_ranges_dash by done. rewrite Hfirst, Hlast. cbn [bind].
    by rewrite extend_range_overflow.
  - intros self. apply parse_ranges_wide_example.
  - intros self. unfold parse_ranges.
    replace (blank _) with false by (vm_compute; reflexivity).
    by replace (parse_parts _ _) with (@Raise (list Z) ValueError)
      by (vm_compute; reflexivity).
Qed.

Lemma parse_ranges_rejects_witness :
  parse_ranges five_pages (py "two") = Raise ValueError
  /\ parse_ranges five_pages (py "two,1-99999999999999999999")
     = Raise ValueError
  /\ parse_ranges five_pages (py "3-") = Raise ValueError
  /\ parse_ranges five_pages (py "1-2-3") = Raise ValueError
  /\ parse_ranges five_pages (py "0-9223372036854775807")
     = Raise OverflowError
  /\ exists e, parse_ranges five_pages (py "1,two") = Raise e.
Proof.
  destruct parse_ranges_rejects
    as (Hletter & Hfirst & Hopen & Htwo & Hwide & _).
  assert (D1 : Forall (fun c => is_digit c = true) (py "3"))
    by (repeat (apply Forall_cons_2; [reflexivity|]); apply Forall_nil_2).
  assert (Hc : Forall (fun c => Ascii.eqb c ","%char = false) (py "two"))
    by (repeat (apply Forall_cons_2; [reflexivity|]); apply Forall_nil_2).
  split; [exact (proj1 (Hfirst five_pages (py "two") [] eq_refl Hc))|].
  split; [exact (proj2 (Hfirst five_pages (py "two")
                          (py "1-99999999999999999999") eq_refl Hc))|].
  split; [exact (proj1 (Hopen five_pages (py "3") D1))|].
  split.
  { apply (Htwo five_pages (py "1") (py "2") (py "3"));
      repeat (apply Forall_cons_2; [reflexivity|]); apply Forall_nil_2. }
  split.
  { apply (Hwide five_pages (py "0") (py "9223372036854775807")
             0 9223372036854775807);
      [repeat (apply Forall_cons_2; [reflexivity|]); apply Forall_nil_2
      |repeat (apply Forall_cons_2; [reflexivity|]); apply Forall_nil_2
      |reflexivity|reflexivity|vm_compute; reflexivity]. }
  apply Hletter. reflexivity.
Defined.

(** X14.  The export started from the window never fails on an index.  On a
    loaded document whose pages and flags have the same length, the caller
    raises exactly when [parse_ranges] raises on the range text, and raises
    the same exception, before any thread is started: never IndexError.
    Otherwise, when the text writes out at most [SHORT_LIST] indices, the
    thread either writes one document, the selected pages among the parsed
    indices in the order written, leaving every other file alone and ending
    the progress at 1, or catches "No pages selected for export!", writes
    nothing and ends the progress at 0. *)
Theorem gui_export_outcomes :
  forall (self : PDFConverterGUI) (fs : gmap string (list Image))
         (out : string) (text : str),
    pages (manager self) <> [] ->
    length (pages (manager self)) = length (selected (manager self)) ->
    (forall e,
        gui_export_pdf self fs out text = Raise e
        <-> parse_ranges (manager self) text = Raise e)
    /\ gui_export_pdf self fs out text <> Raise IndexError
    /\ (forall fs1 log caught,
          (forall raw,
              parse_parts (split ","%char text) [] = Ok raw ->
              len raw <= SHORT_LIST) ->
          gui_export_pdf self fs out text = Ok (fs1, log, caught) ->
          exists page_indices,
            parse_ranges (manager self) text = Ok page_indices
            /\ Forall (fun i => 0 <= i < len (pages (manager self))) page_indices
            /\ let kept :=
                 map (page_at (manager self))
                     (List.filter (is_selected (manager self)) page_indices) in
               (caught = None
                /\ kept <> []
                /\ fs1 !! out = Some kept
                /\ (forall other, other <> out -> fs1 !! other = fs !! other)
                /\ last log = Some 1%Q)
               \/ (caught = Some (Exception "No pages selected for export!")
                   /\ kept = []
                   /\ fs1 = fs
                   /\ last log = Some 0%Q)).
Proof.
  intros self fs out text Hne Hlen.
  rewrite gui_export_pdf_spec by done.
  destruct (parse_ranges (manager self) text) as [page_indices|e] eqn:Hparse;
    cbn [bind].
  - split; [by split|]. split; [done|]. intros fs1 log caught _ H.
    exists page_indices. split; [done|].
    split; [by apply (parse_ranges_in_bounds _ text)|].
    cbn zeta in *.
    destruct (map _ _) as [|first others].
    + right. injection H as <- <- <-. split; [done|]. split; [done|].
      split; [done|]. apply last_framed.
    + left. injection H as <- <- <-. split; [done|]. split; [done|].
      split; [by rewrite lookup_insert_eq|].
      split; [intros other Ho; by rewrite lookup_insert_ne|].
      apply last_framed.
  - split; [by split; intros [= <-]|]. split; [|done].
    intros [= ->]. apply parse_ranges_raises in Hparse. by destruct Hparse.
Qed.

Lemma gui_export_outcomes_witness :
  (exists page_indices,
      parse_ranges second_deselected (py "2,1") = Ok page_indices
      /\ Forall (fun i => 0 <= i < len (pages second_deselected)) page_indices)
  /\ gui_export_pdf (mkGUI second_deselected 0 landscape_2x2)
       ∅ "out.pdf" (py "1-99999999999999999999") = Raise OverflowError.
Proof.
  split.
  - destruct (gui_export_outcomes (mkGUI second_deselected 0 landscape_2x2)
                ∅ "out.pdf" (py "2,1")) as (_ & _ & H).
    + discriminate.
    + reflexivity.
    + destruct (gui_export_pdf (mkGUI second_deselected 0 landscape_2x2)
                  ∅ "out.pdf" (py "2,1")) as [[[fs1 log] caught]|e] eqn:E;
        [|vm_compute in E; discriminate E].
      assert (Hshort : forall raw,
                 parse_parts (split ","%char (py "2,1")) [] = Ok raw ->
                 len raw <= SHORT_LIST).
      { intros raw Hraw. vm_compute in Hraw. injection Hraw as <-.
        vm_compute. discriminate. }
      destruct (H fs1 log caught Hshort eq_refl) as (page_indices & Hp & Hb & _).
      by exists page_indices.
  - destruct (gui_export_outcomes (mkGUI second_deselected 0 landscape_2x2)
                ∅ "out.pdf" (py "1-99999999999999999999")) as (H & _).
    + discriminate.
    + reflexivity.
    + apply H. apply parse_ranges_wide_example.
Defined.

(** * Further properties of the batch conversion *)

Lemma py_get_replicate {A : Type} (x : A) (n : nat) (i : Z) :
  0 <= i < Z.of_nat n -> py_get (replicate n x) i = Ok x.
Proof.
  intros H. rewrite <- (Z2Nat.id i) by lia. apply py_get_nat.
  apply lookup_replicate_2. lia.
Qed.

Lemma qualifying_all_from self todo : forall seen,
  pages self = seen ++ todo ->
  selected self = replicate (length (pages self)) true ->
  qualifying self (count_from (len seen) (length todo)) = todo.
Proof.
  induction todo as [|img todo IH]; intros seen Hp Hs; [reflexivity|].
  cbn [length count_from]. unfold qualifying. cbn [flat_map].
  rewrite Hs, py_get_replicate
    by (rewrite Hp, length_app; unfold len; cbn [length]; lia).
  rewrite Hp at 1. rewrite py_get_middle. cbn [app]. f_equal.
  specialize (IH (seen ++ [img])). rewrite <- app_assoc in IH.
  specialize (IH Hp Hs). unfold qualifying in IH.
  replace (len (seen ++ [img])) with (len seen + 1) in IH
    by (unfold len; rewrite length_app; cbn [length]; lia).
  rewrite Hs in IH. exact IH.
Qed.

Lemma qualifying_all self :
  selected self = replicate (length (pages self)) true ->
  qualifying self (py_range 0 (len (pages self))) = pages self.
Proof.
  intros Hs. unfold py_range.
  replace (Z.to_nat (len (pages self) - 0)) with (length (pages self))
    by (unfold len; lia).
  by apply (qualifying_all_from self (pages self) []).
Qed.

Lemma py_range_valid self :
  valid_indices self (py_range 0 (len (pages self))).
Proof.
  unfold valid_indices, py_range. apply Forall_forall. intros i Hi.
  apply count_from_bounds in Hi. unfold len in *. lia.
Qed.

Lemma absent_tail old c s : absent old (c :: s) -> absent old s.
Proof. intros H k. exact (H (S k)). Qed.

Lemma replace_from_absent old new s :
  absent old s -> replace_from old new 0 s = s.
Proof.
  induction s as [|c s IH]; intros H; cbn [replace_from]; [done|].
  pose proof (H 0%nat) as H0. cbn [drop] in H0. rewrite H0.
  f_equal. apply IH. by apply (absent_tail old c).
Qed.

Lemma replace_stem (stem rest : str) :
  Forall (fun c => c <> "."%char) stem ->
  replace (py ".pdf") (py "_converted.pdf") (stem ++ py ".pdf" ++ rest)
  = stem ++ py "_converted.pdf"
    ++ replace (py ".pdf") (py "_converted.pdf") rest.
Proof.
  unfold replace. induction 1 as [|c stem Hc _ IH].
  - reflexivity.
  - cbn [app replace_from]. 
    assert (Hs : startswith (py ".pdf") (c :: stem ++ py ".pdf" ++ rest) = false).
    { cbn [py list_ascii_of_string startswith].
      destruct (Ascii.eqb_spec "."%char c) as [<-|]; done. }
    rewrite Hs. f_equal. exact IH.
Qed.

Lemma absent_upper (stem : str) :
  Forall (fun c => c <> "."%char) stem ->
  absent (py ".pdf") (stem ++ py ".PDF").
Proof.
  induction 1 as [|c stem Hc _ IH]; intros k.
  - do 5 (destruct k as [|k]; [reflexivity|]). reflexivity.
  - destruct k as [|k]; [|apply IH].
    cbn [drop app py list_ascii_of_string startswith].
    destruct (Ascii.eqb_spec "."%char c) as [<-|]; done.
Qed.

(** X17.  The output path of the batch is [path.replace(".pdf",
    "_converted.pdf")]: the match is case-sensitive and is made wherever the
    text occurs.  A path in which ".pdf" does not occur is its own output
    path, so the batch writes over the file it has read; this is the case of
    a name ending in ".PDF".  For a name without a dot before it, the first
    ".pdf" becomes "_converted.pdf", and every later ".pdf" is replaced as
    well. *)
Theorem converted_path_cases :
  (forall path,
      absent (py ".pdf") path ->
      converted_path path = string_of_list_ascii path)
  /\ (forall stem,
        Forall (fun c => c <> "."%char) stem ->
        converted_path (stem ++ py ".PDF")
        = string_of_list_ascii (stem ++ py ".PDF")
        /\ converted_path (stem ++ py ".pdf")
           = string_of_list_ascii (stem ++ py "_converted.pdf"))
  /\ (forall stem rest,
        Forall (fun c => c <> "."%char) stem ->
        converted_path (stem ++ py ".pdf" ++ rest)
        = string_of_list_ascii
            (stem ++ py "_converted.pdf"
             ++ replace (py ".pdf") (py "_converted.pdf") rest)).
Proof.
  split; [|split].
  - intros path H. unfold converted_path, replace.
    by rewrite replace_from_absent.
  - intros stem H. split.
    + unfold converted_path, replace.
      by rewrite (replace_from_absent _ _ _ (absent_upper stem H)).
    + unfold converted_path.
      pose proof (replace_stem stem [] H) as Hr.
      rewrite app_nil_r in Hr. rewrite Hr.
      by rewrite app_nil_r.
  - intros stem rest H. unfold converted_path. by rewrite replace_stem.
Qed.

Lemma converted_path_cases_witness :
  converted_path (py "scan.PDF") = "scan.PDF"%string
  /\ converted_path (py "scan.pdf") = "scan_converted.pdf"%string
  /\ converted_path (py "scan.pdf.old.pdf")
     = "scan_converted.pdf.old_converted.pdf"%string.
Proof.
  destruct converted_path_cases as (_ & Hstem & Hrest).
  assert (H : Forall (fun c => c <> "."%char) (py "scan")).
  { repeat (apply Forall_cons_2; [discriminate|]). apply Forall_nil_2. }
  destruct (Hstem (py "scan") H) as [Hupper Hlower].
  split; [exact Hupper|]. split; [exact Hlower|].
  exact (Hrest (py "scan") (py ".old.pdf") H).
Defined.

(** * The page number 0 in the first version *)

Lemma py_get_beyond {A : Type} (l : list A) (i : Z) :
  len l <= i -> py_get l i = Raise IndexError.
Proof.
  intros H. unfold py_get, py_pos.
  destruct (Z.leb_spec 0 i); [|unfold len in *; lia].
  by destruct (Z.ltb_spec i (len l)); [lia|].
Qed.

Lemma py_get_last {A : Type} (l : list A) :
  l <> [] -> py_get l (-1) = py_get l (len l - 1).
Proof.
  intros H. assert (0 < len l) by (unfold len; destruct l; [done|cbn; lia]).
  unfold py_get, py_pos.
  destruct (Z.leb_spec 0 (-1)); [lia|].
  destruct (Z.leb_spec 0 (len l + -1)); [|lia].
  destruct (Z.leb_spec 0 (len l - 1)); [|lia].
  destruct (Z.ltb_spec (len l - 1) (len l)); [|lia].
  by replace (len l + -1) with (len l - 1) by lia.
Qed.

Lemma V4_parse_ranges_number self s v :
  Forall (fun c => is_digit c = true) s ->
  py_int s = Ok v ->
  V4.parse_ranges self s = Ok [v - 1].
Proof.
  intros H Hv. unfold V4.parse_ranges.
  rewrite (split_digits s H). cbn [V4.parse_parts].
  by rewrite (contains_digits s H), Hv.
Qed.

(** X15.  A page number outside the document, in the two versions.  In V4
    the number 0 exports the last page, because the index -1 it is turned
    into counts from the end, and a number above the page count raises
    IndexError with no file written.  In V6 both select nothing. *)
Theorem V4_page_number_outside :
  forall (self : PDFManager) (fs : gmap string (list Image)) (out : string)
         (settings : Settings) (s : str) (v : Z) (cb : bool),
    Forall (fun c => is_digit c = true) s ->
    s <> [] ->
    py_int s = Ok v ->
    pages self <> [] ->
    length (pages self) = length (selected self) ->
    let run := V4.export_pdf self fs out settings (Some s) cb in
    (v = 0 ->
       is_selected self (len (pages self) - 1) = true ->
       snd run = Ok tt
       /\ fst (fst run)
          = <[out := [page_at self (len (pages self) - 1)]]> fs)
    /\ (len (pages self) < v ->
          snd run = Raise IndexError /\ fst (fst run) = fs)
    /\ (v = 0 \/ len (pages self) < v -> parse_ranges self s = Ok []).
Proof.
  intros self fs out settings s v cb Hs Hne Hv Hp Hlen run.
  assert (Hpos : 0 < len (pages self)).
  { unfold len. destruct (pages self); [done|cbn [length]; lia]. }
  assert (Hrun : run
    = match V4.export_loop self cb 1 0 [v - 1] [] [] with
      | (log, Raise e) => (fs, log, Raise e)
      | (log, Ok []) =>
          (fs, log, Raise (Exception "No pages selected for export!"))
      | (log, Ok (first :: others)) => (<[out := first :: others]> fs, log, Ok tt)
      end).
  { unfold run, V4.export_pdf. destruct s as [|c t]; [done|].
    by rewrite (V4_parse_ranges_number self (c :: t) v Hs Hv). }
  split; [|split].
  - intros -> Hsel. rewrite Hrun. cbn [V4.export_loop Z.sub Z.add Z.opp].
    change (0 - 1) with (-1).
    assert (Hselne : selected self <> []).
    { intros E. rewrite E in Hlen. destruct (pages self); done. }
    rewrite (py_get_last (selected self) Hselne), (py_get_last (pages self) Hp).
    replace (len (selected self)) with (len (pages self))
      by (unfold len; by rewrite Hlen).
    unfold is_selected in Hsel. unfold page_at.
    destruct (py_get (selected self) (len (pages self) - 1)) as [keep|];
      [|done]. subst keep.
    destruct (py_get_in_range (pages self) (len (pages self) - 1))
      as [img Himg]; [lia|].
    rewrite Himg. cbn [bind app]. done.
  - intros Hbig. rewrite Hrun. cbn [V4.export_loop].
    rewrite py_get_beyond by (unfold len in *; rewrite <- Hlen; lia).
    done.
  - intros Hout.
    destruct (parse_ranges_number self s Hs Hne) as (v' & Hv' & _ & Hparse).
    rewrite Hv in Hv'. injection Hv' as <-. rewrite Hparse.
    unfold in_bounds.
    destruct Hout as [->|Hbig]; [done|].
    destruct (Z.ltb_spec (v - 1) (len (pages self))); [lia|].
    by rewrite andb_false_r.
Qed.

Lemma V4_page_number_outside_witness :
  snd (V4.export_pdf two_pages ∅ "out.pdf" default_settings (Some (py "0")) true)
  = Ok tt
  /\ fst (fst (V4.export_pdf two_pages ∅ "out.pdf" default_settings
                 (Some (py "0")) true))
     = <[ "out.pdf"%string := [page_at two_pages (len (pages two_pages) - 1)] ]> ∅.
Proof.
  refine (proj1 (V4_page_number_outside two_pages ∅ "out.pdf" default_settings
                   (py "0") 0 true _ _ _ _ _) eq_refl eq_refl).
  - repeat (apply Forall_cons_2; [reflexivity|]). apply Forall_nil_2.
  - discriminate.
  - reflexivity.
  - discriminate.
  - reflexivity.
Defined.

(** * Further properties of the compact layout *)

Lemma geometry_grid lo g :
  geometry lo = Ok g ->
  (cols g, rows g) = grid (layout lo)
  /\ (1 <= cols g <= 2) /\ (2 <= rows g <= 3).
Proof.
  unfold geometry. intros Hg.
  destruct (grid _) as [c r] eqn:Hgrid.
  destruct (PAPER_SIZES_MM _) as [w h].
  destruct (landscape _);
    destruct (mm_to_px _ _); try discriminate;
    destruct (mm_to_px _ _); try discriminate;
    destruct (mm_to_px _ _); try discriminate;
    destruct (mm_to_px _ _); try discriminate;
    cbn in Hg; injection Hg as <-; cbn [cols rows];
    (split; [done|]);
    unfold grid in Hgrid;
    repeat (destruct (String.eqb _ _) in Hgrid);
    injection Hgrid as <- <-; lia.
Qed.

Section SheetFacts.
Variable thumbnail_size : Z * Z -> Z * Z -> Z * Z.

Lemma place_cell_deref g left_to_right border page cell_idx st :
  draw st = sheet_img st ->
  (sheet_img st < length (heap st))%nat ->
  deref (heap (place_cell thumbnail_size g left_to_right border page cell_idx st))
        (sheet_img st)
  = draw_cell thumbnail_size g left_to_right border page cell_idx
              (deref (heap st) (sheet_img st)).
Proof.
  intros Hd Hlt.
  destruct (lookup_lt_is_Some_2 _ _ Hlt) as [base Hbase].
  unfold place_cell, draw_cell, deref.
  destruct left_to_right, (thumbnail_size _ _), border;
    cbn [heap]; rewrite ?Hd, ?list_lookup_alter_eq, Hbase; done.
Qed.

Lemma export_cells_pure self g left_to_right border cps s j :
  forall c0 st,
    0 <= s * cps + c0 ->
    draw st = sheet_img st ->
    (sheet_img st < length (heap st))%nat ->
    let run := export_cells thumbnail_size self g left_to_right border
                 (len (pages (manager self))) cps s (count_from c0 j) st in
    snd run = Ok tt
    /\ deref (heap (fst run)) (sheet_img st)
       = draw_cells thumbnail_size g left_to_right border c0
           (take j (drop (Z.to_nat (s * cps + c0)) (pages (manager self))))
           (deref (heap st) (sheet_img st)).
Proof.
  induction j as [|j IH]; intros c0 st Hpos Hd Hlt;
    cbn [count_from export_cells]; [done|].
  destruct (Z.leb_spec (len (pages (manager self))) (s * cps + c0)) as [Hout|Hin].
  - cbn [fst snd]. rewrite drop_ge by (unfold len in Hout; lia). done.
  - assert (Hn : (Z.to_nat (s * cps + c0) < length (pages (manager self)))%nat)
      by (unfold len in Hin; lia).
    destruct (lookup_lt_is_Some_2 _ _ Hn) as [page Hpage].
    assert (Hget : py_get (pages (manager self)) (s * cps + c0) = Ok page).
    { rewrite <- (Z2Nat.id (s * cps + c0)) by done. by apply py_get_nat. }
    rewrite Hget.
    set (st1 := place_cell thumbnail_size g left_to_right border page c0 st).
    set (st2 := set_progress _ st1).
    destruct (place_cell_frame thumbnail_size g left_to_right border page c0 st)
      as (F1 & F2 & _ & _ & F5).
    fold st1 in F1, F2, F5.
    assert (S1 : sheet_img st2 = sheet_img st) by done.
    assert (S2 : draw st2 = sheet_img st2) by (cbn; congruence).
    assert (S3 : (sheet_img st2 < length (heap st2))%nat)
      by (cbn [st2 set_progress heap sheet_img]; lia).
    destruct (IH (c0 + 1) st2 ltac:(lia) S2 S3) as [Hok Hderef].
    cbn zeta in *. split; [exact Hok|].
    rewrite S1 in Hderef. rewrite Hderef.
    rewrite (drop_S _ _ _ Hpage). cbn [take draw_cells].
    replace (Z.to_nat (s * cps + (c0 + 1))) with (S (Z.to_nat (s * cps + c0)))
      by lia.
    f_equal. change (heap st2) with (heap st1).
    by apply place_cell_deref.
Qed.

Lemma new_sheet_deref g st :
  deref (heap (new_sheet g st)) (length (heap st))
  = Blank (sheet_w g) (sheet_h g).
Proof.
  unfold new_sheet, deref. cbn [heap].
  by rewrite lookup_app_r, Nat.sub_diag by lia.
Qed.

Lemma export_sheets_pure self g m :
  let lo := layout_options self in
  0 <= cols g * rows g ->
  forall s0 st,
    0 <= s0 ->
    Forall (fun a => (a < length (heap st))%nat) (sheet_images st) ->
    let run := export_sheets thumbnail_size self g
                 (String.eqb (reading_direction lo) "Left to Right")
                 (with_border lo) (len (pages (manager self)))
                 (cols g * rows g) (count_from s0 m) st in
    snd run = Ok tt
    /\ images_of (fst run)
       = images_of st
         ++ map (compact_sheet thumbnail_size self g) (count_from s0 m).
Proof.
  intros lo Hcps.
  induction m as [|m IH]; intros s0 st Hs0 Hin;
    cbn [count_from export_sheets map].
  - by rewrite app_nil_r.
  - set (cps := cols g * rows g) in *.
    set (st1 := new_sheet g st).
    assert (Hd1 : draw st1 = sheet_img st1) by done.
    assert (Hl1 : (sheet_img st1 < length (heap st1))%nat).
    { cbn [st1 new_sheet sheet_img heap]. rewrite length_app. cbn. lia. }
    unfold py_range. rewrite Z.sub_0_r.
    destruct (export_cells_pure self g
                (String.eqb (reading_direction lo) "Left to Right")
                (with_border lo) cps s0 (Z.to_nat cps) 0 st1
                ltac:(nia) Hd1 Hl1) as [Hok Hderef].
    destruct (export_cells_heap thumbnail_size self g
                (String.eqb (reading_direction lo) "Left to Right")
                (with_border lo) (len (pages (manager self))) cps s0
                (count_from 0 (Z.to_nat cps)) st1 Hd1)
      as (C1 & C2 & C3 & C4 & _).
    cbn zeta in *.
    destruct (export_cells _ _ _ _ _ _ _ _ _ _) as [st2 r]; cbn [fst snd] in *.
    subst r.
    cbn [st1 new_sheet sheet_img sheet_images heap] in C1, C2, C3, C4, Hderef.
    rewrite length_app in C3. cbn [length] in C3.
    pose proof (new_sheet_deref g st) as Hnew.
    cbn [new_sheet heap] in Hnew. rewrite Hnew in Hderef. clear Hnew.
    rewrite Z.add_0_r in Hderef.
    fold (on_sheet self g s0) in Hderef.
    change (draw_cells thumbnail_size g _ _ 0 (on_sheet self g s0) _)
      with (filled_sheet thumbnail_size self g s0) in Hderef.
    set (st3 := if landscape (layout_options self) then rotate_sheet st2 else st2).
    assert (H3len : (length (heap st2) <= length (heap st3))%nat).
    { unfold st3. destruct (landscape _); [|done].
      cbn [rotate_sheet heap]. rewrite length_app. lia. }
    assert (H3old : forall a, (a < length (heap st2))%nat ->
                              heap st3 !! a = heap st2 !! a).
    { intros a Ha. unfold st3. destruct (landscape _); [|done].
      cbn [rotate_sheet heap]. by apply lookup_app_l. }
    assert (H3img : (sheet_img st3 < length (heap st3))%nat
                    /\ deref (heap st3) (sheet_img st3)
                       = compact_sheet thumbnail_size self g s0).
    { unfold st3, compact_sheet. destruct (landscape _).
      - cbn [rotate_sheet heap sheet_img]. rewrite length_app. cbn [length].
        split; [lia|]. unfold deref at 1.
        rewrite lookup_app_r, Nat.sub_diag by lia. cbn.
        by rewrite C1, Hderef.
      - rewrite C1, Hderef. split; [lia|done]. }
    destruct H3img as [H3lt H3deref].
    assert (H3seq : sheet_images st3 = sheet_images st).
    { unfold st3. destruct (landscape _); by rewrite <- C2. }
    assert (Hin4 : Forall (fun a => (a < length (heap (append_sheet st3)))%nat)
                          (sheet_images (append_sheet st3))).
    { cbn [append_sheet heap sheet_images]. rewrite H3seq.
      apply Forall_app_2; [|by apply Forall_cons_2; [|apply Forall_nil_2]].
      eapply Forall_impl; [exact Hin|]. cbn. lia. }
    destruct (IH (s0 + 1) (append_sheet st3) ltac:(lia) Hin4) as (Hok' & Himg).
    cbn zeta in *. split; [exact Hok'|].
    rewrite Himg.
    unfold images_of at 1. cbn [append_sheet heap sheet_images].
    rewrite H3seq, map_app. cbn [map]. rewrite H3deref.
    rewrite <- app_assoc. cbn [app]. f_equal.
    unfold images_of. apply Forall_fmap_ext_1.
    eapply Forall_impl; [exact Hin|]. cbn. intros a Ha.
    unfold deref. rewrite H3old by lia.
    rewrite C4 by lia. by rewrite lookup_app_l by lia.
Qed.

Lemma compose_export_pure self g st :
  geometry (layout_options self) = Ok g ->
  Forall (fun a => (a < length (heap st))%nat) (sheet_images st) ->
  snd (compose_export thumbnail_size self st) = Ok tt
  /\ images_of (fst (compose_export thumbnail_size self st))
     = images_of st ++ compact_sheets thumbnail_size self g.
Proof.
  intros Hg Hin. unfold compose_export. rewrite Hg.
  destruct (geometry_grid _ g Hg) as (_ & Hc & Hr).
  unfold py_range, compact_sheets.
  destruct (export_sheets_pure self g
              (Z.to_nat (sheet_count (len (pages (manager self)))
                                     (cols g * rows g) - 0))
              ltac:(nia) 0 st ltac:(lia) Hin) as (Hok & Himg).
  done.
Qed.

End SheetFacts.

Lemma sheet_count_covers total cps :
  0 < cps -> 0 <= total ->
  total <= sheet_count total cps * cps
  /\ 0 <= sheet_count total cps
  /\ (0 < total -> 1 <= sheet_count total cps).
Proof.
  intros Hc Ht. unfold sheet_count.
  pose proof (Z.div_mod (total + cps - 1) cps ltac:(lia)) as Hd.
  pose proof (Z.mod_pos_bound (total + cps - 1) cps Hc) as Hm.
  split; [nia|]. split; [apply Z.div_pos; lia|].
  intros Hpos. apply Z.div_le_lower_bound; lia.
Qed.

Lemma geometry_sheet_size lo g :
  geometry lo = Ok g ->
  (if landscape lo then (sheet_h g, sheet_w g) else (sheet_w g, sheet_h g))
  = if String.eqb (paper lo) "Letter" then (1700, 2196) else (1653, 2338).
Proof.
  assert (A1 : mm_to_px 210.0%float DEFAULT_DPI = Ok 1653)
    by (vm_compute; reflexivity).
  assert (A2 : mm_to_px 297.0%float DEFAULT_DPI = Ok 2338)
    by (vm_compute; reflexivity).
  assert (L1 : mm_to_px 216.0%float DEFAULT_DPI = Ok 1700)
    by (vm_compute; reflexivity).
  assert (L2 : mm_to_px 279.0%float DEFAULT_DPI = Ok 2196)
    by (vm_compute; reflexivity).
  unfold geometry, PAPER_SIZES_MM. destruct (grid _) as [c r].
  destruct (String.eqb (paper lo) "Letter"), (landscape lo);
    rewrite ?A1, ?A2, ?L1, ?L2; clear A1 A2 L1 L2; cbn [bind];
    destruct (mm_to_px (outer_margin_mm lo) _); try discriminate;
    destruct (mm_to_px (inner_margin_mm lo) _); try discriminate;
    cbn [bind]; by intros [= <-].
Qed.

Section SheetProperties.
Variable thumbnail_size : Z * Z -> Z * Z -> Z * Z.

Lemma draw_cell_frame g left_to_right border page cell_idx base :
  let im := draw_cell thumbnail_size g left_to_right border page cell_idx base in
  size im = size base
  /\ pastes im = S (pastes base)
  /\ rotations im = rotations base.
Proof.
  unfold draw_cell.
  by destruct left_to_right, (thumbnail_size _ _), border.
Qed.

Lemma draw_cells_frame g left_to_right border on_sheet :
  forall cell_idx base,
    let im := draw_cells thumbnail_size g left_to_right border cell_idx
                         on_sheet base in
    size im = size base
    /\ pastes im = (length on_sheet + pastes base)%nat
    /\ rotations im = rotations base.
Proof.
  induction on_sheet as [|page rest IH]; intros cell_idx base;
    cbn [draw_cells length]; [done|].
  destruct (IH (cell_idx + 1)
              (draw_cell thumbnail_size g left_to_right border page cell_idx base))
    as (I1 & I2 & I3).
  destruct (draw_cell_frame g left_to_right border page cell_idx base)
    as (D1 & D2 & D3).
  cbn zeta in *. rewrite I1, I2, I3, D1, D2, D3. split; [done|]. split; [lia|done].
Qed.

Lemma on_sheet_concat self g m : forall s0,
  0 < cols g * rows g ->
  0 <= s0 ->
  len (pages (manager self)) <= (s0 + Z.of_nat m) * (cols g * rows g) ->
  concat (map (on_sheet self g) (count_from s0 m))
  = drop (Z.to_nat (s0 * (cols g * rows g))) (pages (manager self)).
Proof.
  induction m as [|m IH]; intros s0 Hc Hs Hcover; cbn [count_from map concat].
  - rewrite drop_ge; [done|]. unfold len in Hcover. lia.
  - rewrite IH by lia. unfold on_sheet.
    replace (Z.to_nat ((s0 + 1) * (cols g * rows g)))
      with (Z.to_nat (s0 * (cols g * rows g)) + Z.to_nat (cols g * rows g))%nat
      by nia.
    rewrite <- drop_drop. apply take_drop.
Qed.

End SheetProperties.

(** X18.  The export path of the compact generator, without the object
    store: whenever the layout's sizes can be computed, composing never
    raises, and the sheets are [compact_sheets]: sheet [s] is a white sheet
    on which the pages [s * cells .. s * cells + cells - 1] of the document
    are drawn cell by cell in document order, turned once at the end in
    landscape.  The keep flags are not read: a page that is deselected is
    placed like any other. *)
Theorem compact_export_described :
  forall (thumbnail_size : Z * Z -> Z * Z -> Z * Z)
         (self : PDFConverterGUI) (g : Geometry),
    geometry (layout_options self) = Ok g ->
    export_sheet_images thumbnail_size self
    = Ok (compact_sheets thumbnail_size self g)
    /\ (forall flags,
          export_sheet_images thumbnail_size (with_selected self flags)
          = export_sheet_images thumbnail_size self).
Proof.
  intros thumbnail_size self g Hg.
  assert (H : forall w, geometry (layout_options w) = Ok g ->
                export_sheet_images thumbnail_size w
                = Ok (compact_sheets thumbnail_size w g)).
  { intros w Hw. unfold export_sheet_images.
    destruct (compose_export_pure thumbnail_size w g (mkCompose [] 0 0 [] [])
                Hw ltac:(apply Forall_nil_2)) as [Hok Himg].
    destruct (compose_export _ _ _) as [st r]. cbn [fst snd] in *.
    subst r. by rewrite Himg. }
  split; [by apply H|].
  intros flags. rewrite (H self Hg), (H (with_selected self flags) Hg).
  reflexivity.
Qed.

Lemma compact_export_described_witness :
  export_sheet_images fit_within landscape_window
  = export_sheet_images fit_within
      (with_selected landscape_window [false; false]).
Proof.
  assert (Hg : exists g, geometry (layout_options landscape_window) = Ok g)
    by (eexists; vm_compute; reflexivity).
  destruct Hg as [g Hg].
  symmetry.
  exact (proj2 (compact_export_described fit_within landscape_window g Hg)
               [false; false]).
Defined.

(** X19.  Where the pages go.  The number of sheets is the page count
    divided by the cells of the grid, rounded up; the pages on the sheets,
    sheet after sheet, are the pages of the document, each one once and in
    order; sheet [s] carries as many pasted images as it has pages; and every
    sheet has the pixel size of the upright paper, 1653 x 2338 for A4 and
    1700 x 2196 for Letter, in portrait and in landscape alike. *)
Theorem compact_sheets_hold_every_page :
  forall (thumbnail_size : Z * Z -> Z * Z -> Z * Z)
         (self : PDFConverterGUI) (g : Geometry),
    geometry (layout_options self) = Ok g ->
    let total := len (pages (manager self)) in
    let cells := cols g * rows g in
    let sheets := compact_sheets thumbnail_size self g in
    Z.of_nat (length sheets) = (total + cells - 1) / cells
    /\ concat (map (on_sheet self g) (py_range 0 (sheet_count total cells)))
       = pages (manager self)
    /\ (forall s, pastes (compact_sheet thumbnail_size self g s)
                  = length (on_sheet self g s))
    /\ (forall s, 0 <= s ->
                  Z.of_nat (length (on_sheet self g s))
                  = Z.max 0 (Z.min cells (total - s * cells)))
    /\ Forall (fun sheet =>
                 size sheet
                 = if String.eqb (paper (layout_options self)) "Letter"
                   then (1700, 2196) else (1653, 2338))
              sheets.
Proof.
  intros thumbnail_size self g Hg total cells sheets.
  destruct (geometry_grid _ g Hg) as (_ & Hc & Hr).
  assert (Hcells : 0 < cells) by (unfold cells; nia).
  assert (Htotal : 0 <= total) by (unfold total, len; lia).
  destruct (sheet_count_covers total cells Hcells Htotal) as (Hcover & Hn0 & _).
  split; [|split; [|split; [|split]]].
  - unfold sheets, compact_sheets, py_range.
    rewrite length_map, count_from_length. fold total cells.
    unfold sheet_count in *. lia.
  - unfold py_range.
    rewrite (on_sheet_concat self g _ 0) by (fold cells total; lia).
    done.
  - intros s. unfold compact_sheet, filled_sheet.
    destruct (draw_cells_frame thumbnail_size g
                (String.eqb (reading_direction (layout_options self)) "Left to Right")
                (with_border (layout_options self)) (on_sheet self g s) 0
                (Blank (sheet_w g) (sheet_h g))) as (_ & Hp & _).
    cbn zeta in Hp. destruct (landscape _); cbn [pastes]; rewrite Hp; cbn; lia.
  - intros s Hs. unfold on_sheet. fold cells.
    rewrite length_take, length_drop. fold total. unfold total, len. nia.
  - unfold sheets, compact_sheets. apply Forall_fmap, Forall_forall.
    intros s _. cbn. rewrite <- (geometry_sheet_size _ g Hg).
    unfold compact_sheet, filled_sheet.
    destruct (draw_cells_frame thumbnail_size g
                (String.eqb (reading_direction (layout_options self)) "Left to Right")
                (with_border (layout_options self)) (on_sheet self g s) 0
                (Blank (sheet_w g) (sheet_h g))) as (Hsz & _ & _).
    cbn zeta in Hsz. destruct (landscape _); cbn [size]; by rewrite Hsz.
Qed.

Lemma compact_sheets_hold_every_page_witness :
  exists g,
    geometry (layout_options (mkGUI five_pages 0 landscape_2x2)) = Ok g
    /\ Z.of_nat (length (compact_sheets fit_within
                           (mkGUI five_pages 0 landscape_2x2) g))
       = (5 + 4 - 1) / 4.
Proof.
  assert (Hg : exists g,
             geometry (layout_options (mkGUI five_pages 0 landscape_2x2)) = Ok g
             /\ cols g * rows g = 4)
    by (eexists; split; vm_compute; reflexivity).
  destruct Hg as (g & Hg & Hcells). exists g. split; [exact Hg|].
  pose proof (proj1 (compact_sheets_hold_every_page fit_within
                       (mkGUI five_pages 0 landscape_2x2) g Hg)) as H.
  cbn zeta in H. rewrite Hcells in H. exact H.
Defined.

(** X20.  What the compact generator writes.  With a loaded document and a
    layout whose sizes can be computed, the thread catches nothing and
    writes one file whose pages are the sheets of [compact_sheets], each one
    saved as JPEG at the quality of the layout options and read back; every
    other file is left alone.  With no page there is nothing to save: the
    handler catches "Nothing to save for compact PDF" and no file is
    written. *)
Theorem generate_compact_writes_sheets :
  forall (thumbnail_size : Z * Z -> Z * Z -> Z * Z)
         (self : PDFConverterGUI) (g : Geometry)
         (fs : gmap string (list Image)) (out_path : string),
    geometry (layout_options self) = Ok g ->
    let run := _generate_compact_thread thumbnail_size self fs out_path in
    let sheets := compact_sheets thumbnail_size self g in
    (pages (manager self) <> [] ->
       snd run = None
       /\ sheets <> []
       /\ fst (fst run)
          = <[out_path := map (fun sheet =>
                                 Jpeg sheet (quality (layout_options self)))
                              sheets]> fs)
    /\ (pages (manager self) = [] ->
          snd run = Some (Exception "Nothing to save for compact PDF")
          /\ fst (fst run) = fs).
Proof.
  intros thumbnail_size self g fs out_path Hg run sheets.
  destruct (geometry_grid _ g Hg) as (_ & Hc & Hr).
  destruct (compose_export_pure thumbnail_size self g
              (mkCompose [] 0 0 [] [0%Q]) Hg ltac:(apply Forall_nil_2))
    as [Hok Himg].
  assert (Hrun : (fst (fst run), snd run)
    = match map (fun sheet => Jpeg sheet (quality (layout_options self))) sheets
      with
      | [] => (fs, Some (Exception "Nothing to save for compact PDF"))
      | first :: others => (<[out_path := first :: others]> fs, None)
      end).
  { unfold run, _generate_compact_thread.
    destruct (compose_export _ _ _) as [st r]. cbn [fst snd] in Hok, Himg.
    subst r. rewrite prepare_sheets_spec, Himg.
    change (images_of (mkCompose [] 0 0 [] [0%Q])) with (@nil Image).
    cbn [app]. fold sheets. by destruct (map _ sheets). }
  split.
  - intros Hne.
    assert (Hs : sheets <> []).
    { unfold sheets, compact_sheets, py_range.
      assert (0 < len (pages (manager self)))
        by (unfold len; destruct (pages (manager self)); [done|cbn; lia]).
      destruct (sheet_count_covers (len (pages (manager self)))
                  (cols g * rows g) ltac:(nia) ltac:(lia)) as (_ & _ & H1).
      specialize (H1 ltac:(lia)).
      destruct (Z.to_nat _) as [|n] eqn:E; [lia|]. done. }
    clearbody sheets run. destruct sheets as [|first others]; [done|].
    cbn [map] in Hrun. injection Hrun as Hfs Hcaught.
    split; [exact Hcaught|]. split; [done|exact Hfs].
  - intros Hnil.
    assert (Hs : sheets = []).
    { unfold sheets, compact_sheets, py_range, sheet_count. rewrite Hnil.
      change (len []) with 0.
      rewrite Z.div_small by nia. done. }
    clearbody sheets run. subst sheets. cbn [map] in Hrun.
    injection Hrun as Hfs Hcaught. by split.
Qed.

Lemma generate_compact_writes_sheets_witness :
  snd (_generate_compact_thread fit_within landscape_window ∅ "out.pdf")
  = None.
Proof.
  assert (Hg : exists g, geometry (layout_options landscape_window) = Ok g)
    by (eexists; vm_compute; reflexivity).
  destruct Hg as [g Hg].
  refine (proj1 (proj1 (generate_compact_writes_sheets fit_within
                          landscape_window g ∅ "out.pdf" Hg) _)).
  discriminate.
Defined.

Lemma preview_cells_portrait (thumbnail_size : Z * Z -> Z * Z -> Z * Z)
    self g left_to_right border cps s j :
  landscape (layout_options self) = false ->
  forall c0 st,
    0 <= s * cps + c0 ->
    draw st = sheet_img st ->
    (sheet_img st < length (heap st))%nat ->
    let run := preview_cells thumbnail_size self g left_to_right border
                 (len (pages (manager self))) cps s (count_from c0 j) st in
    let visited :=
      take j (drop (Z.to_nat (s * cps + c0)) (pages (manager self))) in
    snd run = Ok tt
    /\ sheet_images (fst run)
       = sheet_images st ++ replicate (length visited) (sheet_img st)
    /\ deref (heap (fst run)) (sheet_img st)
       = draw_cells thumbnail_size g left_to_right border c0 visited
                    (deref (heap st) (sheet_img st)).
Proof.
  intros Hport.
  induction j as [|j IH]; intros c0 st Hpos Hd Hlt;
    cbn [count_from preview_cells].
  - cbn. by rewrite app_nil_r.
  - destruct (Z.leb_spec (len (pages (manager self))) (s * cps + c0)) as [Hout|Hin].
    + cbn [fst snd]. rewrite drop_ge by (unfold len in Hout; lia).
      cbn. by rewrite app_nil_r.
    + assert (Hn : (Z.to_nat (s * cps + c0) < length (pages (manager self)))%nat)
        by (unfold len in Hin; lia).
      destruct (lookup_lt_is_Some_2 _ _ Hn) as [page Hpage].
      assert (Hget : py_get (pages (manager self)) (s * cps + c0) = Ok page).
      { rewrite <- (Z2Nat.id (s * cps + c0)) by done. by apply py_get_nat. }
      rewrite Hget, Hport.
      set (st1 := place_cell thumbnail_size g left_to_right border page c0 st).
      destruct (place_cell_frame thumbnail_size g left_to_right border page c0 st)
        as (F1 & F2 & F3 & _ & F5).
      fold st1 in F1, F2, F3, F5.
      set (st2 := append_sheet st1).
      assert (S1 : sheet_img st2 = sheet_img st) by done.
      assert (S2 : draw st2 = sheet_img st2) by (cbn; congruence).
      assert (S3 : (sheet_img st2 < length (heap st2))%nat)
        by (cbn [st2 append_sheet heap sheet_img]; lia).
      destruct (IH (c0 + 1) st2 ltac:(lia) S2 S3) as (Hok & Hseq & Hderef).
      cbn zeta in *. split; [exact Hok|].
      rewrite (drop_S _ _ _ Hpage). cbn [take length replicate draw_cells].
      replace (Z.to_nat (s * cps + (c0 + 1))) with (S (Z.to_nat (s * cps + c0)))
        in Hseq, Hderef by lia.
      split.
      * rewrite Hseq. cbn [st2 append_sheet sheet_images sheet_img].
        rewrite F1, F3, <- app_assoc. done.
      * rewrite S1 in Hderef. rewrite Hderef. f_equal.
        change (heap st2) with (heap st1). by apply place_cell_deref.
Qed.

(** X21.  The preview in portrait.  With a loaded document, a layout whose
    sizes can be computed and [count >= 1], the preview returns one image
    for every page of the first sheet and nothing of any later sheet,
    whatever [count] is; the images are one and the same object, appended
    once per cell, so each of them shows the finished first sheet of the
    export path. *)
Theorem portrait_preview_repeats_first_sheet :
  forall (thumbnail_size : Z * Z -> Z * Z -> Z * Z)
         (self : PDFConverterGUI) (g : Geometry) (count : Z),
    geometry (layout_options self) = Ok g ->
    landscape (layout_options self) = false ->
    pages (manager self) <> [] ->
    1 <= count ->
    _compose_sheets_preview thumbnail_size self count
    = Ok (Some (replicate (length (on_sheet self g 0))
                          (compact_sheet thumbnail_size self g 0)))
    /\ Z.of_nat (length (on_sheet self g 0))
       = Z.min (cols g * rows g) (len (pages (manager self))).
Proof.
  intros thumbnail_size self g count Hg Hport Hne Hcount.
  destruct (geometry_grid _ g Hg) as (_ & Hc & Hr).
  assert (Htotal : 0 < len (pages (manager self)))
    by (unfold len; destruct (pages (manager self)); [done|cbn; lia]).
  destruct (sheet_count_covers (len (pages (manager self)))
              (cols g * rows g) ltac:(nia) ltac:(lia)) as (_ & _ & H1).
  specialize (H1 Htotal).
  split.
  - unfold _compose_sheets_preview. rewrite Hg. cbn [bind].
    unfold py_range at 1.
    destruct (Z.to_nat (Z.min _ count - 0)) as [|n] eqn:E; [lia|].
    cbn [count_from].
    set (st1 := new_sheet g (mkCompose [] 0 0 [] [])).
    unfold py_range. rewrite Z.sub_0_r.
    destruct (preview_cells_portrait thumbnail_size self g
                (String.eqb (reading_direction (layout_options self)) "Left to Right")
                (with_border (layout_options self)) (cols g * rows g) 0
                (Z.to_nat (cols g * rows g)) Hport 0 st1
                ltac:(lia) eq_refl ltac:(cbn; lia)) as (Hok & Hseq & Hderef).
    cbn zeta in *.
    destruct (preview_cells _ _ _ _ _ _ _ _ _ _) as [st2 r]. cbn [fst snd] in *.
    subst r. do 2 f_equal.
    unfold images_of. rewrite Hseq. cbn [st1 new_sheet sheet_images sheet_img app].
    change (0 * (cols g * rows g) + 0) with 0 in *.
    unfold on_sheet. change (0 * (cols g * rows g)) with 0.
    rewrite fmap_replicate. f_equal.
    cbn [st1 new_sheet sheet_img heap length app] in Hderef.
    cbn [heap length]. rewrite Hderef. unfold compact_sheet. rewrite Hport.
    unfold filled_sheet, on_sheet. by change (0 * (cols g * rows g)) with 0.
  - unfold on_sheet. change (0 * (cols g * rows g)) with 0.
    rewrite length_take, length_drop. unfold len in *. cbn. lia.
Qed.

Lemma portrait_preview_repeats_first_sheet_witness :
  exists g,
    geometry (layout_options (mkGUI five_pages 0 portrait_2x2)) = Ok g
    /\ _compose_sheets_preview fit_within (mkGUI five_pages 0 portrait_2x2) 2
       = Ok (Some (replicate
                     (length (on_sheet (mkGUI five_pages 0 portrait_2x2) g 0))
                     (compact_sheet fit_within
                        (mkGUI five_pages 0 portrait_2x2) g 0))).
Proof.
  assert (Hg : exists g,
             geometry (layout_options (mkGUI five_pages 0 portrait_2x2)) = Ok g)
    by (eexists; vm_compute; reflexivity).
  destruct Hg as [g Hg]. exists g. split; [exact Hg|].
  refine (proj1 (portrait_preview_repeats_first_sheet fit_within
                   (mkGUI five_pages 0 portrait_2x2) g 2 Hg _ _ _)).
  - reflexivity.
  - discriminate.
  - lia.
Defined.


(** * The layout options the window offers *)

Lemma count_from_In a n i :
  a <= i < a + Z.of_nat n -> In i (count_from a n).
Proof.
  revert a. induction n as [|n IH]; intros a H; cbn [count_from]; [lia|].
  destruct (Z.eq_dec i a) as [->|Hne]; [by left|].
  right. apply IH. lia.
Qed.

Lemma outer_tabulated : forallb outer_ok (py_range 0 31) = true.
Proof. vm_compute. reflexivity. Qed.

Lemma inner_tabulated : forallb inner_ok (py_range 0 21) = true.
Proof. vm_compute. reflexivity. Qed.

Lemma outer_table i :
  0 <= i <= 30 ->
  exists v v2,
    mm_to_px (float_of_int i) DEFAULT_DPI = Ok v
    /\ mm_to_px (float_of_int i * float_of_int 2)%float DEFAULT_DPI = Ok v2
    /\ 0 <= v <= 236 /\ 2 * v <= v2 <= 2 * v + 1.
Proof.
  intros Hi.
  assert (Ii : In i (py_range 0 31)) by (apply count_from_In; lia).
  pose proof (proj1 (forallb_forall _ _) outer_tabulated i Ii) as H.
  unfold outer_ok in H.
  destruct (mm_to_px (float_of_int i) _) as [v|]; [|discriminate].
  destruct (mm_to_px (float_of_int i * _) _) as [v2|]; [|discriminate].
  exists v, v2. rewrite !andb_true_iff in H. repeat split; lia.
Qed.

Lemma inner_table j :
  0 <= j <= 20 ->
  exists v v2,
    mm_to_px (float_of_int j) DEFAULT_DPI = Ok v
    /\ mm_to_px (float_of_int j * float_of_int 0)%float DEFAULT_DPI = Ok 0
    /\ mm_to_px (float_of_int j * float_of_int 1)%float DEFAULT_DPI = Ok v
    /\ mm_to_px (float_of_int j * float_of_int 2)%float DEFAULT_DPI = Ok v2
    /\ 0 <= v <= 157 /\ 2 * v <= v2 <= 2 * v + 1.
Proof.
  intros Hj.
  assert (Ij : In j (py_range 0 21)) by (apply count_from_In; lia).
  pose proof (proj1 (forallb_forall _ _) inner_tabulated j Ij) as H.
  unfold inner_ok in H.
  destruct (mm_to_px (float_of_int j) _) as [v|]; [|discriminate].
  destruct (mm_to_px (float_of_int j * float_of_int 0) _) as [v0|];
    [|discriminate].
  destruct (mm_to_px (float_of_int j * float_of_int 1) _) as [v1|];
    [|discriminate].
  destruct (mm_to_px (float_of_int j * float_of_int 2) _) as [v2|];
    [|discriminate].
  rewrite !andb_true_iff in H.
  assert (v0 = 0) as -> by lia. assert (v1 = v) as -> by lia.
  exists v, v2. repeat split; lia.
Qed.

(** A quotient that the floor below it does not replace. *)
Lemma cell_quotient floor u c :
  1 <= c <= 3 -> 0 <= floor -> 3 * floor + 3 <= u ->
  Z.max floor (u / c) = u / c
  /\ floor < u / c
  /\ c * (u / c) <= u < c * (u / c) + c.
Proof.
  intros Hc Hf Hu.
  pose proof (Z.div_mod u c ltac:(lia)) as D.
  pose proof (Z.mod_pos_bound u c ltac:(lia)) as M.
  assert (floor < u / c).
  { assert (c = 1 \/ c = 2 \/ c = 3) as [->|[->| ->]] by lia; lia. }
  split; [lia|]. split; [done|]. lia.
Qed.

(** The sizes of an offered layout: the sheet, the grid, the margins in
    pixels with their doubled conversions, and the usable lengths. *)
Lemma offered_sizes lo :
  offered lo ->
  exists g v v2 n n2,
    geometry lo = Ok g
    /\ outer_px g = v /\ inner_px g = n
    /\ 0 <= v <= 236 /\ 2 * v <= v2 <= 2 * v + 1
    /\ 0 <= n <= 157 /\ 2 * n <= n2 <= 2 * n + 1
    /\ (cols g, rows g) = estimate_grid (layout lo)
    /\ 1 <= cols g <= 2 /\ 2 <= rows g <= 3
    /\ 1653 <= sheet_w g /\ 1653 <= sheet_h g
    /\ cell_w g
       = Z.max 50 ((sheet_w g - v * 2 - n * (cols g - 1)) / cols g)
    /\ cell_h g
       = Z.max 50 ((sheet_h g - v * 2 - n * (rows g - 1)) / rows g)
    /\ estimate_cell_box lo
       = Ok (Z.max 10 ((sheet_w g - v2 - (if cols g =? 1 then 0 else n))
                       / cols g),
             Z.max 10 ((sheet_h g - v2 - (if rows g =? 2 then n else n2))
                       / rows g)).
Proof.
  intros (Hl & Hp & Ho & (i & Hi & Ei) & (j & Hj & Ej)).
  destruct (outer_table i Hi) as (v & v2 & V1 & V2 & V3 & V4).
  destruct (inner_table j Hj) as (n & n2 & N1 & N0 & N1' & N2 & N3 & N4).
  assert (A1 : mm_to_px 210.0%float DEFAULT_DPI = Ok 1653)
    by (vm_compute; reflexivity).
  assert (A2 : mm_to_px 297.0%float DEFAULT_DPI = Ok 2338)
    by (vm_compute; reflexivity).
  assert (L1 : mm_to_px 216.0%float DEFAULT_DPI = Ok 1700)
    by (vm_compute; reflexivity).
  assert (L2 : mm_to_px 279.0%float DEFAULT_DPI = Ok 2196)
    by (vm_compute; reflexivity).
  destruct lo as [l p o wb om im rd q]. cbn [layout paper orientation
    outer_margin_mm inner_margin_mm] in *. subst om im.
  unfold offered_layouts, offered_papers, offered_orientations in *.
  cbn [In] in Hl, Hp, Ho.
  unfold geometry, estimate_cell_box, landscape, PAPER_SIZES_MM.
  cbn [layout paper orientation outer_margin_mm inner_margin_mm].
  destruct Hl as [<-|[<-|[<-|[]]]]; destruct Hp as [<-|[<-|[]]];
    destruct Ho as [<-|[<-|[]]];
    cbn [grid estimate_grid String.eqb Ascii.eqb Bool.eqb];
    change (2 - 1) with 1; change (3 - 1) with 2; change (1 - 1) with 0;
    rewrite ?A1, ?A2, ?L1, ?L2, ?V1, ?V2, ?N1, ?N0, ?N1', ?N2; cbn [bind];
    rewrite ?V1, ?V2, ?N1, ?N0, ?N1', ?N2; cbn [bind];
    eexists _, v, v2, n, n2; (split; [reflexivity|]);
    cbn [cols rows sheet_w sheet_h outer_px inner_px cell_w cell_h Z.eqb
         Pos.eqb];
    rewrite ?Z.sub_0_r;
    repeat (split; [first [reflexivity | lia]|]); reflexivity.
Qed.

Ltac reduce_divmod_in H :=
  repeat match type of H with
  | context [Z.div ?a ?b] =>
      let v := eval vm_compute in (Z.div a b) in
      change (Z.div a b) with v in H
  | context [Z.modulo ?a ?b] =>
      let v := eval vm_compute in (Z.modulo a b) in
      change (Z.modulo a b) with v in H
  end.

Ltac index_cases a H :=
  assert (a = 0 \/ a = 1 \/ a = 2 \/ a = 3 \/ a = 4 \/ a = 5) as H by lia;
  destruct H as [->|[->|[->|[->|[->| ->]]]]].

(** X22.  For every combination the layout panel offers (the three grids,
    the two papers, the two orientations, outer margin 0 to 30 mm and inner
    margin 0 to 20 mm) the sizes are computed without an exception, the
    floor of 50 pixels is not what sizes a cell, every cell rectangle lies
    between the outer margins of the sheet, and the rectangles of two
    different cells do not overlap, in both reading directions. *)
Theorem offered_cells_inside_sheet :
  forall (lo : LayoutOptions),
    offered lo ->
    exists g,
      geometry lo = Ok g
      /\ 50 < cell_w g /\ 50 < cell_h g
      /\ cell_w g
         = (sheet_w g - outer_px g * 2 - inner_px g * (cols g - 1)) / cols g
      /\ cell_h g
         = (sheet_h g - outer_px g * 2 - inner_px g * (rows g - 1)) / rows g
      /\ (forall left_to_right a b x0 y0 x1 y1 u0 v0 u1 v1,
            0 <= a < cols g * rows g ->
            0 <= b < cols g * rows g ->
            cell_box g left_to_right a = (x0, y0, x1, y1) ->
            cell_box g left_to_right b = (u0, v0, u1, v1) ->
            (outer_px g <= x0 /\ x0 < x1 /\ x1 < sheet_w g - outer_px g
             /\ outer_px g <= y0 /\ y0 < y1 /\ y1 < sheet_h g - outer_px g)
            /\ (a <> b -> x1 < u0 \/ u1 < x0 \/ y1 < v0 \/ v1 < y0)).
Proof.
  intros lo Hoff.
  destruct (offered_sizes lo Hoff)
    as (g & v & v2 & n & n2 & Hg & Ev & En & V3 & _ & N3 & _ & _ & Hc & Hr
        & Sw & Sh & Cw & Ch & _).
  exists g. split; [done|].
  rewrite Ev, En. 
  destruct (cell_quotient 50 (sheet_w g - v * 2 - n * (cols g - 1)) (cols g)
              ltac:(lia) ltac:(lia) ltac:(nia)) as (Qw1 & Qw2 & Qw3).
  destruct (cell_quotient 50 (sheet_h g - v * 2 - n * (rows g - 1)) (rows g)
              ltac:(lia) ltac:(lia) ltac:(nia)) as (Qh1 & Qh2 & Qh3).
  rewrite Qw1 in Cw. rewrite Qh1 in Ch.
  split; [lia|]. split; [lia|]. split; [done|]. split; [done|].
  rewrite <- Cw in Qw2, Qw3. rewrite <- Ch in Qh2, Qh3.
  clear Cw Ch Qw1 Qh1 Hg Hoff.
  intros ltr a b x0 y0 x1 y1 u0 v0 u1 v1 Ha Hb Ea Eb.
  unfold cell_box in Ea, Eb. rewrite Ev, En in Ea, Eb.
  assert (Hcols : cols g = 1 \/ cols g = 2) by lia.
  assert (Hrows : rows g = 2 \/ rows g = 3) by lia.
  destruct Hcols as [Hcols|Hcols], Hrows as [Hrows|Hrows];
    rewrite Hcols, Hrows in *;
    index_cases a Ha'; try lia;
    index_cases b Hb'; try lia;
    destruct ltr;
    reduce_divmod_in Ea; reduce_divmod_in Eb;
    injection Ea as <- <- <- <-; injection Eb as <- <- <- <-;
    (split; [lia|intros Hab; try lia]).
Qed.

Lemma offered_default : offered portrait_2x2.
Proof.
  unfold offered, portrait_2x2, offered_layouts, offered_papers,
    offered_orientations. cbn.
  split; [by left|]. split; [by left|]. split; [by left|].
  split; [exists 5|exists 2]; (split; [lia|vm_compute; reflexivity]).
Qed.

Lemma offered_cells_inside_sheet_witness :
  exists g, geometry portrait_2x2 = Ok g /\ 50 < cell_w g /\ 50 < cell_h g.
Proof.
  destruct (offered_cells_inside_sheet portrait_2x2 offered_default)
    as (g & Hg & Hw & Hh & _).
  exists g. by repeat split.
Defined.

(** * The size estimator *)

(** X24.  For every combination the layout panel offers, the box in which
    the estimator shrinks its sample pages is computed without an exception
    and is the generator's cell or one pixel narrower and one pixel lower:
    the estimator converts the doubled margin to pixels where the generator
    doubles the converted margin.  The two differ at an outer margin of
    1 mm. *)
Theorem estimate_box_close_to_cell :
  (forall (lo : LayoutOptions),
      offered lo ->
      exists g w h,
        geometry lo = Ok g
        /\ estimate_cell_box lo = Ok (w, h)
        /\ w <= cell_w g <= w + 1
        /\ h <= cell_h g <= h + 1)
  /\ (exists lo g w h,
        offered lo
        /\ geometry lo = Ok g
        /\ estimate_cell_box lo = Ok (w, h)
        /\ cell_w g = w + 1).
Proof.
  split.
  - intros lo Hoff.
    destruct (offered_sizes lo Hoff)
      as (g & v & v2 & n & n2 & Hg & Ev & En & V3 & V4 & N3 & N4 & _ & Hc & Hr
          & Sw & Sh & Cw & Ch & He).
    eexists g, _, _. split; [done|]. split; [exact He|].
    rewrite Cw, Ch.
    assert (Hcols : cols g = 1 \/ cols g = 2) by lia.
    assert (Hrows : rows g = 2 \/ rows g = 3) by lia.
    destruct Hcols as [Hcols|Hcols], Hrows as [Hrows|Hrows];
      rewrite Hcols, Hrows; cbn [Z.eqb Pos.eqb];
      match goal with
      | |- _ <= Z.max 50 (?a / ?c) <= _ /\ _ <= Z.max 50 (?b / ?d) <= _ =>
          destruct (cell_quotient 50 a c ltac:(lia) ltac:(lia) ltac:(lia))
            as (-> & ? & ?);
          destruct (cell_quotient 50 b d ltac:(lia) ltac:(lia) ltac:(lia))
            as (-> & ? & ?)
      end;
      match goal with
      | |- Z.max 10 (?a / ?c) <= _ <= _ /\ Z.max 10 (?b / ?d) <= _ <= _ =>
          destruct (cell_quotient 10 a c ltac:(lia) ltac:(lia) ltac:(lia))
            as (-> & ? & ?);
          destruct (cell_quotient 10 b d ltac:(lia) ltac:(lia) ltac:(lia))
            as (-> & ? & ?)
      end;
      lia.
  - exists (mkLayout "2x2" "A4" "Portrait" false (float_of_int 1)
                     (float_of_int 2) "Left to Right" 85).
    eexists _, _, _.
    split; [|split; [vm_compute; reflexivity|split; vm_compute; reflexivity]].
    unfold offered, offered_layouts, offered_papers, offered_orientations. cbn.
    split; [by left|]. split; [by left|]. split; [by left|].
    split; [exists 1|exists 2]; (split; [lia|reflexivity]).
Qed.

Lemma estimate_box_close_to_cell_witness :
  exists g w h,
    geometry portrait_2x2 = Ok g
    /\ estimate_cell_box portrait_2x2 = Ok (w, h)
    /\ w <= cell_w g <= w + 1
    /\ h <= cell_h g <= h + 1.
Proof.
  exact (proj1 estimate_box_close_to_cell portrait_2x2 offered_default).
Defined.

Lemma estimate_indices_cases total :
  1 <= total ->
  (total = 1 /\ estimate_indices total = [0])
  \/ (total = 2 /\ estimate_indices total = [0; 1])
  \/ (3 <= total
      /\ estimate_indices total = [0; total / 3; 2 * total / 3]
      /\ 1 <= total / 3
      /\ total / 3 < 2 * total / 3
      /\ 2 * total / 3 < total).
Proof.
  intros H. unfold estimate_indices, ESTIMATE_SAMPLE_COUNT.
  destruct (Z.eq_dec total 1) as [->|H1]; [left; by split|].
  destruct (Z.eq_dec total 2) as [->|H2]; [right; left; by split|].
  right. right. split; [lia|].
  rewrite Z.min_l by lia.
  change (py_range 0 3) with [0; 1; 2]. cbn [map].
  replace (0 * total / 3) with 0 by (by rewrite Z.mul_0_l).
  replace (1 * total) with total by lia.
  split; [done|].
  pose proof (Z.div_mod total 3 ltac:(lia)) as D1.
  pose proof (Z.mod_pos_bound total 3 ltac:(lia)) as M1.
  pose proof (Z.div_mod (2 * total) 3 ltac:(lia)) as D2.
  pose proof (Z.mod_pos_bound (2 * total) 3 ltac:(lia)) as M2.
  lia.
Qed.

Lemma estimate_cells_ok thumbnail_size self q box indices : forall cells,
  estimate_cell_box (layout_options self) = Ok box ->
  Forall (fun idx => 0 <= idx < len (pages (manager self))) indices ->
  exists out,
    estimate_cells thumbnail_size self q indices cells = Ok out
    /\ length out = (length cells + length indices)%nat.
Proof.
  induction indices as [|idx rest IH]; intros cells Hbox Hin;
    cbn [estimate_cells].
  - exists cells. split; [done|]. cbn. lia.
  - apply Forall_cons in Hin as [Hidx Hin].
    destruct (py_get_in_range (pages (manager self)) idx ltac:(lia))
      as [page Hpage].
    rewrite Hpage. cbn [bind]. unfold _make_cell_image_for_estimate.
    rewrite Hbox. cbn [bind].
    destruct (thumbnail_size (size page) box) as [tw th] eqn:Et. cbn [bind].
    destruct (IH (cells ++ [Jpeg (Thumbnail (copy page) tw th) q]) Hbox Hin)
      as (out & Hout & Hlen).
    exists out. split; [done|].
    rewrite Hlen, length_app. cbn [length]. lia.
Qed.

Lemma estimate_samples_loaded thumbnail_size self :
  pages (manager self) <> [] ->
  estimate_samples thumbnail_size self
  = (cells <-! estimate_cells thumbnail_size self
                 (quality (layout_options self))
                 (estimate_indices (len (pages (manager self)))) [];
     Ok (Some cells)).
Proof.
  intros Hne. unfold estimate_samples.
  by destruct (pages (manager self)).
Qed.

(** X23.  The estimator samples [min(3, total)] pages, at indices that all
    lie inside the document, begin with the first page and strictly
    increase: every page of a document of up to three pages, otherwise the
    pages at 0, a third and two thirds.  With a layout whose box can be
    computed the sampling loop therefore raises nothing, and measures one
    cell per sampled page. *)
Theorem estimate_samples_inside_document :
  forall (thumbnail_size : Z * Z -> Z * Z -> Z * Z) (self : PDFConverterGUI)
         (box : Z * Z),
    pages (manager self) <> [] ->
    estimate_cell_box (layout_options self) = Ok box ->
    let total := len (pages (manager self)) in
    let indices := estimate_indices total in
    Z.of_nat (length indices) = Z.min 3 total
    /\ head indices = Some 0
    /\ Forall (fun idx => 0 <= idx < total) indices
    /\ (forall k a b,
          indices !! k = Some a -> indices !! S k = Some b -> a < b)
    /\ (total <= 3 -> indices = py_range 0 total)
    /\ (3 <= total -> indices = [0; total / 3; 2 * total / 3])
    /\ exists cells,
         estimate_samples thumbnail_size self = Ok (Some cells)
         /\ length cells = length indices.
Proof.
  intros thumbnail_size self box Hne Hbox total indices.
  assert (Htotal : 1 <= total).
  { unfold total, len. destruct (pages (manager self)); [done|cbn; lia]. }
  assert (Hin : Forall (fun idx => 0 <= idx < total) indices).
  { unfold indices.
    destruct (estimate_indices_cases total Htotal)
      as [[E ->]|[[E ->]|(E & -> & B1 & B2 & B3)]];
      repeat (apply Forall_cons_2; [lia|]); apply Forall_nil_2. }
  split; [|split; [|split; [exact Hin|split; [|split; [|split]]]]].
  - unfold indices.
    destruct (estimate_indices_cases total Htotal)
      as [[E ->]|[[E ->]|(E & -> & _)]]; cbn [length]; lia.
  - unfold indices.
    by destruct (estimate_indices_cases total Htotal)
      as [[E ->]|[[E ->]|(E & -> & _)]].
  - unfold indices. intros k a b.
    destruct (estimate_indices_cases total Htotal)
      as [[E ->]|[[E ->]|(E & -> & B1 & B2 & B3)]];
      destruct k as [|[|[|k]]]; cbn; intros [= <-] [= <-]; lia.
  - intros Hsmall. unfold indices.
    destruct (estimate_indices_cases total Htotal)
      as [[E ->]|[[E ->]|(E & -> & B1 & B2 & B3)]].
    + by rewrite E.
    + by rewrite E.
    + assert (E3 : total = 3) by lia. rewrite E3. reflexivity.
  - intros Hlarge. unfold indices.
    destruct (estimate_indices_cases total Htotal)
      as [[E _]|[[E _]|(_ & -> & _)]]; [lia|lia|done].
  - destruct (estimate_cells_ok thumbnail_size self
                (quality (layout_options self)) box indices [] Hbox Hin)
      as (out & Hout & Hlen).
    exists out. split; [|by rewrite Hlen].
    rewrite estimate_samples_loaded by done.
    fold total. fold indices. by rewrite Hout.
Qed.

Lemma estimate_samples_inside_document_witness :
  Forall (fun idx => 0 <= idx < len (pages (manager (mkGUI ten_pages 0 portrait_2x2))))
         (estimate_indices (len (pages (manager (mkGUI ten_pages 0 portrait_2x2)))))
  /\ estimate_indices (len (pages (manager (mkGUI ten_pages 0 portrait_2x2))))
     = [0; 3; 6].
Proof.
  assert (Hbox : exists box,
             estimate_cell_box (layout_options (mkGUI ten_pages 0 portrait_2x2))
             = Ok box) by (eexists; vm_compute; reflexivity).
  destruct Hbox as [box Hbox].
  assert (Hne : pages (manager (mkGUI ten_pages 0 portrait_2x2)) <> [])
    by discriminate.
  destruct (estimate_samples_inside_document fit_within
              (mkGUI ten_pages 0 portrait_2x2) box Hne Hbox)
    as (_ & _ & Hin & _ & _ & Hthirds & _).
  split; [exact Hin|].
  rewrite Hthirds by (vm_compute; discriminate). reflexivity.
Defined.

(** * Loading, with its failures *)

Lemma load_pages_loop_good settings cb total good : forall tail self idx log,
  load_pages_loop self settings cb total idx (map Ok good ++ tail) log
  = load_pages_loop (fst (load_loop self settings cb total idx good log))
      settings cb total (idx + Z.of_nat (length good)) tail
      (snd (load_loop self settings cb total idx good log)).
Proof.
  induction good as [|pix rest IH]; intros tail self idx log;
    cbn [map app load_pages_loop load_loop length].
  - by rewrite Z.add_0_r.
  - rewrite IH. f_equal. lia.
Qed.

Lemma load_pdf_pages_good self doc settings cb :
  load_pdf_pages self (Ok (map Ok doc)) settings cb
  = (load_pdf self doc settings cb, Ok tt).
Proof.
  unfold load_pdf_pages, load_pdf.
  rewrite <- (app_nil_r (map Ok doc)) at 2.
  rewrite load_pages_loop_good. cbn [load_pages_loop].
  replace (len (map Ok doc)) with (len doc) by (unfold len; by rewrite length_map).
  by destruct (load_loop _ _ _ _ _ _ _) as [self1 log].
Qed.

(** X25.  [load_pdf] assigns the keep flags after its loop only.  When the
    file cannot be opened nothing changes.  When the pages before page [k]
    render and page [k] raises, the exception leaves the manager with the
    [k] originals and processed pages of the new file and with the flags of
    the document loaded before: the three lists have one length only if the
    old document had [k] pages, and when it had fewer, toggling the keep
    flag of the last page loaded raises IndexError.  When every page
    renders, the load is [load_pdf] and the lists are aligned. *)
Theorem load_failing_midway_keeps_old_flags :
  forall (self : PDFManager) (good : list Pixmap) (e : exn)
         (rest : list (result Pixmap)) (settings : Settings) (cb : bool),
    let run :=
      load_pdf_pages self (Ok (map Ok good ++ Raise e :: rest)) settings cb in
    let m := fst (fst run) in
    load_pdf_pages self (Raise e) settings cb = (self, [], Raise e)
    /\ snd run = Raise e
    /\ original_pages m = map raster good
    /\ pages m = map (fun pix => process_image self (raster pix) settings) good
    /\ selected m = selected self
    /\ (aligned m <-> length good = length (selected self))
    /\ ((length (selected self) < length good)%nat ->
        snd (toggle_page_keep m (len (pages m) - 1)) = Raise IndexError)
    /\ load_pdf_pages self (Ok (map Ok good)) settings cb
       = (load_pdf self good settings cb, Ok tt)
    /\ aligned (fst (load_pdf self good settings cb)).
Proof.
  intros self good e rest settings cb run m.
  assert (Hrun : run
    = (mkManager (map raster good)
                 (map (fun pix => process_image self (raster pix) settings) good)
                 (selected self),
       if cb
       then fractions (len (map Ok good ++ Raise e :: rest)) 0 (length good)
       else [],
       Raise e)).
  { unfold run, load_pdf_pages. rewrite load_pages_loop_good, load_loop_spec.
    cbn [fst snd load_pages_loop original_pages pages selected app]. done. }
  assert (Hm : m = mkManager (map raster good)
                 (map (fun pix => process_image self (raster pix) settings) good)
                 (selected self)) by (unfold m; by rewrite Hrun).
  split; [done|]. split; [by rewrite Hrun|].
  rewrite Hm. cbn [original_pages pages selected].
  split; [done|]. split; [done|]. split; [done|]. split; [|split; [|split]].
  - unfold aligned. cbn [original_pages pages selected].
    rewrite !length_map.
    split; [by intros [_ H]|intros H; by split].
  - intros Hshort. unfold toggle_page_keep. cbn [pages selected].
    destruct good as [|pix good']; [cbn in Hshort; lia|].
    cbn [map]. rewrite py_get_beyond; [done|].
    unfold len. cbn [length]. rewrite length_map. cbn [length] in Hshort. lia.
  - apply load_pdf_pages_good.
  - rewrite load_pdf_spec. unfold aligned. cbn [fst original_pages pages selected].
    by rewrite !length_map, length_replicate.
Qed.

(** X26.  After a load that went through, the window shows page 0 of a
    document whose three lists are aligned, so the preview it schedules
    finds its two pages and every page control that follows returns without
    an exception; the progress goes from 0 through non-decreasing values to
    1.  After a load that failed, the handler has caught the exception, the
    index shown is the one from before, and the progress ends at 0. *)
Theorem load_thread_outcomes :
  forall (self : PDFConverterGUI) (doc : list Pixmap) (e : exn)
         (rest : list (result Pixmap)) (settings : Settings),
    let ok := _load_pdf_thread self (Ok (map Ok doc)) settings in
    let shown := fst (fst ok) in
    let failed :=
      _load_pdf_thread self (Ok (map Ok doc ++ Raise e :: rest)) settings in
    (snd ok = None
     /\ current_index shown = 0
     /\ aligned (manager shown)
     /\ Gui.in_view shown
     /\ Gui.update_previews shown = Ok tt
     /\ (forall a, snd (Gui.act shown a) = Ok tt)
     /\ nondecreasing (snd (fst ok))
     /\ Forall in_unit (snd (fst ok))
     /\ last (snd (fst ok)) = Some 1%Q)
    /\ (snd failed = Some e
        /\ current_index (fst (fst failed)) = current_index self
        /\ last (snd (fst failed)) = Some 0%Q).
Proof.
  intros self doc e rest settings ok shown failed.
  assert (Hok : ok
    = (mkGUI (fst (load_pdf (manager self) doc settings true)) 0
             (layout_options self),
       [0%Q] ++ fractions (len doc) 0 (length doc) ++ [1%Q], None)).
  { unfold ok, _load_pdf_thread. rewrite load_pdf_pages_good.
    by rewrite load_pdf_spec. }
  assert (Hshown : shown
    = mkGUI (fst (load_pdf (manager self) doc settings true)) 0
            (layout_options self)) by (unfold shown; by rewrite Hok).
  assert (Ha : aligned (manager shown)).
  { rewrite Hshown. cbn [manager]. rewrite load_pdf_spec. unfold aligned.
    cbn [fst original_pages pages selected].
    by rewrite !length_map, length_replicate. }
  assert (Hv : Gui.in_view shown).
  { rewrite Hshown. unfold Gui.in_view. cbn [manager current_index].
    rewrite load_pdf_spec. cbn [fst pages].
    destruct doc as [|pix doc']; [by left|right].
    unfold len. cbn [map length]. lia. }
  split.
  - split; [by rewrite Hok|]. split; [by rewrite Hshown|].
    split; [exact Ha|]. split; [exact Hv|].
    split; [by apply update_previews_ok|].
    split; [intros a; by apply act_safe|].
    rewrite Hok. cbn [fst snd].
    assert (Hu : Forall in_unit (fractions (len doc) 0 (length doc)))
      by (apply fractions_in_unit; unfold len; lia).
    split; [|split].
    + change ([0%Q] ++ ?l) with (0%Q :: l).
      apply nondecreasing_from_zero.
      * apply Forall_app_2; [done|].
        apply Forall_cons_2; [apply one_in_unit|apply Forall_nil_2].
      * pose proof (fractions_nondecreasing (len doc) 0 (length doc)) as Hn.
        revert Hu Hn. generalize (fractions (len doc) 0 (length doc)).
        induction l as [|a l IHl]; [done|]. intros Hu Hn.
        apply Forall_cons in Hu as [Ha1 Hu].
        destruct l as [|b l]; [cbn; split; [apply Ha1|done]|].
        destruct Hn as [Hab Hn]. split; [exact Hab|]. by apply IHl.
    + change ([0%Q] ++ ?l) with (0%Q :: l).
      apply Forall_cons_2; [apply zero_in_unit|].
      apply Forall_app_2; [done|].
      apply Forall_cons_2; [apply one_in_unit|apply Forall_nil_2].
    + apply last_framed.
  - unfold failed, _load_pdf_thread, load_pdf_pages.
    rewrite load_pages_loop_good. cbn [load_pages_loop fst snd].
    split; [done|]. split; [done|]. apply last_framed.
Qed.

(** * The batch conversion *)

(** The export of a file that has just been loaded: every page is kept. *)
Lemma batch_export self doc settings fs out :
  let self1 := fst (load_pdf self doc settings true) in
  let processed := map (fun pix => process_image self (raster pix) settings) doc in
  pages self1 = processed
  /\ export_pdf self1 fs out (py_range 0 (len (pages self1))) true 85
     = (match doc with
        | [] => fs
        | _ :: _ => <[out := processed]> fs
        end,
        fractions (len doc) 0 (length doc),
        match doc with
        | [] => Raise (Exception "No pages selected for export!")
        | _ :: _ => Ok tt
        end).
Proof.
  intros self1 processed. unfold self1, processed. rewrite load_pdf_spec.
  cbn [fst pages]. split; [done|].
  set (m := mkManager _ _ _).
  assert (Hlen : length (pages m) = length (selected m)).
  { unfold m. cbn [pages selected]. by rewrite length_map, length_replicate. }
  assert (Hsel : selected m = replicate (length (pages m)) true).
  { unfold m. cbn [pages selected]. by rewrite length_map. }
  change (map _ doc) with (pages m) at 1.
  rewrite (export_pdf_spec m) by (done || apply py_range_valid).
  rewrite (qualifying_all m Hsel). cbn zeta.
  assert (Hn : length (py_range 0 (len (pages m))) = length doc).
  { unfold py_range. rewrite count_from_length. unfold m, len.
    cbn [pages]. rewrite length_map. lia. }
  replace (len (py_range 0 (len (pages m)))) with (len doc)
    by (unfold len in *; by rewrite Hn).
  rewrite Hn. unfold m. cbn [pages]. by destruct doc.
Qed.

Lemma batch_step_spec fitz_open settings self fs path doc :
  fitz_open fs path = Ok (map Ok doc) ->
  batch_step fitz_open settings (self, fs) path
  = (mkManager (map raster doc)
               (map (fun pix => process_image self (raster pix) settings) doc)
               (replicate (length doc) true),
     <[converted_path path
       := map (fun pix => process_image self (raster pix) settings) doc]> fs).
Proof.
  intros Hopen. unfold batch_step. cbn [fst snd].
  by rewrite Hopen, load_pdf_pages_good, load_pdf_spec.
Qed.

Lemma batch_loop_prefix fitz_open create settings before :
  forall rest self fs,
    all_convertible fitz_open create settings before (self, fs) ->
    let st := foldl (batch_step fitz_open settings) (self, fs) before in
    batch_loop fitz_open create settings (before ++ rest) self fs
    = batch_loop fitz_open create settings rest (fst st) (snd st).
Proof.
  induction before as [|path before IH]; intros rest self fs Hall; [done|].
  cbn [all_convertible snd] in Hall.
  destruct Hall as [[(doc & Hopen & Hne) Hcreate] Hall].
  cbn [app batch_loop foldl].
  rewrite (batch_step_spec fitz_open settings self fs path doc Hopen) in *.
  rewrite Hopen, load_pdf_pages_good.
  destruct (batch_export self doc settings fs (converted_path path))
    as [_ Hexport].
  cbn zeta in Hexport. rewrite load_pdf_spec in *. cbn [fst pages] in *.
  rewrite Hexport, Hcreate.
  destruct doc as [|pix doc]; [done|].
  exact (IH rest _ _ Hall).
Qed.

(** X16.  The batch conversion, file by file in the order chosen, each file
    read from the disk as the files before it have left it.  When every
    file, at its turn, opens, renders, has a page and has a converted path
    that can be created, the batch raises nothing; each file replaces the
    document in the manager and its processed pages are written at its
    converted path.  The first file that fails stops the batch, with the
    files before it written and nothing written for it or for the files
    after it: a file that does not open, or a page that does not render,
    with that exception and the manager as the load left it; a file without
    pages with "No pages selected for export!" and an empty manager; a file
    whose converted path cannot be created, as happens when ".pdf" occurs in
    a directory name, with the exception of the write and the file loaded in
    the manager. *)
Theorem batch_converts_in_order :
  forall (fitz_open : gmap string Pdf -> str -> result (list (result Pixmap)))
         (create : string -> result unit) (settings : Settings)
         (before : list str) (self : PDFManager) (fs : gmap string Pdf),
    all_convertible fitz_open create settings before (self, fs) ->
    let st := foldl (batch_step fitz_open settings) (self, fs) before in
    batch_loop fitz_open create settings before self fs = (fst st, snd st, Ok tt)
    /\ (forall path self0 fs0 doc,
          fitz_open fs0 path = Ok (map Ok doc) ->
          batch_step fitz_open settings (self0, fs0) path
          = (mkManager
               (map raster doc)
               (map (fun pix => process_image self0 (raster pix) settings) doc)
               (replicate (length doc) true),
             <[converted_path path
               := map (fun pix => process_image self0 (raster pix) settings) doc]>
               fs0))
    /\ (forall bad after e,
          let load :=
            load_pdf_pages (fst st) (fitz_open (snd st) bad) settings true in
          snd load = Raise e ->
          batch_loop fitz_open create settings (before ++ bad :: after) self fs
          = (fst (fst load), snd st, Raise e))
    /\ (forall bad after e,
          fitz_open (snd st) bad = Raise e ->
          batch_loop fitz_open create settings (before ++ bad :: after) self fs
          = (fst st, snd st, Raise e))
    /\ (forall bad after,
          fitz_open (snd st) bad = Ok [] ->
          exists emptied,
            batch_loop fitz_open create settings (before ++ bad :: after) self fs
            = (emptied, snd st,
               Raise (Exception "No pages selected for export!"))
            /\ original_pages emptied = []
            /\ pages emptied = []
            /\ selected emptied = [])
    /\ (forall bad after doc e,
          fitz_open (snd st) bad = Ok (map Ok doc) ->
          doc <> [] ->
          create (converted_path bad) = Raise e ->
          batch_loop fitz_open create settings (before ++ bad :: after) self fs
          = (fst (load_pdf (fst st) doc settings true), snd st, Raise e))
    /\ converted_path (py "scans.pdfs/a.pdf")
       = "scans_converted.pdfs/a_converted.pdf"%string.
Proof.
  intros fitz_open create settings before self fs Hall st.
  split; [|split; [|split; [|split; [|split; [|split]]]]].
  - rewrite <- (app_nil_r before) at 1.
    by rewrite batch_loop_prefix.
  - intros path self0 fs0 doc. apply batch_step_spec.
  - intros bad after e load Hload. rewrite batch_loop_prefix by done.
    fold st. cbn [batch_loop]. fold load.
    destruct load as [[self1 log] r]. cbn [snd] in Hload. by subst r.
  - intros bad after e Hopen. rewrite batch_loop_prefix by done.
    fold st. cbn [batch_loop]. by rewrite Hopen.
  - intros bad after Hopen. rewrite batch_loop_prefix by done.
    fold st. cbn [batch_loop]. rewrite Hopen.
    eexists. split; [reflexivity|]. done.
  - intros bad after doc e Hopen Hne Hcreate.
    rewrite batch_loop_prefix by done.
    fold st. cbn [batch_loop]. rewrite Hopen, load_pdf_pages_good.
    destruct (batch_export (fst st) doc settings (snd st) (converted_path bad))
      as [_ Hexport].
    cbn zeta in Hexport. rewrite load_pdf_spec in *. cbn [fst pages] in *.
    rewrite Hexport, Hcreate.
    by destruct doc.
  - vm_compute. reflexivity.
Qed.

Lemma batch_converts_in_order_witness :
  all_convertible opens_written in_working_directory default_settings
    [py "a.pdf"; py "a_converted.pdf"] (one_page, two_page_file)
  /\ snd (batch_loop opens_written in_working_directory default_settings
            [py "a.pdf"; py "a_converted.pdf"] one_page two_page_file) = Ok tt
  /\ length <$> snd (fst (batch_loop opens_written in_working_directory
                            default_settings
                            [py "a.pdf"; py "a_converted.pdf"]
                            one_page two_page_file))
                 !! "a_converted_converted.pdf"%string
     = Some 2%nat.
Proof.
  assert (Hall : all_convertible opens_written in_working_directory
                   default_settings [py "a.pdf"; py "a_converted.pdf"]
                   (one_page, two_page_file)).
  { split; [split; [|reflexivity]|split; [split; [|reflexivity]|exact I]].
    - exists [mkPixmap 2 1 [(0, 0, 0); (10, 20, 30)];
              mkPixmap 2 1 [(0, 0, 0); (10, 20, 30)]].
      split; [vm_compute; reflexivity|discriminate].
    - exists [mkPixmap 2 1 [(0, 0, 0); (10, 20, 30)];
              mkPixmap 2 1 [(0, 0, 0); (10, 20, 30)]].
      split; [vm_compute; reflexivity|discriminate]. }
  split; [exact Hall|].
  rewrite (proj1 (batch_converts_in_order opens_written in_working_directory
                    default_settings [py "a.pdf"; py "a_converted.pdf"]
                    one_page two_page_file Hall)).
  cbn [fst snd]. split; [reflexivity|]. vm_compute. reflexivity.
Defined.

(** * The progress of the compact generator, value by value *)

Section ComposerProgress.
Variable thumbnail_size : Z * Z -> Z * Z -> Z * Z.

Lemma export_sheets_count self g left_to_right border total cps m :
  0 < cps ->
  forall s0 st,
    let run := export_sheets thumbnail_size self g left_to_right border total
                             cps (count_from s0 m) st in
    snd run = Ok tt ->
    exists k,
      progress (fst run) = progress st ++ fractions total (s0 * cps) k
      /\ Z.of_nat k = Z.min (Z.of_nat m * cps) (Z.max 0 (total - s0 * cps)).
Proof.
  intros Hcps.
  induction m as [|m IH]; intros s0 st; cbn [count_from export_sheets].
  - intros _. exists 0%nat. cbn. rewrite app_nil_r. split; [done|lia].
  - unfold py_range. rewrite Z.sub_0_r.
    destruct (export_cells_progress thumbnail_size self g left_to_right border
                total cps s0 (Z.to_nat cps) 0 (new_sheet g st))
      as (k1 & Hk1 & Hp1 & Hb1 & Hok1).
    cbn zeta in *. rewrite Z.add_0_r in *.
    destruct (export_cells _ _ _ _ _ _ _ _ _ _) as [st2 [[]|e]];
      cbn [fst snd] in *; [|done].
    set (st3 := append_sheet
                  (if landscape (layout_options self)
                   then rotate_sheet st2 else st2)).
    assert (H3 : progress st3 = progress st2)
      by (unfold st3; destruct (landscape _); done).
    intros Hrun. destruct (IH (s0 + 1) st3 Hrun) as (k2 & Hp2 & Hk2).
    cbn zeta in Hp2.
    assert (Hm : 0 <= Z.of_nat m * cps) by nia.
    replace (Z.of_nat (S m) * cps) with (Z.of_nat m * cps + cps) by lia.
    replace ((s0 + 1) * cps) with (s0 * cps + cps) in * by lia.
    destruct (Hok1 eq_refl) as [Hfull|Hend].
    + exists (k1 + k2)%nat. split; [|lia].
      rewrite Hp2, H3, Hp1, fractions_app, <- app_assoc.
      do 3 f_equal. lia.
    + assert (k2 = 0%nat) as -> by lia.
      exists k1. split; [|lia].
      rewrite Hp2, H3, Hp1. cbn. by rewrite app_nil_r.
Qed.

Lemma compose_export_count self g st :
  geometry (layout_options self) = Ok g ->
  Forall (fun a => (a < length (heap st))%nat) (sheet_images st) ->
  progress (fst (compose_export thumbnail_size self st))
  = progress st
    ++ fractions (len (pages (manager self))) 0 (length (pages (manager self))).
Proof.
  intros Hg Hin.
  destruct (compose_export_pure thumbnail_size self g st Hg Hin) as [Hok _].
  unfold compose_export in *. rewrite Hg in *.
  destruct (geometry_grid _ g Hg) as (_ & Hc & Hr).
  assert (Hcps : 0 < cols g * rows g) by nia.
  destruct (sheet_count_covers (len (pages (manager self))) (cols g * rows g)
              Hcps ltac:(unfold len; lia)) as (Hcover & Hsheets & _).
  unfold py_range in *.
  destruct (export_sheets_count self g
              (String.eqb (reading_direction (layout_options self)) "Left to Right")
              (with_border (layout_options self))
              (len (pages (manager self))) (cols g * rows g)
              (Z.to_nat (sheet_count (len (pages (manager self)))
                                     (cols g * rows g) - 0))
              Hcps 0 st Hok) as (k & Hp & Hk).
  cbn zeta in Hp. rewrite Z.mul_0_l in *. rewrite Hp. do 2 f_equal.
  unfold len in *. lia.
Qed.

Lemma generate_compact_log self fs out_path g :
  geometry (layout_options self) = Ok g ->
  let total := len (pages (manager self)) in
  let sheets := sheet_count total (cols g * rows g) in
  _generate_compact_thread thumbnail_size self fs out_path
  = (match map (fun sheet => Jpeg sheet (quality (layout_options self)))
               (compact_sheets thumbnail_size self g) with
     | [] => fs
     | first :: others => save_pdf fs out_path first others
     end,
     [0%Q] ++ fractions total 0 (length (pages (manager self)))
       ++ map (fun i => fraction i sheets * (9 # 10))%Q
              (count_from 0 (Z.to_nat sheets))
       ++ [if total =? 0 then 0%Q else 1%Q],
     if total =? 0 then Some (Exception "Nothing to save for compact PDF")
     else None).
Proof.
  intros Hg total sheets.
  destruct (geometry_grid _ g Hg) as (_ & Hc & Hr).
  assert (Hcps : 0 < cols g * rows g) by nia.
  destruct (sheet_count_covers total (cols g * rows g) Hcps
              ltac:(unfold total, len; lia)) as (_ & Hsheets & Hone).
  fold sheets in Hsheets, Hone.
  assert (Hlen : length (compact_sheets thumbnail_size self g) = Z.to_nat sheets).
  { unfold compact_sheets, py_range. rewrite length_map, count_from_length.
    fold total sheets. lia. }
  assert (Hzero : total = 0 -> sheets = 0).
  { intros H0. unfold sheets, sheet_count. rewrite H0.
    apply Z.div_small. lia. }
  unfold _generate_compact_thread.
  assert (Hin : Forall (fun a => (a < length (heap (mkCompose [] 0 0 [] [0%Q])))%nat)
                       (sheet_images (mkCompose [] 0 0 [] [0%Q])))
    by apply Forall_nil_2.
  destruct (compose_export_pure thumbnail_size self g _ Hg Hin) as [Hok Himg].
  pose proof (compose_export_count self g _ Hg Hin) as Hprog.
  destruct (compose_export _ _ _) as [st r]. cbn [fst snd] in *. subst r.
  rewrite prepare_sheets_spec. cbn [app]. rewrite Hprog, Himg.
  cbn [progress images_of sheet_images map app].
  fold total.
  assert (Hl : len (compact_sheets thumbnail_size self g) = sheets)
    by (unfold len; rewrite Hlen; lia).
  rewrite !Hl, !Hlen.
  destruct (Z.eqb_spec total 0) as [H0|Hpos].
  - assert (Hnil : compact_sheets thumbnail_size self g = [])
      by (apply length_zero_iff_nil; rewrite Hlen, (Hzero H0); reflexivity).
    rewrite Hnil. cbn [map]. by rewrite <- !app_assoc.
  - destruct (compact_sheets thumbnail_size self g) as [|first others] eqn:Hs.
    { cbn [length] in Hlen. unfold total, len in *. lia. }
    cbn [map]. by rewrite <- !app_assoc.
Qed.

End ComposerProgress.

Lemma nondecreasing_middle (l1 l2 : list Q) (a b : Q) :
  nondecreasing (l1 ++ a :: b :: l2) -> (a <= b)%Q.
Proof.
  induction l1 as [|c l1 IH]; cbn [app].
  - by intros [H _].
  - destruct (l1 ++ a :: b :: l2) eqn:E; [by destruct l1|].
    intros [_ H]. by apply IH.
Qed.

(** C8, as amended.  The values [load_pdf], [reprocess_all_pages] and
    [export_pdf] give their callback never decrease and lie in [0, 1],
    whatever the document, also when the call raises part-way.  The compact
    generator's values all lie in [0, 1]; they are 0, then the placement
    values, which never decrease, then the sheet-preparation values, which
    never decrease among themselves, then a last value, which is 1 when the
    document was saved.  Value by value, when the layout computes: 0, then
    [(i + 1) / total] for every page [i] in order, then
    [(i + 1) / sheets * 9/10] for every sheet [i] in order, then 1, or 0 when
    the document has no page and "Nothing to save for compact PDF" is
    caught.  The preparation values are at most 9/10 and the last placement
    value is 1: with a page in the document the values go back, and the
    whole sequence is not non-decreasing.  When the layout does not compute
    the values are 0 and 0. *)
Theorem progress_by_phase :
  (forall self doc settings,
      let log := snd (load_pdf self doc settings true) in
      nondecreasing log /\ Forall in_unit log)
  /\ (forall self settings,
        let log := snd (fst (reprocess_all_pages self settings true)) in
        nondecreasing log /\ Forall in_unit log)
  /\ (forall self fs out_path page_indices quality,
        let log := snd (fst (export_pdf self fs out_path page_indices true quality)) in
        nondecreasing log /\ Forall in_unit log)
  /\ (forall thumbnail_size self fs out_path,
        let run := _generate_compact_thread thumbnail_size self fs out_path in
        exists placing preparing final,
          snd (fst run) = 0%Q :: placing ++ preparing ++ [final]
          /\ nondecreasing (0%Q :: placing)
          /\ nondecreasing preparing
          /\ Forall in_unit (snd (fst run))
          /\ (snd run = None -> final = 1%Q))
  /\ (forall thumbnail_size self fs out_path g,
        geometry (layout_options self) = Ok g ->
        let total := len (pages (manager self)) in
        let sheets := sheet_count total (cols g * rows g) in
        let run := _generate_compact_thread thumbnail_size self fs out_path in
        let placing :=
          map (fun i => fraction i total) (count_from 0 (Z.to_nat total)) in
        let preparing :=
          map (fun i => fraction i sheets * (9 # 10))%Q
              (count_from 0 (Z.to_nat sheets)) in
        snd (fst run)
        = [0%Q] ++ placing ++ preparing ++ [if total =? 0 then 0%Q else 1%Q]
        /\ snd run
           = (if total =? 0
              then Some (Exception "Nothing to save for compact PDF")
              else None)
        /\ Forall (fun v => (v <= 9 # 10)%Q) preparing
        /\ (0 < total ->
            1 <= sheets
            /\ (exists v, last placing = Some v /\ (v == 1)%Q)
            /\ ~ nondecreasing (snd (fst run))))
  /\ (forall thumbnail_size self fs out_path e,
        geometry (layout_options self) = Raise e ->
        _generate_compact_thread thumbnail_size self fs out_path
        = (fs, [0%Q; 0%Q], Some e)).
Proof.
  split; [|split; [|split; [|split; [|split]]]].
  - intros self doc settings log. unfold log. rewrite load_pdf_spec. cbn [snd].
    split; [apply fractions_nondecreasing|].
    apply fractions_in_unit; unfold len; lia.
  - intros self settings log. unfold log, reprocess_all_pages.
    destruct (reprocess_loop_log settings true (len (original_pages self))
                (original_pages self) self 0 []) as (k & Hk & ->).
    cbn [app]. split; [apply fractions_nondecreasing|].
    apply fractions_in_unit; unfold len; lia.
  - intros self fs out_path page_indices quality log. unfold log.
    rewrite export_pdf_log.
    destruct (export_loop_log self true (len page_indices) page_indices 0 [] [])
      as (k & Hk & ->).
    cbn [app]. split; [apply fractions_nondecreasing|].
    apply fractions_in_unit; unfold len; lia.
  - intros thumbnail_size self fs out_path run.
    destruct (generate_compact_progress thumbnail_size self fs out_path)
      as (placing & preparing & final & Hlog & H1 & H2 & H3 & H4).
    exists placing, preparing, final. fold run in Hlog, H4.
    rewrite Hlog. done.
  - intros thumbnail_size self fs out_path g Hg total sheets run placing
           preparing.
    pose proof (generate_compact_log thumbnail_size self fs out_path g Hg)
      as Hrun.
    cbn zeta in Hrun. fold total sheets run in Hrun.
    assert (Htotal : Z.to_nat total = length (pages (manager self)))
      by (unfold total, len; lia).
    assert (Hlog : snd (fst run)
                   = [0%Q] ++ placing ++ preparing
                     ++ [if total =? 0 then 0%Q else 1%Q]).
    { rewrite Hrun. cbn [fst snd]. unfold placing, preparing, fractions.
      by rewrite Htotal. }
    destruct (geometry_grid _ g Hg) as (_ & Hc & Hr).
    assert (Hcps : 0 < cols g * rows g) by nia.
    destruct (sheet_count_covers total (cols g * rows g) Hcps
                ltac:(unfold total, len; lia)) as (_ & Hsheets & Hone).
    fold sheets in Hsheets, Hone.
    split; [exact Hlog|]. split; [by rewrite Hrun|]. split; [|].
    { unfold preparing. apply Forall_forall. intros v Hv.
      apply list_elem_of_In, in_map_iff in Hv as (i & <- & Hi).
      apply list_elem_of_In, count_from_bounds in Hi.
      unfold fraction, Qle, Qmult; cbn [Qnum Qden].
      rewrite Pos2Z.inj_mul, Z2Pos.id by lia. nia. }
    intros Hpos. specialize (Hone Hpos). split; [exact Hone|].
    assert (Hplacing : placing
                       = map (fun i => fraction i total)
                             (count_from 0 (Z.to_nat (total - 1)))
                         ++ [fraction (total - 1) total]).
    { unfold placing.
      replace (Z.to_nat total) with (Z.to_nat (total - 1) + 1)%nat by lia.
      rewrite count_from_app, map_app. cbn [count_from map].
      do 3 f_equal. lia. }
    assert (Hpreparing : exists rest,
               preparing = (fraction 0 sheets * (9 # 10))%Q :: rest).
    { unfold preparing.
      replace (Z.to_nat sheets) with (S (Z.to_nat (sheets - 1))) by lia.
      cbn [count_from map]. by eexists. }
    split.
    { exists (fraction (total - 1) total). rewrite Hplacing, last_snoc.
      split; [done|].
      unfold fraction, Qeq; cbn [Qnum Qden]. rewrite Z2Pos.id by lia. lia. }
    destruct Hpreparing as (rest & Hprep).
    rewrite Hlog, Hplacing, Hprep.
    replace (Z.eqb total 0) with false by (symmetry; apply Z.eqb_neq; lia).
    rewrite <- !app_assoc. cbn [app].
    change (0%Q :: ?l) with ([0%Q] ++ l). rewrite app_assoc.
    intros Hmono. apply nondecreasing_middle in Hmono.
    revert Hmono. unfold fraction, Qle, Qmult; cbn [Qnum Qden].
    rewrite Pos2Z.inj_mul, !Z2Pos.id by lia. nia.
  - intros thumbnail_size self fs out_path e Hg.
    unfold _generate_compact_thread, compose_export. by rewrite Hg.
Qed.

Lemma progress_by_phase_witness :
  exists g,
    geometry (layout_options landscape_window) = Ok g
    /\ 0 < len (pages (manager landscape_window))
    /\ ~ nondecreasing
         (snd (fst (_generate_compact_thread fit_within landscape_window
                      ∅ "out.pdf"))).
Proof.
  destruct (geometry (layout_options landscape_window)) as [g|e] eqn:Hg;
    [|vm_compute in Hg; discriminate Hg].
  exists g. split; [done|].
  assert (Hpos : 0 < len (pages (manager landscape_window)))
    by (vm_compute; reflexivity).
  split; [exact Hpos|].
  destruct progress_by_phase as (_ & _ & _ & _ & Hexact & _).
  destruct (Hexact fit_within landscape_window ∅ "out.pdf"%string g Hg)
    as (_ & _ & _ & Hback).
  by apply Hback.
Defined.

(** C8 as stated fails on the compact generator: with two pages on one
    sheet the values are 0, 1/2, 1, 0.9, 1, and 0.9 comes after 1. *)
Lemma compact_progress_goes_back :
  snd (fst (_generate_compact_thread fit_within landscape_window ∅ "out.pdf"))
  = [0; 1 # 2; 2 # 2; (1 # 1) * (9 # 10); 1]%Q
  /\ ~ nondecreasing
       (snd (fst (_generate_compact_thread fit_within landscape_window ∅ "out.pdf"))).
Proof.
  assert (H : snd (fst (_generate_compact_thread fit_within landscape_window
                          ∅ "out.pdf"))
              = [0; 1 # 2; 2 # 2; (1 # 1) * (9 # 10); 1]%Q)
    by (vm_compute; reflexivity).
  split; [exact H|]. rewrite H.
  intros (_ & _ & Hback & _). vm_compute in Hback. by apply Hback.
Qed.
